(** * Skin weights export / import: a shallow embedding of
      [Skin_Weights_Addon/skin_weights_operator.py]

    The add-on serialises, for every vertex of the active mesh, its position,
    its averaged UV coordinate and its strictly positive vertex-group weights,
    and re-applies such a dataset to a mesh by nearest-neighbour matching in
    position space (a KD-tree) or in UV space (a linear scan).

    Modelling conventions.
    - Python floats are exact rationals [Q]: rounding is outside the model.
      A float that comes out of a file is a [float_ext], a rational or one of
      the IEEE special values, and the arithmetic the UV matcher does on it
      leaves the range of the doubles as Python's does: a sum or difference
      beyond the largest double is an infinity, a square beyond it raises
      [OverflowError], and no comparison with a NaN holds.
    - Python exceptions are the [Raise] branch of [result].
    - The host ([bpy], [mathutils]) is modelled by the interface the add-on
      uses: meshes, loops, UV layers and vertex groups are records, a vertex
      group stores its weights in a finite map from vertex index to weight,
      and the KD-tree is a parameter constrained by its documented contract.
    - The file written by the exporter is the sequence of its write calls
      ([f.write] and [json.dump]); [json_load] reads such a sequence back. *)

From Stdlib Require Import QArith Lqa ZArith Lia List.
From stdpp Require Import base option list gmap strings.

#[local] Set Warnings "-clear-no-such-hyp".

Local Open Scope string_scope.
Local Open Scope list_scope.

(** ** Python values *)

Abbreviation float := Q.

(** Exceptions the modelled code can raise. *)
Inductive exn : Type :=
  | IndexError
  | KeyError (key : string)
  | TypeError
  | ValueError
  | RuntimeError
  | OverflowError
  | OSError.

Inductive result (A : Type) : Type :=
  | Return (a : A)
  | Raise (e : exn).
Arguments Return {A} a.
Arguments Raise {A} e.

#[global] Instance result_ret : MRet result := fun _ a => Return a.

#[global] Instance result_bind : MBind result := fun _ _ k m =>
  match m with
  | Return a => k a
  | Raise e => Raise e
  end.

(** [sum(xs)]: the builtin starts from [0] and adds from the left. *)
Definition py_sum (xs : list float) : float := fold_left Qplus xs 0%Q.

(** [len(xs)] used as a float divisor. *)
Definition py_len {A : Type} (xs : list A) : float := inject_Z (Z.of_nat (length xs)).

(** [x > 0] on floats. *)
Definition float_gt0 (x : float) : bool := QMicromega.Qlt_bool 0%Q x.

(** *** Floats read from a file *)

(** A float as [json.load] returns it: a finite value, or [Infinity],
    [-Infinity] or [NaN], which the parser accepts. *)
Inductive float_ext : Type :=
  | Fin (x : float)
  | Inf
  | NegInf
  | NaN.

(** The largest finite double, [(2 - 2 ** -52) * 2 ** 1023]. *)
Definition float_max : float := inject_Z (2 ^ 1024 - 2 ^ 971).

(** The result of an addition or subtraction whose exact value is [x]: an
    infinity when [x] is beyond the largest double. *)
Definition float_round (x : float) : float_ext :=
  if QMicromega.Qlt_bool float_max x then Inf
  else if QMicromega.Qlt_bool x (- float_max) then NegInf
  else Fin x.

(** [a + b] *)
Definition float_add (a b : float_ext) : float_ext :=
  match a, b with
  | NaN, _ | _, NaN => NaN
  | Fin x, Fin y => float_round (x + y)
  | Inf, NegInf | NegInf, Inf => NaN
  | Inf, _ | _, Inf => Inf
  | NegInf, _ | _, NegInf => NegInf
  end.

(** [a - b] *)
Definition float_sub (a b : float_ext) : float_ext :=
  match a, b with
  | NaN, _ | _, NaN => NaN
  | Fin x, Fin y => float_round (x - y)
  | Inf, Inf | NegInf, NegInf => NaN
  | Inf, _ | _, NegInf => Inf
  | NegInf, _ | _, Inf => NegInf
  end.

(** [x ** 2]: a finite [x] whose square is beyond the largest double raises
    [OverflowError]; the square of an infinity is [inf], that of a NaN is a
    NaN. *)
Definition float_sqr (x : float_ext) : result float_ext :=
  match x with
  | Fin v =>
      if QMicromega.Qlt_bool float_max (v ^ 2) then Raise OverflowError
      else Return (Fin (v ^ 2))
  | Inf | NegInf => Return Inf
  | NaN => Return NaN
  end.

(** [a < b]: false as soon as one side is a NaN. *)
Definition lt_ext (a b : float_ext) : bool :=
  match a, b with
  | NaN, _ | _, NaN => false
  | Fin x, Fin y => QMicromega.Qlt_bool x y
  | Fin _, Inf | NegInf, Fin _ | NegInf, Inf => true
  | _, _ => false
  end.

(** A Python [dict] with string keys, in insertion order: [d[k] = v] keeps
    the position of an existing key and appends a new one. *)
Definition dict (V : Type) : Type := list (string * V).

Fixpoint dict_set {V : Type} (d : dict V) (k : string) (v : V) : dict V :=
  match d with
  | [] => [(k, v)]
  | (k', v') :: d' =>
      if String.eqb k' k then (k, v) :: d' else (k', v') :: dict_set d' k v
  end.

Fixpoint dict_get {V : Type} (d : dict V) (k : string) : option V :=
  match d with
  | [] => None
  | (k', v') :: d' => if String.eqb k' k then Some v' else dict_get d' k
  end.

(** ** The host's mesh data *)

Definition Vector3 : Type := (float * float * float)%type.
Definition Vector2 : Type := (float * float)%type.

(** [list(vert.co)] *)
Definition list_of_vector3 (v : Vector3) : list float :=
  let '(x, y, z) := v in [x; y; z].

Record MeshVertex : Type := {
  index : nat;
  co : Vector3
}.

Record MeshLoop : Type := {
  loop_index : nat;      (* loop.index *)
  vertex_index : nat     (* loop.vertex_index *)
}.

Record Mesh : Type := {
  vertices : list MeshVertex;
  loops : list MeshLoop;
  uv_layers_active : option (list Vector2)  (* uv_layers.active, its .data[i].uv *)
}.

Record VertexGroup : Type := {
  name : string;
  members : gmap nat float   (* vertex index -> weight; absent = not assigned *)
}.

Record Object : Type := {
  type : string;
  data : Mesh;
  vertex_groups : list VertexGroup
}.

(** [group.weight(i)]: raises [RuntimeError] when the vertex is not in the
    group. *)
Definition group_weight (g : VertexGroup) (i : nat) : result float :=
  match members g !! i with
  | Some w => Return w
  | None => Raise RuntimeError
  end.

(** ** [get_uv_coords] *)

(** The comprehension
    [[uv_data[loop.index].uv[:] for loop in obj.data.loops
                                 if loop.vertex_index == vert_index]];
    an index outside [uv_data] raises [IndexError]. *)
Fixpoint collect_uvs (uv_data : list Vector2) (ls : list MeshLoop) (vert_index : nat)
  : result (list Vector2) :=
  match ls with
  | [] => Return []
  | loop :: rest =>
      if Nat.eqb (vertex_index loop) vert_index then
        match uv_data !! loop_index loop with
        | Some uv => uvs ← collect_uvs uv_data rest vert_index; Return (uv :: uvs)
        | None => Raise IndexError
        end
      else collect_uvs uv_data rest vert_index
  end.

(** [zip( *uvs )]: the tuple of first components and the tuple of second
    components (every [uv[:]] is a pair). *)
Definition zip_star (uvs : list Vector2) : list (list float) :=
  [map fst uvs; map snd uvs].

Definition get_uv_coords (obj : Object) (vert_index : nat) : result (option (list float)) :=
  match uv_layers_active (data obj) with
  | None => Return None
  | Some uv_data =>
      uvs ← collect_uvs uv_data (loops (data obj)) vert_index;
      match uvs with
      | [] => Return None
      | _ :: _ =>
          let avg_uv := map (fun coord => (py_sum coord / py_len uvs)%Q) (zip_star uvs) in
          Return (Some avg_uv)
      end
  end.

(** ** The serialised dataset *)

(** One record of the dataset, the Python dict [v_data] with keys ["co"],
    ["uv"] and ["weights"]; a key may be missing in a file that is read. *)
Record VertexData : Type := {
  d_co : option (list float);
  d_uv : option (list float_ext);
  d_weights : option (dict float)
}.

(** The parsed document; [d_vertices] is its ["vertices"] member. *)
Record Document : Type := {
  d_vertices : option (list VertexData)
}.

(** What the exporter sends to the file: [f.write(s)] or [json.dump(v, f)]. *)
Inductive chunk : Type :=
  | Write (s : string)
  | JsonDump (v : VertexData).

Definition nl : string := String (Ascii.ascii_of_nat 10) EmptyString.
Definition dquote : string := String (Ascii.ascii_of_nat 34) EmptyString.

(** ['{"vertices": [\n'], [',\n'] and ['\n]}'] *)
Definition doc_open : string := "{" +:+ dquote +:+ "vertices" +:+ dquote +:+ ": [" +:+ nl.
Definition doc_sep : string := "," +:+ nl.
Definition doc_close : string := nl +:+ "]}".

(** [json.load] on a written sequence: the JSON grammar at the granularity
    of the chunks.  An object with the single member ["vertices"], an array
    of dumped records separated by commas; anything else does not parse. *)
Fixpoint parse_elements (c : list chunk) : option (list VertexData) :=
  match c with
  | JsonDump v :: Write s :: rest =>
      if String.eqb s doc_sep then
        match parse_elements rest with
        | Some vs => Some (v :: vs)
        | None => None
        end
      else if String.eqb s doc_close then
        match rest with
        | [] => Some [v]
        | _ :: _ => None
        end
      else None
  | _ => None
  end.

Definition json_load (content : list chunk) : string + Document :=
  match content with
  | Write s :: rest =>
      if String.eqb s doc_open then
        match rest with
        | [Write s'] =>
            if String.eqb s' doc_close then inr {| d_vertices := Some [] |}
            else inl "JSONDecodeError"
        | _ =>
            match parse_elements rest with
            | Some vs => inr {| d_vertices := Some vs |}
            | None => inl "JSONDecodeError"
            end
        end
      else inl "JSONDecodeError"
  | _ => inl "JSONDecodeError"
  end.

(** What the file system holds at a path: a file with what was written to
    it, or something [open] raises [OSError] at (a directory, a path below
    something that is not a directory).  A path the store does not hold can
    be created. *)
Inductive node : Type :=
  | File (content : list chunk)
  | Refused.

(** [open(filepath, 'r')] followed by [json.load] on a store of files. *)
Definition open_json_load (files : gmap string node) (filepath : string)
  : string + Document :=
  match files !! filepath with
  | Some (File content) => json_load content
  | Some Refused => inl "OSError"
  | None => inl "FileNotFoundError"
  end.

(** ** Console and progress bar *)

Inductive message : Type :=
  | InvalidFilePath          (* "Invalid file path!" *)
  | NoMeshSelected           (* "No mesh selected!" *)
  | NoVerticesFound          (* "No vertices found!" *)
  | Exporting (i total_verts : nat)  (* f"Exporting... {i / total_verts:.0%} done" *)
  | ExportSuccessful         (* "Export Successful!" *)
  | ImportFailed (e : string)        (* f"Import Failed: {e}" *)
  | NoValidVertexData        (* "No valid vertex data found in file!" *)
  | ImportSuccessful.        (* "Import Successful!" *)

Inductive event : Type :=
  | print (m : message)
  | progress_begin (lo hi : nat)
  | progress_update (i : nat)
  | progress_end.

(** ** [export_skin_weights] *)

(** [x or [0.0, 0.0]]: the default replaces [None] and the empty list. *)
Definition or_default (x : option (list float)) : list float :=
  match x with
  | Some (a :: l) => a :: l
  | Some [] | None => [0%Q; 0%Q]
  end.

(** The loop over [obj.vertex_groups] that fills [v_data["weights"]];
    [except RuntimeError: pass] swallows that exception only. *)
Fixpoint collect_weights (groups : list VertexGroup) (vert_index : nat)
    (weights : dict float) : result (dict float) :=
  match groups with
  | [] => Return weights
  | group :: rest =>
      match group_weight group vert_index with
      | Return weight =>
          collect_weights rest vert_index
            (if float_gt0 weight then dict_set weights (name group) weight else weights)
      | Raise RuntimeError => collect_weights rest vert_index weights
      | Raise e => Raise e
      end
  end.

(** The body of the vertex loop up to [json.dump]: the record of one vertex. *)
Definition vertex_record (obj : Object) (vert : MeshVertex) : result VertexData :=
  uv ← get_uv_coords obj (index vert);
  let uv_coords := or_default uv in
  weights ← collect_weights (vertex_groups obj) (index vert) [];
  Return {| d_co := Some (list_of_vector3 (co vert));
            d_uv := Some (Fin <$> uv_coords);
            d_weights := Some weights |}.

(** State of the export while the file is open. *)
Record ExportState : Type := {
  written : list chunk;
  shown : list event
}.

Definition emit (c : bool) (e : event) (out : list event) : list event :=
  if c then out ++ [e] else out.

(** [for i, vert in enumerate(vertices)], from position [i] on. *)
Fixpoint export_loop (obj : Object) (total_verts log_interval update_interval : nat)
    (i : nat) (vs : list MeshVertex) (st : ExportState) : ExportState * option exn :=
  match vs with
  | [] => (st, None)
  | vert :: rest =>
      match vertex_record obj vert with
      | Raise e => (st, Some e)
      | Return v_data =>
          let f := written st ++ [JsonDump v_data] in
          let f := if Nat.ltb i (total_verts - 1) then f ++ [Write doc_sep] else f in
          let out := emit (Nat.eqb (i mod update_interval) 0) (progress_update i) (shown st) in
          let out := emit (Nat.eqb (i mod log_interval) 0) (print (Exporting i total_verts)) out in
          export_loop obj total_verts log_interval update_interval (S i) rest
            {| written := f; shown := out |}
      end
  end.

Record ExportOutcome : Type := {
  files_after : gmap string node;
  export_events : list event;
  export_raised : option exn
}.

(** [open(filepath, 'w')] comes after [wm.progress_begin]: where it raises,
    the exception leaves the function with the file system as it was. *)
Definition export_skin_weights (filepath : string) (context_object : option Object)
    (files : gmap string node) : ExportOutcome :=
  let abort m := {| files_after := files; export_events := [print m];
                    export_raised := None |} in
  match filepath with
  | EmptyString => abort InvalidFilePath
  | String _ _ =>
      match context_object with
      | None => abort NoMeshSelected
      | Some obj =>
          if negb (String.eqb (type obj) "MESH") then abort NoMeshSelected
          else
            let vertices := vertices (data obj) in
            let total_verts := length vertices in
            if Nat.eqb total_verts 0 then abort NoVerticesFound
            else
              let log_interval := Nat.max 1 (total_verts / 10) in
              let update_interval := Nat.max 1 (total_verts / 1000) in
              match files !! filepath with
              | Some Refused =>
                  {| files_after := files;
                     export_events := [progress_begin 0 total_verts];
                     export_raised := Some OSError |}
              | _ =>
                  let st := {| written := [Write doc_open];
                               shown := [progress_begin 0 total_verts] |} in
                  match export_loop obj total_verts log_interval update_interval 0
                          vertices st with
                  | (st, Some e) =>
                      {| files_after := <[filepath := File (written st)]> files;
                         export_events := shown st;
                         export_raised := Some e |}
                  | (st, None) =>
                      {| files_after :=
                           <[filepath := File (written st ++ [Write doc_close])]> files;
                         export_events := shown st ++ [progress_end; print ExportSuccessful];
                         export_raised := None |}
                  end
              end
      end
  end.

(** ** [find_closest_uv_match] *)

(** [sum(... for a, b in pairs)] with the terms [(a - b) ** 2]: the builtin
    draws the terms one by one and adds each to the running sum; a term that
    raises ends the sum with its exception. *)
Fixpoint sum_squares (pairs : list (float * float_ext)) (acc : float_ext)
  : result float_ext :=
  match pairs with
  | [] => Return acc
  | (a, b) :: rest =>
      term ← float_sqr (float_sub (Fin a) b);
      sum_squares rest (float_add acc term)
  end.

(** [sum((a - b) ** 2 for a, b in zip(target_uv, source_uv))]: the target's
    components are floats of the mesh, the record's come from the file. *)
Definition uv_dist (target_uv : list float) (source_uv : list float_ext)
  : result float_ext :=
  sum_squares (zip target_uv source_uv) (Fin 0%Q).

(** [v.get("uv", [0.0, 0.0])] *)
Definition get_uv (v : VertexData) : list float_ext :=
  match d_uv v with
  | Some uv => uv
  | None => [Fin 0%Q; Fin 0%Q]
  end.

(** [for i, v in enumerate(source_data)], from position [i] on; [min_dist]
    starts as [float('inf')]. *)
Fixpoint uv_scan (target_uv : list float) (i : nat) (vs : list VertexData)
    (min_dist : float_ext) (best_index : Z) : result Z :=
  match vs with
  | [] => Return best_index
  | v :: rest =>
      let source_uv := get_uv v in
      dist ← uv_dist target_uv source_uv;
      if lt_ext dist min_dist
      then uv_scan target_uv (S i) rest dist (Z.of_nat i)
      else uv_scan target_uv (S i) rest min_dist best_index
  end.

(** The target UV after [if target_uv is None: target_uv = [0.0, 0.0]]. *)
Definition target_or_origin (target_uv : option (list float)) : list float :=
  match target_uv with
  | Some uv => uv
  | None => [0%Q; 0%Q]
  end.

Definition find_closest_uv_match (obj : Object) (vert : MeshVertex)
    (source_data : list VertexData) : result Z :=
  match source_data with
  | [] => Return (-1)%Z
  | _ :: _ =>
      target_uv ← get_uv_coords obj (index vert);
      let target_uv := target_or_origin target_uv in
      uv_scan target_uv 0 source_data Inf (-1)%Z
  end.

(** ** The weight sink: [obj.vertex_groups] *)

Inductive assign_mode : Type := REPLACE | ADD | SUBTRACT.

(** [group.add(indices, weight, mode)], the host's assignment: [REPLACE]
    stores the weight, [ADD] and [SUBTRACT] combine it with the stored one
    ([SUBTRACT] leaves an unassigned vertex unassigned). *)
Definition group_add (g : VertexGroup) (indices : list nat) (weight : float)
    (mode : assign_mode) : VertexGroup :=
  fold_left (fun g i =>
      match mode, members g !! i with
      | REPLACE, _ | ADD, None => {| name := name g; members := <[i := weight]> (members g) |}
      | ADD, Some w0 => {| name := name g; members := <[i := (w0 + weight)%Q]> (members g) |}
      | SUBTRACT, Some w0 => {| name := name g; members := <[i := (w0 - weight)%Q]> (members g) |}
      | SUBTRACT, None => g
      end) indices g.

(** [obj.vertex_groups.get(group_name)]: the position of the first group of
    that name, standing for the reference the host returns. *)
Definition vertex_groups_get (groups : list VertexGroup) (group_name : string) : option nat :=
  fst <$> list_find (fun g => name g = group_name) groups.

(** [obj.vertex_groups.new(name=group_name)]: an empty group at the end. *)
Definition vertex_groups_new (groups : list VertexGroup) (group_name : string)
  : list VertexGroup * nat :=
  (groups ++ [{| name := group_name; members := ∅ |}], length groups).

(** One iteration of [for group_name, weight in weights.items()]. *)
Definition apply_weight (vert_index : nat) (groups : list VertexGroup)
    (item : string * float) : list VertexGroup :=
  let '(group_name, weight) := item in
  let '(groups, group) :=
    match vertex_groups_get groups group_name with
    | Some group => (groups, group)
    | None => vertex_groups_new groups group_name
    end in
  alter (fun g => group_add g [vert_index] weight REPLACE) group groups.

Definition set_vertex_groups (obj : Object) (groups : list VertexGroup) : Object :=
  {| type := type obj; data := data obj; vertex_groups := groups |}.

(** ** [import_skin_weights] *)

(** [xs[i]] for a Python integer [i]: negative indices count from the end. *)
Definition py_getitem {A : Type} (xs : list A) (i : Z) : result A :=
  let j := if (i <? 0)%Z then (Z.of_nat (length xs) + i)%Z else i in
  if (j <? 0)%Z then Raise IndexError
  else match xs !! Z.to_nat j with
       | Some x => Return x
       | None => Raise IndexError
       end.

(** The inserted points of a [KDTree], with the index given to each. *)
Definition kd_points : Type := list (Vector3 * nat).

(** [old_tree.insert(v["co"], i)] for every record: a missing key raises
    [KeyError], a coordinate list that is not three floats is refused. *)
Fixpoint kd_insert_all (i : nat) (vs : list VertexData) (tree : kd_points)
  : result kd_points :=
  match vs with
  | [] => Return tree
  | v :: rest =>
      match d_co v with
      | None => Raise (KeyError "co")
      | Some [x; y; z] => kd_insert_all (S i) rest (tree ++ [((x, y, z), i)])
      | Some _ => Raise ValueError
      end
  end.

(** The part of the loop body after the match is known:
    [closest_data = vertices_data[index]], the test [if not weights] and the
    loop over [weights.items()]. *)
Definition apply_closest (vertices_data : list VertexData) (obj : Object)
    (vert : MeshVertex) (i : Z) : result Object :=
  closest_data ← py_getitem vertices_data i;
  match d_weights closest_data with
  | None | Some [] => Return obj
  | Some (item :: items) =>
      Return (set_vertex_groups obj
                (fold_left (apply_weight (index vert)) (item :: items)
                   (vertex_groups obj)))
  end.

Record ImportOutcome : Type := {
  object_after : option Object;
  import_events : list event;
  import_raised : option exn
}.

Section Importer.

(** [KDTree.find(co)] after [balance()]: the nearest inserted point and
    its index, [None] on an empty tree.  The distance it also returns is
    ignored by the caller. *)
Variable kd_find : kd_points → Vector3 → option (Vector3 * nat).

(** The body of [for vert in obj.data.vertices]. *)
Definition import_vertex (mapping_mode : string) (old_tree : kd_points)
    (vertices_data : list VertexData) (obj : Object) (vert : MeshVertex)
  : result Object :=
  if String.eqb mapping_mode "POSITION" then
    match kd_find old_tree (co vert) with
    | Some (_, i) => apply_closest vertices_data obj vert (Z.of_nat i)
    | None => Raise TypeError
    end
  else if String.eqb mapping_mode "UV" then
    i ← find_closest_uv_match obj vert vertices_data;
    if (i =? -1)%Z then Return obj else apply_closest vertices_data obj vert i
  else Return obj.

(** The loop itself; an exception leaves the groups as they are at that
    point. *)
Fixpoint import_loop (mapping_mode : string) (old_tree : kd_points)
    (vertices_data : list VertexData) (vs : list MeshVertex) (obj : Object)
  : Object * option exn :=
  match vs with
  | [] => (obj, None)
  | vert :: rest =>
      match import_vertex mapping_mode old_tree vertices_data obj vert with
      | Return obj' => import_loop mapping_mode old_tree vertices_data rest obj'
      | Raise e => (obj, Some e)
      end
  end.

(** [load filepath] is the outcome of [open(filepath, 'r')] and
    [json.load]: the text of the exception, or the parsed document. *)
Definition import_skin_weights (filepath : string) (mapping_mode : string)
    (context_object : option Object) (load : string → string + Document)
  : ImportOutcome :=
  let abort m := {| object_after := context_object; import_events := [print m];
                    import_raised := None |} in
  match filepath with
  | EmptyString => abort InvalidFilePath
  | String _ _ =>
      match context_object with
      | None => abort NoMeshSelected
      | Some obj =>
          if negb (String.eqb (type obj) "MESH") then abort NoMeshSelected
          else
            match load filepath with
            | inl e => abort (ImportFailed e)
            | inr skin_data =>
                match d_vertices skin_data with
                | None | Some [] => abort NoValidVertexData
                | Some (v :: vs) =>
                    let vertices_data := v :: vs in
                    let built :=
                      if String.eqb mapping_mode "POSITION"
                      then kd_insert_all 0 vertices_data []
                      else Return [] in
                    match built with
                    | Raise e =>
                        {| object_after := Some obj; import_events := [];
                           import_raised := Some e |}
                    | Return old_tree =>
                        match import_loop mapping_mode old_tree vertices_data
                                (vertices (data obj)) obj with
                        | (obj', Some e) =>
                            {| object_after := Some obj'; import_events := [];
                               import_raised := Some e |}
                        | (obj', None) =>
                            {| object_after := Some obj';
                               import_events := [print ImportSuccessful];
                               import_raised := None |}
                        end
                    end
                end
            end
      end
  end.

End Importer.

(** ** The KD-tree's contract and a reference implementation *)

(** Squared Euclidean distance in 3D. *)
Definition dist3 (p q : Vector3) : float :=
  let '(x1, y1, z1) := p in
  let '(x2, y2, z2) := q in
  ((x1 - x2) * (x1 - x2) + (y1 - y2) * (y1 - y2) + (z1 - z2) * (z1 - z2))%Q.

(** Contract of [KDTree.find]: on a tree with at least one point it returns
    an inserted point, with the index it was inserted under, that no other
    inserted point is strictly closer to the query than. *)
Definition kd_find_nearest (kd_find : kd_points → Vector3 → option (Vector3 * nat)) : Prop :=
  ∀ (tree : kd_points) (q : Vector3),
    tree ≠ [] →
    ∃ p i, kd_find tree q = Some (p, i) ∧ (p, i) ∈ tree ∧
           ∀ p' j, (p', j) ∈ tree → (dist3 q p <= dist3 q p')%Q.

(** A linear scan that meets the contract. *)
Fixpoint kd_find_scan (tree : kd_points) (q : Vector3) : option (Vector3 * nat) :=
  match tree with
  | [] => None
  | (p, i) :: rest =>
      match kd_find_scan rest q with
      | None => Some (p, i)
      | Some (p', j) =>
          if QMicromega.Qlt_bool (dist3 q p') (dist3 q p) then Some (p', j) else Some (p, i)
      end
  end.

(** ** Notions the statements below are phrased with *)

(** The UV pairs of exactly those loop entries whose vertex index matches. *)
Definition matching_uvs (uv_data : list Vector2) (ls : list MeshLoop) (vert_index : nat)
  : list Vector2 :=
  omap (fun l => uv_data !! loop_index l)
       (filter (fun l => vertex_index l = vert_index) ls).

(** Arithmetic mean of a non-empty list. *)
Definition arithmetic_mean (xs : list float) : float :=
  (fold_right Qplus 0 xs / inject_Z (Z.of_nat (length xs)))%Q.

(** Every loop of the mesh has its entry in the active UV layer, as the host
    guarantees. *)
Definition loops_in_range (m : Mesh) : Prop :=
  ∀ uv_data, uv_layers_active m = Some uv_data →
    Forall (fun l => loop_index l < length uv_data) (loops m).

(** The chunks the vertex loop appends for the records [rs], the first of
    them at position [i] of [total_verts]. *)
Fixpoint loop_chunks (total_verts i : nat) (rs : list VertexData) : list chunk :=
  match rs with
  | [] => []
  | r :: rest =>
      JsonDump r :: (if Nat.ltb i (total_verts - 1) then [Write doc_sep] else [])
        ++ loop_chunks total_verts (S i) rest
  end.

(** A document with the records [rs]: one object, one array member, the
    records separated by commas. *)
Fixpoint join_records (rs : list VertexData) : list chunk :=
  match rs with
  | [] => []
  | r :: rest =>
      match rest with
      | [] => [JsonDump r]
      | _ :: _ => JsonDump r :: Write doc_sep :: join_records rest
      end
  end.

Definition document_text (rs : list VertexData) : list chunk :=
  Write doc_open :: join_records rs ++ [Write doc_close].

(** The entry a group contributes to the record of vertex [vert_index]. *)
Definition group_entry (vert_index : nat) (g : VertexGroup) : option (string * float) :=
  match members g !! vert_index with
  | Some w => if float_gt0 w then Some (name g, w) else None
  | None => None
  end.

(** The events the vertex loop of the exporter can show. *)
Definition loop_event (e : event) : Prop :=
  match e with
  | progress_update _ | print (Exporting _ _) | progress_begin _ _ => True
  | _ => False
  end.

(** ** A small mesh to instantiate the statements on *)

(** Three vertices; vertex 0 lies on a UV seam (two loops), vertex 2 is
    referenced by no loop.  Vertex 1 is assigned to ["Arm"] with weight 0. *)
Definition demo_mesh : Mesh :=
  {| vertices := [{| index := 0; co := (0, 0, 0)%Q |};
                  {| index := 1; co := (1, 0, 0)%Q |};
                  {| index := 2; co := (0, 1, 0)%Q |}];
     loops := [{| loop_index := 0; vertex_index := 0 |};
               {| loop_index := 1; vertex_index := 1 |};
               {| loop_index := 2; vertex_index := 0 |}];
     uv_layers_active := Some [(0, 0)%Q; (1 # 3, 1 # 4)%Q; (1, 1)%Q] |}.

Definition demo_object : Object :=
  {| type := "MESH";
     data := demo_mesh;
     vertex_groups :=
       [{| name := "Arm"; members := {[ 0%nat := (3 # 10)%Q; 1%nat := 0%Q ]} |};
        {| name := "Leg"; members := {[ 1%nat := (7 # 10)%Q ]} |}] |}.

(** Squared Euclidean distance in 2D. *)
Definition sq_dist_2d (a b : Vector2) : float :=
  ((fst a - fst b) * (fst a - fst b) + (snd a - snd b) * (snd a - snd b))%Q.

(** The UV of a record: its ["uv"] member, or the origin when it is missing. *)
Definition record_uv_2d (r : VertexData) : Vector2 :=
  match d_uv r with
  | Some [Fin u; Fin v] => (u, v)
  | _ => (0, 0)%Q
  end.

(** Every ["uv"] member that is present holds two finite floats. *)
Definition uv_two_floats (source_data : list VertexData) : Prop :=
  ∀ r uv, r ∈ source_data → d_uv r = Some uv → ∃ u v, uv = [Fin u; Fin v].


(** A dataset whose second and third records are equally close to the
    origin of UV space; the third has neither ["uv"] nor ["weights"]. *)
Definition demo_dataset : list VertexData :=
  [{| d_co := Some [1; 0; 0]%Q; d_uv := Some [Fin 1; Fin 1];
      d_weights := Some [("Leg", (7 # 10)%Q)] |};
   {| d_co := Some [0; 1; 0]%Q; d_uv := Some [Fin 0; Fin 0];
      d_weights := Some [("Arm", (1 # 2)%Q)] |};
   {| d_co := Some [0; 0; 1]%Q; d_uv := None; d_weights := None |}].

(** A dataset whose only record has a NaN in its UV. *)
Definition nan_dataset : list VertexData :=
  [{| d_co := Some [0; 0; 0]%Q; d_uv := Some [NaN; Fin 0];
      d_weights := Some [("Arm", (1 # 2)%Q)] |}].

(** Two records with the same UV, whose first component is [2 ** 600]. *)
Definition far_dataset : list VertexData :=
  [{| d_co := Some [0; 0; 0]%Q; d_uv := Some [Fin (inject_Z (2 ^ 600)); Fin 0];
      d_weights := Some [("Arm", (1 # 2)%Q)] |};
   {| d_co := Some [1; 0; 0]%Q; d_uv := Some [Fin (inject_Z (2 ^ 600)); Fin 0];
      d_weights := Some [("Leg", (1 # 2)%Q)] |}].


(** The weight of vertex [vert_index] in the group called [group_name]:
    the group is the one [vertex_groups.get] returns, and [None] stands for
    no such group or a vertex that is not assigned to it. *)
Definition weight_in (groups : list VertexGroup) (group_name : string) (vert_index : nat)
  : option float :=
  match vertex_groups_get groups group_name with
  | Some k =>
      match groups !! k with
      | Some g => members g !! vert_index
      | None => None
      end
  | None => None
  end.


(** A mesh object without vertices. *)
Definition empty_object : Object :=
  {| type := "MESH";
     data := {| vertices := []; loops := []; uv_layers_active := None |};
     vertex_groups := [{| name := "Arm"; members := ∅ |}] |}.


(** A record with its ["uv"] member written out, the origin when it was
    missing. *)
Definition explicit_uv (r : VertexData) : VertexData :=
  {| d_co := d_co r;
     d_uv := Some (match d_uv r with
                   | Some uv => uv
                   | None => [Fin 0%Q; Fin 0%Q]
                   end);
     d_weights := d_weights r |}.

(** A record without weights to apply: no ["weights"] member, or an empty
    one. *)
Definition no_weights (r : VertexData) : Prop :=
  d_weights r = None ∨ d_weights r = Some [].

(** A record whose ["co"] member is there and has three components. *)
Definition has_position (r : VertexData) : Prop :=
  ∃ x y z, d_co r = Some [x; y; z].

Definition record_position (r : VertexData) : Vector3 :=
  match d_co r with
  | Some [x; y; z] => (x, y, z)
  | _ => (0, 0, 0)%Q
  end.

(** The [weights.items()] of a record, none when the member is missing. *)
Definition record_items (r : VertexData) : dict float :=
  match d_weights r with
  | Some items => items
  | None => []
  end.

(** A record with its ["weights"] member written out, empty when it was
    missing. *)
Definition explicit_weights (r : VertexData) : VertexData :=
  {| d_co := d_co r; d_uv := d_uv r; d_weights := Some (record_items r) |}.

(** Two positions with equal coordinates. *)
Definition same_point (p q : Vector3) : Prop :=
  (p.1.1 == q.1.1 ∧ p.1.2 == q.1.2 ∧ p.2 == q.2)%Q.

(** No two vertices of the list share a position. *)
Definition unique_positions (vs : list MeshVertex) : Prop :=
  ∀ i j v w, vs !! i = Some v → vs !! j = Some w → same_point (co v) (co w) → i = j.

(** What importing the positive weights of [source_groups] vertex by vertex
    does to the target's groups. *)
Definition import_groups (source_groups : list VertexGroup) (vs : list MeshVertex)
    (groups : list VertexGroup) : list VertexGroup :=
  fold_left (fun gs vert =>
               fold_left (apply_weight (index vert))
                 (omap (group_entry (index vert)) source_groups) gs)
    vs groups.


(** ** The operators *)

(** [self.report({'INFO'}, ...)] and [self.report({'ERROR'}, ...)] *)
Inductive report_type : Type := INFO | ERROR.

Inductive report_message : Type :=
  | NoValidMeshSelected            (* "No valid mesh selected!" *)
  | NoFileSelected                 (* "No file selected!" *)
  | ExportedSuccessfully           (* "Skin weights exported successfully!" *)
  | ExportFailed (e : exn)         (* f"Export failed: {e}" *)
  | ImportedSuccessfully           (* "Skin weights imported successfully!" *)
  | ImportFailedWith (e : exn).    (* f"Import failed: {e}" *)

(** [{'FINISHED'}] and [{'CANCELLED'}] *)
Inductive operator_result : Type := FINISHED | CANCELLED.

Record ExportOperatorOutcome : Type := {
  export_result : operator_result;
  export_reports : list (report_type * report_message);
  export_files : gmap string node;
  export_console : list event
}.

Record ImportOperatorOutcome : Type := {
  import_result : operator_result;
  import_reports : list (report_type * report_message);
  import_object : option Object;
  import_console : list event
}.

Module ExportSkinWeights.

(** [ExportSkinWeights.execute]; [context.object] is the object the core
    function reads as [bpy.context.object]. *)
Definition execute (filepath : string) (context_object : option Object)
    (files : gmap string node) : ExportOperatorOutcome :=
  let cancelled m := {| export_result := CANCELLED; export_reports := [(ERROR, m)];
                        export_files := files; export_console := [] |} in
  match context_object with
  | None => cancelled NoValidMeshSelected
  | Some obj =>
      if negb (String.eqb (type obj) "MESH") then cancelled NoValidMeshSelected
      else
        match filepath with
        | EmptyString => cancelled NoFileSelected
        | String _ _ =>
            let out := export_skin_weights filepath context_object files in
            match export_raised out with
            | None =>
                {| export_result := FINISHED;
                   export_reports := [(INFO, ExportedSuccessfully)];
                   export_files := files_after out;
                   export_console := export_events out |}
            | Some e =>
                {| export_result := CANCELLED;
                   export_reports := [(ERROR, ExportFailed e)];
                   export_files := files_after out;
                   export_console := export_events out |}
            end
        end
  end.

End ExportSkinWeights.

Module ImportSkinWeights.

(** [ImportSkinWeights.execute] *)
Definition execute (kd_find : kd_points → Vector3 → option (Vector3 * nat))
    (filepath mapping_mode : string) (context_object : option Object)
    (load : string → string + Document) : ImportOperatorOutcome :=
  let cancelled m := {| import_result := CANCELLED; import_reports := [(ERROR, m)];
                        import_object := context_object; import_console := [] |} in
  match context_object with
  | None => cancelled NoValidMeshSelected
  | Some obj =>
      if negb (String.eqb (type obj) "MESH") then cancelled NoValidMeshSelected
      else
        match filepath with
        | EmptyString => cancelled NoFileSelected
        | String _ _ =>
            let out := import_skin_weights kd_find filepath mapping_mode
                         context_object load in
            match import_raised out with
            | None =>
                {| import_result := FINISHED;
                   import_reports := [(INFO, ImportedSuccessfully)];
                   import_object := object_after out;
                   import_console := import_events out |}
            | Some e =>
                {| import_result := CANCELLED;
                   import_reports := [(ERROR, ImportFailedWith e)];
                   import_object := object_after out;
                   import_console := import_events out |}
            end
        end
  end.

End ImportSkinWeights.

(** ** The vertex loop of the importer, seen from the groups *)

(** The record the loop body selects for a vertex: [None] when the vertex
    is skipped before a record is read. *)
Definition matched_record (kd_find : kd_points → Vector3 → option (Vector3 * nat))
    (mapping_mode : string) (old_tree : kd_points) (vertices_data : list VertexData)
    (obj : Object) (vert : MeshVertex) : result (option VertexData) :=
  if String.eqb mapping_mode "POSITION" then
    match kd_find old_tree (co vert) with
    | Some (_, i) => r ← py_getitem vertices_data (Z.of_nat i); Return (Some r)
    | None => Raise TypeError
    end
  else if String.eqb mapping_mode "UV" then
    i ← find_closest_uv_match obj vert vertices_data;
    if (i =? -1)%Z then Return None
    else r ← py_getitem vertices_data i; Return (Some r)
  else Return None.

(** The items the loop body applies for a vertex. *)
Definition vertex_items (kd_find : kd_points → Vector3 → option (Vector3 * nat))
    (mapping_mode : string) (old_tree : kd_points) (vertices_data : list VertexData)
    (obj : Object) (vert : MeshVertex) : result (dict float) :=
  r ← matched_record kd_find mapping_mode old_tree vertices_data obj vert;
  Return (match r with Some r => record_items r | None => [] end).

(** The vertex loop as a function on the groups, given the items of each
    vertex. *)
Fixpoint loop_groups (items_of : MeshVertex → result (dict float))
    (vs : list MeshVertex) (groups : list VertexGroup)
  : list VertexGroup * option exn :=
  match vs with
  | [] => (groups, None)
  | vert :: rest =>
      match items_of vert with
      | Return items =>
          loop_groups items_of rest (fold_left (apply_weight (index vert)) items groups)
      | Raise e => (groups, Some e)
      end
  end.

(** [groups'] keeps every group of [groups] at its place and under its
    name, with every vertex that was assigned still assigned. *)
Definition groups_extend (groups groups' : list VertexGroup) : Prop :=
  ∀ k g, groups !! k = Some g →
    ∃ g', groups' !! k = Some g' ∧ name g' = name g ∧
          ∀ vi, is_Some (members g !! vi) → is_Some (members g' !! vi).

(** The keys of every record's ["weights"] are distinct, as the keys of a
    parsed JSON object are. *)
Definition distinct_keys (vertices_data : list VertexData) : Prop :=
  ∀ r, r ∈ vertices_data → NoDup (record_items r).*1.

Definition erase_co (r : VertexData) : VertexData :=
  {| d_co := None; d_uv := d_uv r; d_weights := d_weights r |}.

Definition erase_uv (r : VertexData) : VertexData :=
  {| d_co := d_co r; d_uv := None; d_weights := d_weights r |}.

(** Two lists of floats with equal components. *)
Definition same_floats (a b : list float) : Prop := Forall2 Qeq a b.

(** No two vertices of the object share an averaged UV (the origin
    standing for a vertex without UV). *)
Definition unique_uvs (obj : Object) : Prop :=
  ∀ i j v w ti tj,
    vertices (data obj) !! i = Some v → vertices (data obj) !! j = Some w →
    get_uv_coords obj (index v) = Return ti → get_uv_coords obj (index w) = Return tj →
    same_floats (or_default ti) (or_default tj) → i = j.


(** A loaded document with [f] applied to every record. *)
Definition map_records (f : VertexData → VertexData) (loaded : string + Document)
  : string + Document :=
  match loaded with
  | inl e => inl e
  | inr doc =>
      inr {| d_vertices := match d_vertices doc with
                           | Some vertices_data => Some (f <$> vertices_data)
                           | None => None
                           end |}
  end.


(** [demo_object] without UV layer and without groups. *)
Definition demo_object_no_uv : Object :=
  {| type := "MESH";
     data := {| vertices := vertices demo_mesh; loops := loops demo_mesh;
                uv_layers_active := None |};
     vertex_groups := [] |}.


(** ** Counting what the exporter shows *)

(** A line ["Exporting... x% done"]. *)
Definition is_log_line (e : event) : bool :=
  match e with
  | print (Exporting _ _) => true
  | _ => false
  end.

(** A call of [wm.progress_update]. *)
Definition is_progress_update (e : event) : bool :=
  match e with
  | progress_update _ => true
  | _ => false
  end.

Fixpoint count_events (f : event → bool) (events : list event) : nat :=
  match events with
  | [] => 0
  | e :: rest => (if f e then 1 else 0) + count_events f rest
  end.

(** The number of [j] with [i <= j < i + n] and [j mod k = 0]. *)
Fixpoint multiples (k i n : nat) : nat :=
  match n with
  | 0 => 0
  | S n' => (if Nat.eqb (i mod k) 0 then 1 else 0) + multiples k (S i) n'
  end.


(** ** The UV of a vertex and the range of the floats *)

(** The UV a vertex is exported with and matched by: the component-wise
    arithmetic mean of the UV pairs of the loops at that vertex, and the
    origin when the mesh has no UV layer or no loop is at the vertex. *)
Definition vertex_uv (obj : Object) (vert_index : nat) : Vector2 :=
  match uv_layers_active (data obj) with
  | Some uv_data =>
      match matching_uvs uv_data (loops (data obj)) vert_index with
      | [] => (0, 0)%Q
      | uv :: uvs =>
          (arithmetic_mean (fst <$> uv :: uvs), arithmetic_mean (snd <$> uv :: uvs))
      end
  | None => (0, 0)%Q
  end.

(** The vertex has no UV: there is no UV layer, or no loop at the vertex. *)
Definition without_uv (obj : Object) (vert_index : nat) : Prop :=
  ∀ uv_data, uv_layers_active (data obj) = Some uv_data →
             matching_uvs uv_data (loops (data obj)) vert_index = [].

(** Two UVs with equal components. *)
Definition same_uv_2d (a b : Vector2) : Prop := (a.1 == b.1 ∧ a.2 == b.2)%Q.

(** The squared distance of every record's UV from [target] is a double:
    it does not exceed the largest one. *)
Definition distances_in_range (target : Vector2) (source_data : list VertexData) : Prop :=
  ∀ r, r ∈ source_data → (sq_dist_2d target (record_uv_2d r) <= float_max)%Q.

(** The largest single-precision float, [(2 - 2 ** -23) * 2 ** 127]. *)
Definition float32_max : float := inject_Z (2 ^ 128 - 2 ^ 104).

(** The UV layer holds single-precision floats, as the host stores them. *)
Definition float32_uvs (m : Mesh) : Prop :=
  ∀ uv_data uv, uv_layers_active m = Some uv_data → uv ∈ uv_data →
    (- float32_max <= uv.1 <= float32_max ∧ - float32_max <= uv.2 <= float32_max)%Q.

(** * Verification *)

Local Open Scope Q_scope.

(** ** Rational arithmetic *)

Lemma Qlt_bool_true (x y : Q) : QMicromega.Qlt_bool x y = true ↔ x < y.
Proof. apply QMicromega.Qlt_bool_iff. Qed.

Lemma Qlt_bool_false (x y : Q) : QMicromega.Qlt_bool x y = false ↔ y <= x.
Proof.
  rewrite <- not_true_iff_false, Qlt_bool_true.
  split; [apply Qnot_lt_le | apply Qle_not_lt].
Qed.

Lemma float_gt0_true (x : Q) : float_gt0 x = true ↔ 0 < x.
Proof. apply Qlt_bool_true. Qed.

Lemma fold_left_Qplus_acc (xs : list Q) (a : Q) :
  fold_left Qplus xs a == a + fold_right Qplus 0 xs.
Proof.
  revert a. induction xs as [|x xs IH]; intros a; simpl.
  - ring.
  - rewrite IH. ring.
Qed.

Lemma py_sum_fold_right (xs : list Q) : py_sum xs == fold_right Qplus 0 xs.
Proof. unfold py_sum. rewrite fold_left_Qplus_acc. ring. Qed.

Lemma py_len_succ {A : Type} (x : A) (xs : list A) : py_len (x :: xs) == 1 + py_len xs.
Proof.
  unfold py_len. cbn [length]. rewrite Nat2Z.inj_succ, <- Z.add_1_l, inject_Z_plus.
  reflexivity.
Qed.

Lemma py_len_pos {A : Type} (x : A) (xs : list A) : 0 < py_len (x :: xs).
Proof.
  unfold py_len. change 0 with (inject_Z 0). rewrite <- Zlt_Qlt. cbn [length]. lia.
Qed.

Lemma sum_between (lo hi : Q) (xs : list Q) :
  Forall (fun x => lo <= x ∧ x <= hi) xs →
  py_len xs * lo <= fold_right Qplus 0 xs ∧ fold_right Qplus 0 xs <= py_len xs * hi.
Proof.
  induction 1 as [|x xs [Hlo Hhi] _ [IHlo IHhi]].
  - unfold py_len. cbn [length fold_right]. change (inject_Z (Z.of_nat 0)) with 0.
    split; lra.
  - rewrite py_len_succ. cbn [fold_right]. split; lra.
Qed.

Lemma mean_between {A : Type} (lo hi : Q) (xs : list Q) (ys : list A) :
  xs ≠ [] → length ys = length xs →
  Forall (fun y => lo <= y ∧ y <= hi) xs →
  lo <= py_sum xs / py_len ys ∧ py_sum xs / py_len ys <= hi.
Proof.
  intros Hne Hlen [Hlo Hhi]%sum_between. rewrite py_sum_fold_right.
  assert (Hys : py_len ys = py_len xs) by (unfold py_len; by rewrite Hlen).
  rewrite Hys. destruct xs as [|x xs]; [done|].
  pose proof (py_len_pos x xs) as Hpos. split.
  - apply Qle_shift_div_l; [done|]. by rewrite Qmult_comm.
  - apply Qle_shift_div_r; [done|]. by rewrite Qmult_comm.
Qed.

(** ** [get_uv_coords] *)

Lemma collect_uvs_matching (uv_data : list Vector2) (ls : list MeshLoop) (k : nat) :
  Forall (fun l => vertex_index l = k → (loop_index l < length uv_data)%nat) ls →
  collect_uvs uv_data ls k = Return (matching_uvs uv_data ls k).
Proof.
  unfold matching_uvs. induction 1 as [|l ls Hl _ IH]; [done|].
  cbn [collect_uvs]. rewrite filter_cons.
  destruct (Nat.eqb_spec (vertex_index l) k) as [Hk|Hk].
  - rewrite decide_True by done. cbn [omap list_omap].
    destruct (lookup_lt_is_Some_2 uv_data (loop_index l) (Hl Hk)) as [uv Huv].
    rewrite Huv, IH. reflexivity.
  - rewrite decide_False by done. exact IH.
Qed.

Lemma get_uv_coords_no_layer (obj : Object) (k : nat) :
  uv_layers_active (data obj) = None → get_uv_coords obj k = Return None.
Proof. unfold get_uv_coords. by intros ->. Qed.

Lemma get_uv_coords_layer (obj : Object) (k : nat) (uv_data : list Vector2) :
  uv_layers_active (data obj) = Some uv_data →
  Forall (fun l => vertex_index l = k → (loop_index l < length uv_data)%nat)
         (loops (data obj)) →
  get_uv_coords obj k =
    Return (match matching_uvs uv_data (loops (data obj)) k with
            | [] => None
            | uv :: uvs =>
                Some [py_sum (fst <$> uv :: uvs) / py_len (uv :: uvs);
                      py_sum (snd <$> uv :: uvs) / py_len (uv :: uvs)]
            end).
Proof.
  intros Hlayer Hrange. unfold get_uv_coords. rewrite Hlayer.
  rewrite (collect_uvs_matching _ _ _ Hrange). cbn [mbind result_bind].
  by destruct (matching_uvs _ _ _).
Qed.

(** Whatever it returns, the result is absent or has exactly two components. *)
Lemma get_uv_coords_shape (obj : Object) (k : nat) (t : option (list float)) :
  get_uv_coords obj k = Return t → t = None ∨ ∃ u v, t = Some [u; v].
Proof.
  unfold get_uv_coords. destruct (uv_layers_active _) as [uv_data|]; [|naive_solver].
  destruct (collect_uvs _ _ _) as [[|uv uvs]|]; cbn; [naive_solver| |done].
  intros [= <-]. right. eauto.
Qed.

Lemma collect_uvs_Return (uv_data : list Vector2) (ls : list MeshLoop) (k : nat)
    (uvs : list Vector2) :
  collect_uvs uv_data ls k = Return uvs → uvs = matching_uvs uv_data ls k.
Proof.
  unfold matching_uvs. revert uvs. induction ls as [|l ls IH]; intros uvs.
  { by intros [= <-]. }
  cbn [collect_uvs]. rewrite filter_cons.
  destruct (Nat.eqb_spec (vertex_index l) k) as [Hk|Hk].
  - rewrite decide_True by done. cbn [omap list_omap].
    destruct (uv_data !! loop_index l) as [uv|]; [|done].
    destruct (collect_uvs uv_data ls k) as [uvs'|]; [|done].
    cbn. intros [= <-]. by rewrite <- (IH uvs').
  - rewrite decide_False by done. apply IH.
Qed.

(** What [get_uv_coords] returns is the UV of the vertex, and [None] for a
    vertex without UV. *)
Lemma get_uv_coords_vertex_uv (obj : Object) (k : nat) (t : option (list float)) :
  get_uv_coords obj k = Return t →
  ∃ u v, or_default t = [u; v] ∧ target_or_origin t = [u; v] ∧
         same_uv_2d (u, v) (vertex_uv obj k) ∧
         (without_uv obj k → u = 0 ∧ v = 0).
Proof.
  unfold get_uv_coords, vertex_uv, without_uv.
  destruct (uv_layers_active (data obj)) as [uv_data|].
  - destruct (collect_uvs uv_data (loops (data obj)) k) as [uvs|] eqn:Huvs; [|done].
    apply collect_uvs_Return in Huvs as ->.
    destruct (matching_uvs uv_data (loops (data obj)) k) as [|uv uvs] eqn:Hm.
    + intros [= <-]. exists 0, 0. repeat split; reflexivity.
    + cbn [mbind result_bind]. intros [= <-]. eexists _, _.
      split; [reflexivity|]. split; [reflexivity|]. split.
      * unfold same_uv_2d, arithmetic_mean, py_len. cbn [fst snd].
        rewrite !py_sum_fold_right, !length_fmap. split; reflexivity.
      * intros Hnone. specialize (Hnone uv_data eq_refl). congruence.
  - intros [= <-]. exists 0, 0. repeat split; reflexivity.
Qed.

(** C3: for every vertex index and every collection of UV-loop entries,
    [get_uv_coords] returns the component-wise arithmetic mean of the UV
    pairs of exactly the loop entries whose vertex index matches, and [None]
    when there is no UV layer or no entry matches; for the matching values
    [(0,0), (1,1)] it returns [(1/2, 1/2)].  The function is pure: its
    result is a value computed from the object, and no state is returned. *)
Theorem get_uv_coords_mean (obj : Object) (vert_index : nat) :
  (uv_layers_active (data obj) = None → get_uv_coords obj vert_index = Return None) ∧
  (∀ uv_data,
     uv_layers_active (data obj) = Some uv_data →
     Forall (fun l => vertex_index l = vert_index → (loop_index l < length uv_data)%nat)
            (loops (data obj)) →
     let uvs := matching_uvs uv_data (loops (data obj)) vert_index in
     (uvs = [] → get_uv_coords obj vert_index = Return None) ∧
     (uvs ≠ [] →
        ∃ u v, get_uv_coords obj vert_index = Return (Some [u; v]) ∧
               u == arithmetic_mean (fst <$> uvs) ∧
               v == arithmetic_mean (snd <$> uvs)) ∧
     (uvs = [(0, 0); (1, 1)] →
        get_uv_coords obj vert_index = Return (Some [1 # 2; 1 # 2]))).
Proof.
  split; [apply get_uv_coords_no_layer|].
  intros uv_data Hlayer Hrange uvs.
  pose proof (get_uv_coords_layer obj vert_index uv_data Hlayer Hrange) as Hget.
  fold uvs in Hget. repeat split.
  - intros Hnil. by rewrite Hget, Hnil.
  - intros Hne. destruct uvs as [|uv uvs']; [done|].
    eexists _, _. split; [exact Hget|].
    unfold arithmetic_mean, py_len. rewrite !py_sum_fold_right, !length_fmap.
    split; reflexivity.
  - intros Huvs. by rewrite Hget, Huvs.
Qed.

(** The hypotheses of C3 hold of a mesh with one vertex on a UV seam. *)
Lemma get_uv_coords_mean_witness :
  get_uv_coords
    {| type := "MESH";
       data := {| vertices := [{| index := 0; co := (0, 0, 0) |}];
                  loops := [{| loop_index := 0; vertex_index := 0 |};
                            {| loop_index := 1; vertex_index := 0 |}];
                  uv_layers_active := Some [(0, 0); (1, 1)] |};
       vertex_groups := [] |} 0 = Return (Some [1 # 2; 1 # 2]).
Proof.
  eapply (proj2 (get_uv_coords_mean _ 0%nat)); [reflexivity| |reflexivity].
  repeat constructor; simpl; lia.
Defined.

(** ** Dictionaries *)

Lemma dict_set_fresh {V : Type} (d : dict V) (k : string) (v : V) :
  k ∉ d.*1 → dict_set d k v = d ++ [(k, v)].
Proof.
  induction d as [|[k' v'] d IH]; [done|].
  cbn. intros Hk. apply not_elem_of_cons in Hk as [Hne Hk].
  destruct (String.eqb_spec k' k) as [->|_]; [done|]. by rewrite IH.
Qed.

Lemma dict_set_elem_of {V : Type} (d : dict V) (k : string) (v : V) (kv : string * V) :
  kv ∈ dict_set d k v → kv = (k, v) ∨ kv ∈ d.
Proof.
  induction d as [|[k' v'] d IH]; cbn.
  - rewrite list_elem_of_singleton. by left.
  - destruct (String.eqb_spec k' k) as [->|_]; rewrite !elem_of_cons; naive_solver.
Qed.

Lemma dict_set_keys {V : Type} (d : dict V) (k : string) (v : V) :
  (dict_set d k v).*1 = if decide (k ∈ d.*1) then d.*1 else d.*1 ++ [k].
Proof.
  induction d as [|[k' v'] d IH]; cbn.
  - rewrite decide_False; [done|]. by intros ?%elem_of_nil.
  - destruct (String.eqb_spec k' k) as [->|Hne]; cbn.
    + rewrite decide_True; [done|left].
    + rewrite IH. destruct (decide (k ∈ d.*1)) as [Hin|Hnin].
      * rewrite decide_True; [done|by right].
      * rewrite decide_False; [done|]. intros [?|?]%elem_of_cons; congruence.
Qed.

Lemma dict_set_NoDup {V : Type} (d : dict V) (k : string) (v : V) :
  NoDup d.*1 → NoDup (dict_set d k v).*1.
Proof.
  intros Hnd. rewrite dict_set_keys. case_decide as Hk; [done|].
  apply NoDup_app. split; [done|]. split; [|apply NoDup_singleton].
  intros x Hx ->%list_elem_of_singleton. done.
Qed.

Lemma dict_set_key_elem {V : Type} (d : dict V) (k k' : string) (v : V) :
  k' ∈ (dict_set d k v).*1 ↔ k' = k ∨ k' ∈ d.*1.
Proof.
  rewrite dict_set_keys. case_decide as Hk.
  - split; [by right|]. by intros [->|?].
  - rewrite elem_of_app, list_elem_of_singleton. tauto.
Qed.

(** ** The exported record of a vertex *)

Lemma group_weight_cases (g : VertexGroup) (i : nat) :
  (∃ w, members g !! i = Some w ∧ group_weight g i = Return w) ∨
  (members g !! i = None ∧ group_weight g i = Raise RuntimeError).
Proof. unfold group_weight. destruct (members g !! i); eauto. Qed.

Lemma collect_weights_total (groups : list VertexGroup) (vi : nat) (acc : dict float) :
  ∃ ws, collect_weights groups vi acc = Return ws ∧
        ∀ kv, kv ∈ ws → kv ∈ acc ∨ ∃ g, g ∈ groups ∧ group_entry vi g = Some kv.
Proof.
  revert acc. induction groups as [|g groups IH]; intros acc; cbn [collect_weights].
  - exists acc. eauto.
  - destruct (group_weight_cases g vi) as [(w & Hw & ->)|[Hw ->]].
    + destruct (IH (if float_gt0 w then dict_set acc (name g) w else acc))
        as (ws & -> & Hws).
      exists ws. split; [done|]. intros kv Hkv.
      destruct (Hws kv Hkv) as [Hacc|(g' & Hg' & He)].
      * destruct (float_gt0 w) eqn:Hpos; [|by left].
        apply dict_set_elem_of in Hacc as [->|?]; [|by left].
        right. exists g. split; [left|]. unfold group_entry. by rewrite Hw, Hpos.
      * right. exists g'. split; [by right|done].
    + destruct (IH acc) as (ws & -> & Hws). exists ws. split; [done|].
      intros kv Hkv. destruct (Hws kv Hkv) as [?|(g' & Hg' & He)]; [by left|].
      right. exists g'. split; [by right|done].
Qed.

Lemma group_entry_Some (vi : nat) (g : VertexGroup) (nm : string) (w : Q) :
  group_entry vi g = Some (nm, w) ↔ name g = nm ∧ members g !! vi = Some w ∧ 0 < w.
Proof.
  unfold group_entry. destruct (members g !! vi) as [w'|]; [|naive_solver].
  destruct (float_gt0 w') eqn:Hpos.
  - apply float_gt0_true in Hpos. naive_solver.
  - split; [done|]. intros (_ & [= ->] & Hw). apply float_gt0_true in Hw. congruence.
Qed.

(** With group names that are pairwise distinct the dictionary lists the
    positive weights in group order. *)
Lemma collect_weights_omap (groups : list VertexGroup) (vi : nat) (acc : dict float) :
  NoDup (name <$> groups) →
  (∀ g, g ∈ groups → name g ∉ acc.*1) →
  collect_weights groups vi acc = Return (acc ++ omap (group_entry vi) groups).
Proof.
  revert acc. induction groups as [|g groups IH]; intros acc Hnd Hfresh.
  - cbn. by rewrite app_nil_r.
  - rewrite fmap_cons in Hnd. apply NoDup_cons in Hnd as [Hg Hnd].
    cbn [collect_weights omap list_omap]. unfold group_entry at 1.
    destruct (group_weight_cases g vi) as [(w & Hw & ->)|[Hw ->]]; rewrite Hw.
    + destruct (float_gt0 w).
      * rewrite dict_set_fresh by (apply Hfresh; left).
        rewrite IH; [by rewrite <- app_assoc|done|].
        intros g' Hg'. rewrite fmap_app, elem_of_app. cbn.
        rewrite list_elem_of_singleton. intros [Hin|Heq].
        -- by apply (Hfresh g'); [right|].
        -- apply Hg. rewrite <- Heq. by apply list_elem_of_fmap_2.
      * apply IH; [done|]. intros g' Hg'. apply Hfresh. by right.
    + apply IH; [done|]. intros g' Hg'. apply Hfresh. by right.
Qed.

Lemma collect_weights_keys (groups : list VertexGroup) (vi : nat) :
  ∀ acc ws, collect_weights groups vi acc = Return ws → NoDup acc.*1 →
            NoDup ws.*1 ∧
            (∀ k, k ∈ acc.*1 → k ∈ ws.*1) ∧
            (∀ g w, g ∈ groups → members g !! vi = Some w → 0 < w → name g ∈ ws.*1).
Proof.
  induction groups as [|g groups IH]; intros acc ws; cbn [collect_weights].
  - intros [= <-] Hnd. split; [done|]. split; [done|]. by intros g w ?%elem_of_nil.
  - destruct (group_weight_cases g vi) as [(w & Hw & ->)|[Hw ->]].
    + destruct (float_gt0 w) eqn:Hpos.
      * intros Hws Hnd.
        destruct (IH _ _ Hws (dict_set_NoDup acc (name g) w Hnd)) as (Hnd' & Hacc & Hgs).
        split; [done|]. split.
        -- intros k Hk. apply Hacc, dict_set_key_elem. by right.
        -- intros g' w' [->|Hg']%elem_of_cons Hw' Hpos'; [|by eapply Hgs].
           apply Hacc, dict_set_key_elem. by left.
      * intros Hws Hnd. destruct (IH _ _ Hws Hnd) as (Hnd' & Hacc & Hgs).
        split; [done|]. split; [done|].
        intros g' w' [->|Hg']%elem_of_cons Hw' Hpos'; [|by eapply Hgs].
        apply float_gt0_true in Hpos'. congruence.
    + intros Hws Hnd. destruct (IH _ _ Hws Hnd) as (Hnd' & Hacc & Hgs).
      split; [done|]. split; [done|].
      intros g' w' [->|Hg']%elem_of_cons Hw' Hpos'; [congruence|by eapply Hgs].
Qed.

Lemma vertex_record_inv (obj : Object) (vert : MeshVertex) (v : VertexData) :
  vertex_record obj vert = Return v →
  ∃ t ws, get_uv_coords obj (index vert) = Return t ∧
          collect_weights (vertex_groups obj) (index vert) [] = Return ws ∧
          v = {| d_co := Some (list_of_vector3 (co vert));
                 d_uv := Some (Fin <$> or_default t);
                 d_weights := Some ws |}.
Proof.
  unfold vertex_record. destruct (get_uv_coords _ _) as [t|]; [|done].
  cbn [mbind result_bind]. destruct (collect_weights _ _ _) as [ws|]; [|done].
  cbn. intros [= <-]. eauto.
Qed.

Lemma vertex_record_ok (obj : Object) (vert : MeshVertex) (t : option (list float)) :
  get_uv_coords obj (index vert) = Return t →
  ∃ ws, collect_weights (vertex_groups obj) (index vert) [] = Return ws ∧
        vertex_record obj vert =
          Return {| d_co := Some (list_of_vector3 (co vert));
                    d_uv := Some (Fin <$> or_default t);
                    d_weights := Some ws |}.
Proof.
  intros Ht. destruct (collect_weights_total (vertex_groups obj) (index vert) [])
    as (ws & Hws & _).
  exists ws. split; [done|]. unfold vertex_record. by rewrite Ht; cbn; rewrite Hws.
Qed.

(** ** The written document *)

Lemma loop_chunks_join (total_verts : nat) (rs : list VertexData) (i : nat) :
  (i + length rs = total_verts)%nat → loop_chunks total_verts i rs = join_records rs.
Proof.
  revert i. induction rs as [|r rest IH]; intros i Hlen; [done|].
  cbn [loop_chunks join_records]. cbn [length] in Hlen.
  destruct rest as [|r' rest].
  - cbn [length] in Hlen.
    by replace (i <? total_verts - 1)%nat with false by (symmetry; apply Nat.ltb_ge; lia).
  - cbn [length] in Hlen.
    replace (i <? total_verts - 1)%nat with true by (symmetry; apply Nat.ltb_lt; lia).
    cbn [app]. do 2 f_equal. apply IH. cbn [length]. lia.
Qed.

Lemma parse_elements_join (rs : list VertexData) :
  rs ≠ [] → parse_elements (join_records rs ++ [Write doc_close]) = Some rs.
Proof.
  induction rs as [|r rest IH]; [done|]. intros _.
  destruct rest as [|r' rest]; [done|].
  change (join_records (r :: r' :: rest))
    with (JsonDump r :: Write doc_sep :: join_records (r' :: rest)).
  cbn [app parse_elements].
  replace (String.eqb doc_sep doc_sep) with true by done.
  by rewrite IH.
Qed.

Lemma json_load_document_text (rs : list VertexData) :
  json_load (document_text rs) = inr {| d_vertices := Some rs |}.
Proof.
  unfold document_text, json_load.
  replace (String.eqb doc_open doc_open) with true by done.
  destruct rs as [|r rest]; [done|].
  rewrite parse_elements_join by done.
  by destruct rest.
Qed.

Lemma emit_loop_event (c : bool) (e : event) (out : list event) :
  loop_event e → Forall loop_event out → Forall loop_event (emit c e out).
Proof.
  intros He Hout. unfold emit. destruct c; [|done].
  apply Forall_app. split; [done|]. by constructor.
Qed.

Lemma export_loop_inv (obj : Object) (total li ui : nat) (vs : list MeshVertex) :
  ∀ (i : nat) (st st' : ExportState) (oe : option exn),
    export_loop obj total li ui i vs st = (st', oe) →
    ∃ rs, written st' = written st ++ loop_chunks total i rs ∧
          Forall2 (fun v r => vertex_record obj v = Return r) (take (length rs) vs) rs ∧
          (oe = None → length rs = length vs) ∧
          (Forall loop_event (shown st) → Forall loop_event (shown st')).
Proof.
  induction vs as [|vert rest IH]; intros i st st' oe; cbn [export_loop].
  - intros [= <- <-]. exists []. by rewrite app_nil_r.
  - destruct (vertex_record obj vert) as [v|e] eqn:Hv.
    + intros (rs & Hw & Hrs & Hlen & Hev)%IH. cbn [written shown] in *.
      exists (v :: rs). split; [|split; [|split]].
      * rewrite Hw. cbn [loop_chunks].
        destruct (i <? total - 1)%nat; by rewrite <- !app_assoc.
      * cbn. by constructor.
      * intros Hoe. cbn. by rewrite Hlen.
      * intros Hst. apply Hev. by repeat apply emit_loop_event.
    + intros [= <- <-]. exists []. rewrite app_nil_r. split; [done|].
      split; [cbn; constructor|]. done.
Qed.

(** ** [export_skin_weights] *)

(** An export that is not turned away at one of the three guards opens the
    file: where that is refused it ends with [OSError] and the progress bar
    begun, and otherwise it runs the vertex loop on the freshly opened
    file. *)
Lemma export_skin_weights_run (filepath : string) (obj : Object)
    (files : gmap string node) :
  filepath ≠ EmptyString → type obj = "MESH" → vertices (data obj) ≠ [] →
  let total_verts := length (vertices (data obj)) in
  (files !! filepath = Some Refused ∧
   export_skin_weights filepath (Some obj) files =
     {| files_after := files; export_events := [progress_begin 0 total_verts];
        export_raised := Some OSError |}) ∨
  (files !! filepath ≠ Some Refused ∧
   ∃ st oe,
    export_loop obj total_verts (Nat.max 1 (total_verts / 10))
      (Nat.max 1 (total_verts / 1000)) 0 (vertices (data obj))
      {| written := [Write doc_open]; shown := [progress_begin 0 total_verts] |}
    = (st, oe) ∧
    export_skin_weights filepath (Some obj) files =
      match oe with
      | Some e => {| files_after := <[filepath := File (written st)]> files;
                     export_events := shown st;
                     export_raised := Some e |}
      | None => {| files_after :=
                     <[filepath := File (written st ++ [Write doc_close])]> files;
                   export_events := shown st ++ [progress_end; print ExportSuccessful];
                   export_raised := None |}
      end).
Proof.
  intros Hpath Htype Hverts total_verts. unfold export_skin_weights.
  destruct filepath as [|a filepath]; [done|]. rewrite Htype. cbn [String.eqb negb].
  replace (String.eqb "MESH" "MESH") with true by done. cbn [negb].
  fold total_verts.
  destruct (Nat.eqb_spec total_verts 0) as [H0|_].
  { apply length_zero_iff_nil in H0. done. }
  destruct (files !! String a filepath) as [[content|]|] eqn:Hnode; [right|by left|right];
    (split; [done|]);
    destruct (export_loop _ _ _ _ _ _ _) as [st [e|]]; eauto.
Qed.

(** Only an export that went through all three guards and the whole loop
    prints the success message. *)
Lemma export_successful_inv (filepath : string) (obj : Object)
    (files : gmap string node) :
  print ExportSuccessful ∈ export_events (export_skin_weights filepath (Some obj) files) →
  filepath ≠ EmptyString ∧ type obj = "MESH" ∧ vertices (data obj) ≠ [] ∧
  export_raised (export_skin_weights filepath (Some obj) files) = None.
Proof.
  intros Hin.
  assert (Habort : ∀ m, m ≠ ExportSuccessful → print ExportSuccessful ∉ [print m]).
  { intros m Hm [= ?]%list_elem_of_singleton. done. }
  destruct (decide (filepath = EmptyString)) as [->|Hpath].
  { by apply Habort in Hin. }
  destruct (String.eqb_spec (type obj) "MESH") as [Htype|Htype]; cycle 1.
  { unfold export_skin_weights in Hin. destruct filepath; [done|].
    apply String.eqb_neq in Htype. rewrite Htype in Hin. by apply Habort in Hin. }
  destruct (decide (vertices (data obj) = [])) as [Hnil|Hverts].
  { unfold export_skin_weights in Hin. destruct filepath; [done|].
    rewrite Htype, Hnil in Hin. by apply Habort in Hin. }
  repeat split; try done.
  destruct (export_skin_weights_run filepath obj files Hpath Htype Hverts)
    as [[_ Hout]|(_ & st & [e|] & Hloop & Hout)]; rewrite Hout in *; [|clear Hout|done].
  { by apply list_elem_of_singleton in Hin. }
  cbn in Hin. apply export_loop_inv in Hloop as (_ & _ & _ & _ & Hev).
  cbn in Hev. specialize (Hev ltac:(by repeat constructor)).
  rewrite Forall_forall in Hev. by apply Hev in Hin.
Qed.

Lemma elem_of_loop_chunks (total i : nat) (rs : list VertexData) (v : VertexData) :
  JsonDump v ∈ loop_chunks total i rs → v ∈ rs.
Proof.
  revert i. induction rs as [|r rest IH]; intros i; cbn [loop_chunks].
  - by intros ?%elem_of_nil.
  - rewrite elem_of_cons, elem_of_app. intros [[= ->]|[Hsep|Hrest]]; [left| |right; eauto].
    destruct (i <? total - 1)%nat; [|by apply elem_of_nil in Hsep].
    by apply list_elem_of_singleton in Hsep.
Qed.

Lemma vertex_record_weights (obj : Object) (vert : MeshVertex) (v : VertexData)
    (ws : dict float) (nm : string) (w : Q) :
  vertex_record obj vert = Return v → d_weights v = Some ws → (nm, w) ∈ ws →
  0 < w ∧ ∃ g, g ∈ vertex_groups obj ∧ name g = nm ∧ members g !! index vert = Some w.
Proof.
  intros (t & ws' & _ & Hws' & ->)%vertex_record_inv [= <-] Hin.
  destruct (collect_weights_total (vertex_groups obj) (index vert) [])
    as (ws'' & Hws'' & Hfrom).
  rewrite Hws' in Hws''. injection Hws'' as <-.
  destruct (Hfrom _ Hin) as [Hnil|(g & Hg & He)]; [by apply elem_of_nil in Hnil|].
  apply group_entry_Some in He as (Hn & Hm & Hpos). eauto.
Qed.

(** C2: whatever the exporter has written to its file, every weight in a
    dumped record is strictly positive, and it is the weight a vertex group
    of the mesh stores for a vertex of the mesh under that group's name: a
    weight that is zero, negative or unset is never serialised. *)
Theorem export_weights_positive (filepath : string) (obj : Object)
    (files : gmap string node) (content : list chunk) (v : VertexData)
    (ws : dict float) (group_name : string) (weight : Q) :
  filepath ≠ EmptyString → type obj = "MESH" → vertices (data obj) ≠ [] →
  files_after (export_skin_weights filepath (Some obj) files) !! filepath
    = Some (File content) →
  JsonDump v ∈ content → d_weights v = Some ws → (group_name, weight) ∈ ws →
  0 < weight ∧
  ∃ vert g, vert ∈ vertices (data obj) ∧ g ∈ vertex_groups obj ∧
            name g = group_name ∧ members g !! index vert = Some weight.
Proof.
  intros Hpath Htype Hverts Hfile Hv Hws Hin.
  destruct (export_skin_weights_run filepath obj files Hpath Htype Hverts)
    as [[Hrefused Hout]|(_ & st & oe & Hloop & Hout)].
  { rewrite Hout in Hfile. cbn [files_after] in Hfile. congruence. }
  apply export_loop_inv in Hloop as (rs & Hw & Hrs & _). cbn [written] in Hw.
  assert (Hv' : JsonDump v ∈ loop_chunks (length (vertices (data obj))) 0 rs).
  { rewrite Hout in Hfile.
    destruct oe; cbn [files_after] in Hfile; rewrite lookup_insert_eq in Hfile;
      injection Hfile as <-; rewrite Hw in Hv;
      repeat (apply elem_of_app in Hv as [Hv|Hv] || apply elem_of_cons in Hv as [Hv|Hv]);
      try done; by apply elem_of_nil in Hv. }
  apply elem_of_loop_chunks, list_elem_of_lookup in Hv' as [k Hk].
  destruct (Forall2_lookup_r _ _ _ _ _ Hrs Hk) as (vert & Hvert & Hrec).
  apply lookup_take_Some in Hvert as [Hvert _].
  destruct (vertex_record_weights obj vert v ws group_name weight Hrec Hws Hin)
    as (Hpos & g & Hg & Hn & Hm).
  split; [done|]. exists vert, g. repeat split; try done.
  by eapply list_elem_of_lookup_2.
Qed.

(** The hypotheses of C2 hold of the export of [demo_object]. *)
Lemma export_weights_positive_witness :
  0 < 3 # 10 ∧
  ∃ vert g, vert ∈ vertices (data demo_object) ∧ g ∈ vertex_groups demo_object ∧
            name g = "Arm" ∧ members g !! index vert = Some (3 # 10).
Proof.
  eapply (export_weights_positive "w.json" demo_object ∅ _ _ _ "Arm" (3 # 10)).
  - done.
  - reflexivity.
  - done.
  - vm_compute. reflexivity.
  - apply list_elem_of_further, list_elem_of_here.
  - reflexivity.
  - apply list_elem_of_here.
Defined.

Lemma export_successful_records (filepath : string) (obj : Object)
    (files : gmap string node) :
  print ExportSuccessful ∈ export_events (export_skin_weights filepath (Some obj) files) →
  ∃ rs, Forall2 (fun v r => vertex_record obj v = Return r) (vertices (data obj)) rs ∧
        files_after (export_skin_weights filepath (Some obj) files)
          = <[filepath := File (document_text rs)]> files.
Proof.
  intros (Hpath & Htype & Hverts & Hraised)%export_successful_inv.
  destruct (export_skin_weights_run filepath obj files Hpath Htype Hverts)
    as [[_ Hout]|(_ & st & oe & Hloop & Hout)].
  { by rewrite Hout in Hraised. }
  rewrite Hout in Hraised |- *. destruct oe as [e|]; [done|]. clear Hraised Hout.
  apply export_loop_inv in Hloop as (rs & Hw & Hrs & Hlen & _).
  specialize (Hlen eq_refl). rewrite Hlen, firstn_all in Hrs.
  exists rs. split; [done|]. cbn [files_after written] in *.
  rewrite Hw, loop_chunks_join by (cbn; lia). done.
Qed.

Lemma get_uv_coords_total (obj : Object) (k : nat) :
  loops_in_range (data obj) → ∃ t, get_uv_coords obj k = Return t.
Proof.
  intros Hrange. destruct (uv_layers_active (data obj)) as [uv_data|] eqn:Hlayer.
  - eexists. apply (get_uv_coords_layer _ _ uv_data Hlayer).
    eapply Forall_impl; [by apply Hrange|]. naive_solver.
  - exists None. by apply get_uv_coords_no_layer.
Qed.

Lemma vertex_record_total (obj : Object) (vert : MeshVertex) :
  loops_in_range (data obj) → ∃ r, vertex_record obj vert = Return r.
Proof.
  intros [t Ht]%(get_uv_coords_total obj (index vert)).
  destruct (vertex_record_ok _ _ _ Ht) as (ws & _ & ->). eauto.
Qed.

Lemma export_loop_total (obj : Object) (total li ui : nat) (vs : list MeshVertex) :
  loops_in_range (data obj) →
  ∀ i st, ∃ st', export_loop obj total li ui i vs st = (st', None).
Proof.
  intros Hrange. induction vs as [|vert rest IH]; intros i st; cbn [export_loop]; [eauto|].
  destruct (vertex_record_total obj vert Hrange) as [r ->]. apply IH.
Qed.

(** On a mesh whose loops all have their UV entry the export succeeds,
    unless the file cannot be opened. *)
Lemma export_succeeds (filepath : string) (obj : Object)
    (files : gmap string node) :
  filepath ≠ EmptyString → type obj = "MESH" → vertices (data obj) ≠ [] →
  loops_in_range (data obj) → files !! filepath ≠ Some Refused →
  print ExportSuccessful ∈ export_events (export_skin_weights filepath (Some obj) files).
Proof.
  intros Hpath Htype Hverts Hrange Hopen.
  destruct (export_skin_weights_run filepath obj files Hpath Htype Hverts)
    as [[Hrefused _]|(_ & st & oe & Hloop & ->)]; [done|].
  destruct (export_loop_total obj (length (vertices (data obj)))
              (Nat.max 1 (length (vertices (data obj)) / 10))
              (Nat.max 1 (length (vertices (data obj)) / 1000))
              (vertices (data obj)) Hrange 0%nat
              {| written := [Write doc_open];
                 shown := [progress_begin 0 (length (vertices (data obj)))] |})
    as [st' Hst'].
  rewrite Hst' in Hloop. injection Hloop as <- <-. cbn.
  rewrite elem_of_app. right. apply list_elem_of_further, list_elem_of_here.
Qed.

(** The record of a vertex, member by member. *)
Lemma vertex_record_members (obj : Object) (vert : MeshVertex) (r : VertexData) :
  vertex_record obj vert = Return r →
  ∃ x y z u v ws,
    r = {| d_co := Some [x; y; z]; d_uv := Some [Fin u; Fin v]; d_weights := Some ws |} ∧
    co vert = (x, y, z) ∧
    same_uv_2d (u, v) (vertex_uv obj (index vert)) ∧
    (without_uv obj (index vert) → u = 0 ∧ v = 0) ∧
    NoDup ws.*1 ∧
    (∀ group_name weight,
       (group_name, weight) ∈ ws →
       0 < weight ∧
       ∃ g, g ∈ vertex_groups obj ∧ name g = group_name ∧
            members g !! index vert = Some weight) ∧
    (∀ g weight,
       g ∈ vertex_groups obj → members g !! index vert = Some weight → 0 < weight →
       name g ∈ ws.*1 ∧
       (NoDup (name <$> vertex_groups obj) → (name g, weight) ∈ ws)).
Proof.
  intros Hrec. pose proof (vertex_record_inv _ _ _ Hrec) as (t & ws & Ht & Hws & ->).
  destruct (co vert) as [[x y] z] eqn:Hco.
  destruct (get_uv_coords_vertex_uv _ _ _ Ht) as (u & v & Hdef & _ & Hsame & Hnone).
  exists x, y, z, u, v, ws. rewrite Hdef. split; [done|]. split; [done|].
  split; [done|]. split; [done|].
  destruct (collect_weights_keys _ _ _ _ Hws) as (Hnd & _ & Hall); [constructor|].
  split; [done|]. split.
  - intros nm w Hin. by eapply (vertex_record_weights obj vert).
  - intros g w Hg Hw Hpos. split; [by eapply Hall|].
    intros Hnames. rewrite collect_weights_omap in Hws; [|done|by intros g' _ ?%elem_of_nil].
    injection Hws as <-. apply list_elem_of_omap. exists g. split; [done|].
    by apply group_entry_Some.
Qed.

(** C8: a successful export of a mesh writes one object whose single member
    ["vertices"] is an array with one record per vertex, in the order of the
    mesh's vertices ([N >= 1] of them).  Record [i] holds, under ["co"], the
    three coordinates of vertex [i]; under ["uv"], two floats that are the
    component-wise mean of the UV pairs of the loops at the vertex, and
    exactly [[0, 0]] when the vertex has no UV; under ["weights"], a mapping
    with distinct keys in which every entry is a strictly positive weight
    that a group of that name stores for the vertex, and in which every
    group that stores a strictly positive weight for the vertex has its
    name, with that weight when the group names are distinct. *)
Theorem export_document_shape (filepath : string) (obj : Object)
    (files : gmap string node) :
  let out := export_skin_weights filepath (Some obj) files in
  print ExportSuccessful ∈ export_events out →
  (1 <= length (vertices (data obj)))%nat ∧
  ∃ records,
    files_after out !! filepath = Some (File (document_text records)) ∧
    json_load (document_text records) = inr {| d_vertices := Some records |} ∧
    length records = length (vertices (data obj)) ∧
    ∀ i vert, vertices (data obj) !! i = Some vert →
      ∃ x y z u v ws,
        records !! i = Some {| d_co := Some [x; y; z];
                               d_uv := Some [Fin u; Fin v];
                               d_weights := Some ws |} ∧
        co vert = (x, y, z) ∧
        same_uv_2d (u, v) (vertex_uv obj (index vert)) ∧
        (without_uv obj (index vert) → u = 0 ∧ v = 0) ∧
        NoDup ws.*1 ∧
        (∀ group_name weight,
           (group_name, weight) ∈ ws →
           0 < weight ∧
           ∃ g, g ∈ vertex_groups obj ∧ name g = group_name ∧
                members g !! index vert = Some weight) ∧
        (∀ g weight,
           g ∈ vertex_groups obj → members g !! index vert = Some weight → 0 < weight →
           name g ∈ ws.*1 ∧
           (NoDup (name <$> vertex_groups obj) → (name g, weight) ∈ ws)).
Proof.
  intros out Hok.
  pose proof (export_successful_inv _ _ _ Hok) as (_ & _ & Hverts & _).
  destruct (export_successful_records _ _ _ Hok) as (rs & Hrs & Hfiles).
  split.
  { destruct (vertices (data obj)); [done|cbn; lia]. }
  exists rs. subst out. rewrite Hfiles, lookup_insert_eq.
  split; [done|]. split; [apply json_load_document_text|].
  split; [symmetry; by eapply Forall2_length|].
  intros i vert Hvert.
  destruct (Forall2_lookup_l _ _ _ _ _ Hrs Hvert) as (r & Hr & Hrec).
  destruct (vertex_record_members _ _ _ Hrec)
    as (x & y & z & u & v & ws & -> & Hrest).
  by exists x, y, z, u, v, ws.
Qed.

(** The hypothesis of C8 holds of the export of [demo_object]: the three
    records are those of its vertices. *)
Lemma export_document_shape_witness :
  (1 <= length (vertices (data demo_object)))%nat ∧
  ∃ records,
    files_after (export_skin_weights "w.json" (Some demo_object) ∅) !! "w.json"
      = Some (File (document_text records)) ∧
    json_load (document_text records) = inr {| d_vertices := Some records |} ∧
    length records = length (vertices (data demo_object)) ∧
    ∀ i vert, vertices (data demo_object) !! i = Some vert →
      ∃ x y z u v ws,
        records !! i = Some {| d_co := Some [x; y; z];
                               d_uv := Some [Fin u; Fin v];
                               d_weights := Some ws |} ∧
        co vert = (x, y, z) ∧
        same_uv_2d (u, v) (vertex_uv demo_object (index vert)) ∧
        (without_uv demo_object (index vert) → u = 0 ∧ v = 0) ∧
        NoDup ws.*1 ∧
        (∀ group_name weight,
           (group_name, weight) ∈ ws →
           0 < weight ∧
           ∃ g, g ∈ vertex_groups demo_object ∧ name g = group_name ∧
                members g !! index vert = Some weight) ∧
        (∀ g weight,
           g ∈ vertex_groups demo_object → members g !! index vert = Some weight →
           0 < weight →
           name g ∈ ws.*1 ∧
           (NoDup (name <$> vertex_groups demo_object) → (name g, weight) ∈ ws)).
Proof.
  apply (export_document_shape "w.json" demo_object ∅).
  vm_compute. do 8 apply list_elem_of_further. apply list_elem_of_here.
Defined.

(** ** Floats read from a file *)

Lemma float_max_ge_1 : 1 <= float_max.
Proof. apply Qle_bool_imp_le. vm_compute. reflexivity. Qed.

Lemma float_round_Fin (x : Q) :
  - float_max <= x → x <= float_max → float_round x = Fin x.
Proof.
  intros Hlo Hhi. unfold float_round.
  rewrite (proj2 (Qlt_bool_false float_max x)) by done.
  by rewrite (proj2 (Qlt_bool_false x (- float_max))).
Qed.

Lemma Qsquare_nonneg (a : Q) : 0 <= a * a.
Proof. nra. Qed.

(** A number whose square is a double is one itself. *)
Lemma square_in_range (a : Q) : a * a <= float_max → - float_max <= a ∧ a <= float_max.
Proof.
  pose proof float_max_ge_1 as Hmax. intros Ha.
  assert (Hsq : ∀ b, 0 <= b → b * b <= float_max → b <= float_max).
  { intros b Hb Hbb. apply Qnot_lt_le. intros Hlt.
    assert (float_max * float_max < b * float_max).
    { apply Qmult_lt_compat_r; lra. }
    assert (float_max * b <= b * b).
    { apply Qmult_le_compat_r; lra. }
    assert (1 * float_max <= float_max * float_max).
    { apply Qmult_le_compat_r; lra. }
    lra. }
  destruct (Qlt_le_dec a 0) as [Hneg|Hpos].
  - split; [|lra].
    assert (- a <= float_max); [|lra].
    apply Hsq; [lra|]. assert (- a * - a == a * a) as -> by ring. done.
  - split; [lra|]. by apply Hsq.
Qed.

Lemma float_sqr_Fin (a : Q) :
  a * a <= float_max → float_sqr (Fin a) = Return (Fin (a * a)).
Proof.
  intros Ha. unfold float_sqr. change (a ^ 2) with (a * a).
  by rewrite (proj2 (Qlt_bool_false float_max (a * a))).
Qed.

Lemma lt_ext_Qeq (x y : Q) (m : float_ext) :
  x == y → lt_ext (Fin x) m = lt_ext (Fin y) m.
Proof.
  intros Hxy. destruct m as [z| | |]; try done. cbn.
  destruct (QMicromega.Qlt_bool x z) eqn:Hx, (QMicromega.Qlt_bool y z) eqn:Hy; try done.
  - apply Qlt_bool_true in Hx. apply Qlt_bool_false in Hy. lra.
  - apply Qlt_bool_false in Hx. apply Qlt_bool_true in Hy. lra.
Qed.

Lemma lt_ext_trans (x y : Q) (m : float_ext) :
  lt_ext (Fin x) m = true → y < x → lt_ext (Fin y) m = true.
Proof.
  destruct m as [z| | |]; try done. cbn. rewrite !Qlt_bool_true. intros Hx Hy.
  by apply Qlt_trans with x.
Qed.

Lemma lt_ext_false_lt (x y : Q) (m : float_ext) :
  lt_ext (Fin x) m = false → lt_ext (Fin y) m = true → y < x.
Proof.
  destruct m as [z| | |]; try done. cbn. rewrite Qlt_bool_true, Qlt_bool_false.
  intros Hx Hy. by apply Qlt_le_trans with z.
Qed.

Lemma lt_ext_Fin (x y : Q) : lt_ext (Fin y) (Fin x) = false ↔ x <= y.
Proof. apply Qlt_bool_false. Qed.

Lemma lt_ext_Fin_true (x y : Q) : lt_ext (Fin y) (Fin x) = true ↔ y < x.
Proof. apply Qlt_bool_true. Qed.

(** ** [find_closest_uv_match] *)

(** Between two UVs of finite floats whose squared distance is a double, the
    sum the matcher computes is that squared distance. *)
Lemma uv_dist_finite (u v u' v' : Q) :
  sq_dist_2d (u, v) (u', v') <= float_max →
  ∃ d, uv_dist [u; v] [Fin u'; Fin v'] = Return (Fin d) ∧
       d == sq_dist_2d (u, v) (u', v').
Proof.
  unfold sq_dist_2d. cbn [fst snd]. intros Hsum.
  pose proof float_max_ge_1 as Hmax.
  remember (u - u') as a eqn:Ha. remember (v - v') as b eqn:Hb.
  pose proof (Qsquare_nonneg a) as Haa. pose proof (Qsquare_nonneg b) as Hbb.
  assert (Ha' : a * a <= float_max) by lra.
  assert (Hb' : b * b <= float_max) by lra.
  destruct (square_in_range a Ha') as [Ha1 Ha2].
  destruct (square_in_range b Hb') as [Hb1 Hb2].
  exists (0 + a * a + b * b). split; [|ring].
  unfold uv_dist. cbn [zip zip_with sum_squares float_sub].
  rewrite <- Ha, <- Hb.
  rewrite (float_round_Fin a), (float_sqr_Fin a) by done. cbn [mbind result_bind float_add].
  rewrite (float_round_Fin (0 + a * a)) by lra.
  rewrite (float_round_Fin b), (float_sqr_Fin b) by done. cbn [mbind result_bind float_add].
  by rewrite (float_round_Fin (0 + a * a + b * b)) by lra.
Qed.

Lemma sq_dist_2d_same (a a' b b' : Vector2) :
  same_uv_2d a a' → same_uv_2d b b' → sq_dist_2d a b == sq_dist_2d a' b'.
Proof. unfold same_uv_2d, sq_dist_2d. intros [-> ->] [-> ->]. reflexivity. Qed.

Lemma sq_dist_2d_zero (a b : Vector2) : sq_dist_2d a b <= 0 → same_uv_2d a b.
Proof.
  unfold sq_dist_2d, same_uv_2d.
  remember (a.1 - b.1) as x eqn:Hx. remember (a.2 - b.2) as y eqn:Hy.
  pose proof (Qsquare_nonneg x) as Hxx. pose proof (Qsquare_nonneg y) as Hyy. intros Hsum.
  assert (x * x == 0 ∧ y * y == 0) as (Hx0 & Hy0) by (split; lra).
  apply Qmult_integral in Hx0, Hy0.
  assert (x == 0) as Hx' by tauto. assert (y == 0) as Hy' by tauto.
  rewrite Hx in Hx'. rewrite Hy in Hy'. split; lra.
Qed.

Lemma sq_dist_2d_self (a b : Vector2) : same_uv_2d a b → sq_dist_2d a b == 0.
Proof. unfold sq_dist_2d, same_uv_2d. intros [-> ->]. ring. Qed.

(** A record of a dataset with two-float UVs is scanned with those two
    floats, a record without UV with the origin. *)
Lemma get_uv_record_uv_2d (source_data : list VertexData) (r : VertexData) :
  uv_two_floats source_data → r ∈ source_data →
  get_uv r = [Fin (record_uv_2d r).1; Fin (record_uv_2d r).2].
Proof.
  intros Hwf Hr. unfold get_uv, record_uv_2d.
  destruct (d_uv r) as [uv|] eqn:Huv; [|done].
  by destruct (Hwf r uv Hr Huv) as (u & v & ->).
Qed.

Section Scan.

Variable t : list float.
Variable dq : VertexData → Q.

(** Over records whose distance is the finite [dq], the scan either keeps
    the index it started with, because no record improves on the running
    minimum, or returns the first position whose distance is below the
    running minimum and minimal among the records. *)
Lemma uv_scan_first_min (vs : list VertexData) :
  (∀ v, v ∈ vs → ∃ d, uv_dist t (get_uv v) = Return (Fin d) ∧ d == dq v) →
  ∀ (i : nat) (m : float_ext) (b : Z),
    (uv_scan t i vs m b = Return b ∧
     ∀ v, v ∈ vs → lt_ext (Fin (dq v)) m = false) ∨
    (∃ k v, vs !! k = Some v ∧ uv_scan t i vs m b = Return (Z.of_nat (i + k)) ∧
            lt_ext (Fin (dq v)) m = true ∧
            (∀ j v', vs !! j = Some v' → (j < k)%nat → dq v < dq v') ∧
            (∀ j v', vs !! j = Some v' → dq v <= dq v')).
Proof.
  induction vs as [|v0 rest IH]; intros Hfin i m b; cbn [uv_scan].
  { left. split; [done|]. by intros v ?%elem_of_nil. }
  destruct (Hfin v0) as (d & -> & Hd); [left|]. cbn [mbind result_bind].
  assert (Hrest : ∀ v, v ∈ rest → ∃ d, uv_dist t (get_uv v) = Return (Fin d) ∧ d == dq v).
  { intros v Hv. apply Hfin. by right. }
  rewrite (lt_ext_Qeq d (dq v0) m Hd).
  destruct (lt_ext (Fin (dq v0)) m) eqn:H0.
  - right.
    destruct (IH Hrest (S i) (Fin d) (Z.of_nat i))
      as [[Hres Hnone]|(k & v & Hk & Hres & Hlt & Hfirst & Hmin)].
    + exists 0%nat, v0. rewrite Nat.add_0_r. repeat split; try done.
      * intros j v' _ Hj. lia.
      * intros [|j] v' Hj; cbn in Hj.
        -- injection Hj as <-. apply Qle_refl.
        -- rewrite <- Hd. apply lt_ext_Fin, Hnone. by eapply list_elem_of_lookup_2.
    + apply lt_ext_Fin_true in Hlt. rewrite Hd in Hlt.
      exists (S k), v. replace (i + S k)%nat with (S i + k)%nat by lia.
      repeat split; try done.
      * by eapply lt_ext_trans.
      * intros [|j] v' Hj Hjk; cbn in Hj; [by injection Hj as <-|].
        apply (Hfirst j v' Hj). lia.
      * intros [|j] v' Hj; cbn in Hj; [injection Hj as <-; by apply Qlt_le_weak|].
        by apply (Hmin j).
  - destruct (IH Hrest (S i) m b)
      as [[Hres Hnone]|(k & v & Hk & Hres & Hlt & Hfirst & Hmin)].
    + left. split; [done|]. intros v [->|Hv]%elem_of_cons; [done|by apply Hnone].
    + right. exists (S k), v. replace (i + S k)%nat with (S i + k)%nat by lia.
      pose proof (lt_ext_false_lt _ _ _ H0 Hlt) as Hv0.
      repeat split; try done.
      * intros [|j] v' Hj Hjk; cbn in Hj; [by injection Hj as <-|].
        apply (Hfirst j v' Hj). lia.
      * intros [|j] v' Hj; cbn in Hj; [injection Hj as <-; by apply Qlt_le_weak|].
        by apply (Hmin j).
Qed.

(** Started as the source starts it, on a non-empty dataset, the scan
    returns the least position whose distance is minimal. *)
Lemma uv_scan_from_inf (vs : list VertexData) :
  (∀ v, v ∈ vs → ∃ d, uv_dist t (get_uv v) = Return (Fin d) ∧ d == dq v) →
  vs ≠ [] →
  ∃ k v, vs !! k = Some v ∧ uv_scan t 0 vs Inf (-1) = Return (Z.of_nat k) ∧
         (∀ j v', vs !! j = Some v' → (j < k)%nat → dq v < dq v') ∧
         (∀ j v', vs !! j = Some v' → dq v <= dq v').
Proof.
  intros Hfin Hne.
  destruct (uv_scan_first_min vs Hfin 0 Inf (-1))
    as [[_ Hnone]|(k & v & Hk & Hres & _ & Hfirst & Hmin)].
  - destruct vs as [|v vs]; [done|]. by specialize (Hnone v ltac:(left)).
  - exists k, v. eauto.
Qed.

End Scan.

Lemma find_closest_uv_match_nonempty (obj : Object) (vert : MeshVertex)
    (source_data : list VertexData) (t : option (list float)) :
  source_data ≠ [] → get_uv_coords obj (index vert) = Return t →
  find_closest_uv_match obj vert source_data =
    uv_scan (target_or_origin t) 0 source_data Inf (-1).
Proof.
  intros Hne Ht. unfold find_closest_uv_match. destruct source_data; [done|].
  by rewrite Ht.
Qed.

(** The matcher on a dataset of finite UVs within range: it returns the
    least index among the records at minimal squared distance from the UV
    of the vertex. *)
Lemma find_closest_uv_match_first_min (obj : Object) (vert : MeshVertex)
    (source_data : list VertexData) (t : option (list float)) :
  get_uv_coords obj (index vert) = Return t →
  source_data ≠ [] → uv_two_floats source_data →
  distances_in_range (vertex_uv obj (index vert)) source_data →
  ∃ k r, find_closest_uv_match obj vert source_data = Return (Z.of_nat k) ∧
         source_data !! k = Some r ∧
         (∀ j r', source_data !! j = Some r' → (j < k)%nat →
                  sq_dist_2d (vertex_uv obj (index vert)) (record_uv_2d r)
                  < sq_dist_2d (vertex_uv obj (index vert)) (record_uv_2d r')) ∧
         (∀ j r', source_data !! j = Some r' →
                  sq_dist_2d (vertex_uv obj (index vert)) (record_uv_2d r)
                  <= sq_dist_2d (vertex_uv obj (index vert)) (record_uv_2d r')).
Proof.
  intros Ht Hne Hwf Hrange.
  destruct (get_uv_coords_vertex_uv _ _ _ Ht) as (u & v & _ & Htarget & Hsame & _).
  rewrite (find_closest_uv_match_nonempty _ _ _ t Hne Ht), Htarget.
  destruct (uv_scan_from_inf [u; v]
              (fun r => sq_dist_2d (vertex_uv obj (index vert)) (record_uv_2d r))
              source_data) as (k & r & Hr & Hk & Hfirst & Hmin); [|done|by exists k, r].
  intros r Hr. rewrite (get_uv_record_uv_2d source_data r Hwf Hr).
  assert (Heq : sq_dist_2d (u, v) ((record_uv_2d r).1, (record_uv_2d r).2)
                == sq_dist_2d (vertex_uv obj (index vert)) (record_uv_2d r)).
  { apply sq_dist_2d_same; [done|]. by split. }
  destruct (uv_dist_finite u v (record_uv_2d r).1 (record_uv_2d r).2) as (d & Hd & Hdq).
  { rewrite Heq. by apply Hrange. }
  exists d. split; [done|]. by rewrite Hdq.
Qed.


Lemma demo_loops_in_range : loops_in_range (data demo_object).
Proof. intros uv_data [= <-]. repeat constructor; cbn; lia. Qed.

Lemma demo_dataset_two_floats : uv_two_floats demo_dataset.
Proof.
  intros r uv Hr Huv.
  repeat (apply elem_of_cons in Hr as [->|Hr]); try (injection Huv as <-; eauto); try done.
  by apply elem_of_nil in Hr.
Qed.

Lemma demo_dataset_in_range (k : nat) :
  (k < 3)%nat → distances_in_range (vertex_uv demo_object k) demo_dataset.
Proof.
  intros Hk r Hr.
  repeat (apply elem_of_cons in Hr as [->|Hr]); [..|by apply elem_of_nil in Hr];
    destruct k as [|[|[|k]]]; try lia;
    apply Qle_bool_imp_le; vm_compute; reflexivity.
Qed.






(** ** The weight sink *)

Lemma vertex_groups_get_Some (groups : list VertexGroup) (nm : string) (k : nat) :
  vertex_groups_get groups nm = Some k ↔
  ∃ g, groups !! k = Some g ∧ name g = nm ∧
       ∀ j g', groups !! j = Some g' → (j < k)%nat → name g' ≠ nm.
Proof.
  unfold vertex_groups_get.
  destruct (list_find _ groups) as [[k' g]|] eqn:Hfind; cbn.
  - apply list_find_Some in Hfind as (Hg & Hn & Hfirst). split.
    + intros [= <-]. eauto.
    + intros (g' & Hg' & Hn' & Hfirst'). f_equal.
      destruct (Nat.lt_trichotomy k' k) as [Hlt|[->|Hlt]]; [|done|].
      * by destruct (Hfirst' _ _ Hg Hlt).
      * by destruct (Hfirst _ _ Hg' Hlt).
  - split; [done|]. intros (g & Hg & Hn & _).
    apply list_find_None in Hfind. rewrite Forall_forall in Hfind.
    destruct (Hfind g); [by eapply list_elem_of_lookup_2|done].
Qed.

Lemma vertex_groups_get_None (groups : list VertexGroup) (nm : string) :
  vertex_groups_get groups nm = None ↔ Forall (fun g => name g ≠ nm) groups.
Proof.
  unfold vertex_groups_get.
  rewrite <- (list_find_None (fun g => name g = nm)), fmap_None. done.
Qed.

Lemma vertex_groups_get_names (groups groups' : list VertexGroup) (nm : string) :
  name <$> groups = name <$> groups' →
  vertex_groups_get groups nm = vertex_groups_get groups' nm.
Proof.
  intros Hnames.
  assert (Hvia : ∀ gs, vertex_groups_get gs nm
                       = fst <$> list_find (fun n => n = nm) (name <$> gs)).
  { intros gs. unfold vertex_groups_get. rewrite list_find_fmap.
    by destruct (list_find _ gs) as [[??]|]. }
  by rewrite !Hvia, Hnames.
Qed.

Lemma apply_weight_found (vi : nat) (groups : list VertexGroup) (nm : string) (w : Q)
    (k : nat) :
  vertex_groups_get groups nm = Some k →
  apply_weight vi groups (nm, w)
  = alter (fun g => {| name := name g; members := <[vi := w]> (members g) |}) k groups.
Proof. unfold apply_weight. by intros ->. Qed.

Lemma apply_weight_new (vi : nat) (groups : list VertexGroup) (nm : string) (w : Q) :
  vertex_groups_get groups nm = None →
  apply_weight vi groups (nm, w)
  = groups ++ [{| name := nm; members := {[vi := w]} |}].
Proof.
  unfold apply_weight, vertex_groups_new. intros ->.
  rewrite <- (Nat.add_0_r (length groups)), alter_app_r. cbn.
  by rewrite insert_empty.
Qed.

Lemma apply_weight_names (vi : nat) (groups : list VertexGroup) (nm : string) (w : Q) :
  name <$> apply_weight vi groups (nm, w)
  = match vertex_groups_get groups nm with
    | Some _ => name <$> groups
    | None => (name <$> groups) ++ [nm]
    end.
Proof.
  destruct (vertex_groups_get groups nm) as [k|] eqn:Hget.
  - rewrite (apply_weight_found _ _ _ _ _ Hget).
    rewrite (list_fmap_alter name _ id); [by rewrite list_alter_id|].
    by apply Forall_forall.
  - rewrite (apply_weight_new _ _ _ _ Hget). by rewrite fmap_app.
Qed.

(** Applying one imported weight sets that vertex's weight in that group
    and leaves every other weight as it was. *)
Lemma weight_in_apply_weight (vi : nat) (groups : list VertexGroup) (nm : string) (w : Q)
    (nm' : string) (vi' : nat) :
  weight_in (apply_weight vi groups (nm, w)) nm' vi'
  = if decide (nm' = nm ∧ vi' = vi) then Some w else weight_in groups nm' vi'.
Proof.
  destruct (vertex_groups_get groups nm) as [k|] eqn:Hget.
  - rewrite (apply_weight_found _ _ _ _ _ Hget). unfold weight_in.
    rewrite (vertex_groups_get_names (alter _ k groups) groups nm'); cycle 1.
    { rewrite (list_fmap_alter name _ id); [by rewrite list_alter_id|].
      by apply Forall_forall. }
    pose proof Hget as (g & Hg & Hn & _)%vertex_groups_get_Some.
    destruct (decide (nm' = nm)) as [->|Hne].
    + rewrite Hget, list_lookup_alter_eq, Hg. cbn.
      destruct (decide (vi' = vi)) as [->|Hvi].
      * rewrite decide_True by done. apply lookup_insert_eq.
      * rewrite decide_False by naive_solver. by apply lookup_insert_ne.
    + rewrite decide_False by naive_solver.
      destruct (vertex_groups_get groups nm') as [k'|] eqn:Hget'; [|done].
      rewrite list_lookup_alter_ne; [done|]. intros <-.
      apply vertex_groups_get_Some in Hget' as (g' & Hg' & Hn' & _). congruence.
  - rewrite (apply_weight_new _ _ _ _ Hget). unfold weight_in.
    pose proof Hget as Hnone%vertex_groups_get_None.
    destruct (decide (nm' = nm)) as [->|Hne].
    + assert (vertex_groups_get (groups ++ [{| name := nm; members := {[vi := w]} |}]) nm
              = Some (length groups)) as ->.
      { apply vertex_groups_get_Some.
        exists {| name := nm; members := {[vi := w]} |}. split; [|split; [done|]].
        - by rewrite lookup_app_r, Nat.sub_diag.
        - intros j g' Hj Hlt. rewrite lookup_app_l in Hj by done.
          rewrite Forall_forall in Hnone. apply Hnone. by eapply list_elem_of_lookup_2. }
      rewrite lookup_app_r, Nat.sub_diag, Hget by done. cbn.
      destruct (decide (vi' = vi)) as [->|Hvi].
      * rewrite decide_True by done. apply lookup_singleton_eq.
      * rewrite decide_False by naive_solver. by apply lookup_singleton_ne.
    + rewrite decide_False by naive_solver.
      destruct (vertex_groups_get groups nm') as [k'|] eqn:Hget'.
      * pose proof Hget' as (g' & Hg' & Hn' & Hfirst)%vertex_groups_get_Some.
        assert (vertex_groups_get (groups ++ [{| name := nm; members := {[vi := w]} |}]) nm'
                = Some k') as ->.
        { apply vertex_groups_get_Some. exists g'. split; [|split; [done|]].
          - by apply lookup_app_l_Some.
          - intros j g'' Hj Hlt. apply (Hfirst j); [|done].
            rewrite lookup_app_l in Hj; [done|].
            apply lookup_lt_Some in Hg'. lia. }
        by rewrite (lookup_app_l_Some _ _ _ _ Hg'), Hg'.
      * assert (vertex_groups_get (groups ++ [{| name := nm; members := {[vi := w]} |}]) nm'
                = None) as ->; [|done].
        apply vertex_groups_get_None, Forall_app. split.
        -- by apply vertex_groups_get_None.
        -- constructor; [by cbn|constructor].
Qed.

Lemma weight_in_fold_other (vi : nat) (items : dict float) (groups : list VertexGroup)
    (nm : string) (vi' : nat) :
  nm ∉ items.*1 ∨ vi' ≠ vi →
  weight_in (fold_left (apply_weight vi) items groups) nm vi' = weight_in groups nm vi'.
Proof.
  revert groups. induction items as [|[k w] items IH]; intros groups Hother; [done|].
  cbn [fold_left]. rewrite IH, weight_in_apply_weight.
  - apply decide_False. intros [-> ->]. destruct Hother as [Hk|]; [|done].
    apply Hk. cbn. left.
  - destruct Hother as [Hk|]; [left|by right].
    intros Hin. apply Hk. cbn. by right.
Qed.

Lemma weight_in_fold_item (vi : nat) (items : dict float) (groups : list VertexGroup)
    (nm : string) (w : Q) :
  NoDup items.*1 → (nm, w) ∈ items →
  weight_in (fold_left (apply_weight vi) items groups) nm vi = Some w.
Proof.
  revert groups. induction items as [|[k w'] items IH]; intros groups Hnd Hin.
  { by apply elem_of_nil in Hin. }
  cbn in Hnd. apply NoDup_cons in Hnd as [Hk Hnd]. cbn [fold_left].
  apply elem_of_cons in Hin as [[= -> ->]|Hin].
  - rewrite weight_in_fold_other by (by left).
    rewrite weight_in_apply_weight. by apply decide_True.
  - by apply IH.
Qed.

(** C5: one imported weight is applied with replace semantics.  The group
    of that name is the existing one when there is one and a new group,
    appended to the mesh's groups, when there is none; afterwards the
    vertex's weight in that group is exactly the imported value, whatever
    it was before (nothing is added to it), and no other weight of the mesh
    has changed.  Over the items of one record, whose keys are distinct,
    every item ends up as the vertex's weight in its group. *)
Theorem apply_weight_replace (vert_index : nat) (groups : list VertexGroup)
    (group_name : string) (weight : Q) :
  let groups' := apply_weight vert_index groups (group_name, weight) in
  weight_in groups' group_name vert_index = Some weight ∧
  (vertex_groups_get groups group_name = None →
     groups' = groups ++ [{| name := group_name; members := {[vert_index := weight]} |}]) ∧
  (is_Some (vertex_groups_get groups group_name) →
     name <$> groups' = name <$> groups) ∧
  (∀ nm vi, ¬ (nm = group_name ∧ vi = vert_index) →
            weight_in groups' nm vi = weight_in groups nm vi) ∧
  (∀ items, NoDup items.*1 → (group_name, weight) ∈ items →
            weight_in (fold_left (apply_weight vert_index) items groups)
              group_name vert_index = Some weight).
Proof.
  intros groups'. subst groups'. repeat split.
  - rewrite weight_in_apply_weight. by apply decide_True.
  - apply apply_weight_new.
  - intros [k Hk]. by rewrite apply_weight_names, Hk.
  - intros nm vi Hne. rewrite weight_in_apply_weight. by apply decide_False.
  - intros items. apply weight_in_fold_item.
Qed.

(** Vertex 0 of [demo_object] holds 0.3 in ["Arm"]; importing 0.7 leaves
    exactly 0.7 there. *)
Lemma apply_weight_replace_witness :
  weight_in (vertex_groups demo_object) "Arm" 0 = Some (3 # 10) ∧
  weight_in (apply_weight 0 (vertex_groups demo_object) ("Arm", 7 # 10)) "Arm" 0
    = Some (7 # 10) ∧
  name <$> apply_weight 0 (vertex_groups demo_object) ("Arm", 7 # 10)
    = name <$> vertex_groups demo_object.
Proof.
  split; [reflexivity|]. split.
  - apply (apply_weight_replace 0 (vertex_groups demo_object) "Arm" (7 # 10)).
  - apply (apply_weight_replace 0 (vertex_groups demo_object) "Arm" (7 # 10)).
    by exists 0%nat.
Defined.

(** ** [import_skin_weights]: the guards *)

Section ImportGuards.

Variable kd_find : kd_points → Vector3 → option (Vector3 * nat).

Lemma import_load_failure (filepath mapping_mode : string) (context_object : option Object)
    (load : string → string + Document) (e : string) :
  load filepath = inl e →
  ∃ m, import_skin_weights kd_find filepath mapping_mode context_object load
       = {| object_after := context_object; import_events := [print m];
            import_raised := None |} ∧
       (m = InvalidFilePath ∨ m = NoMeshSelected ∨ m = ImportFailed e) ∧
       (filepath ≠ EmptyString →
        (∃ obj, context_object = Some obj ∧ type obj = "MESH") → m = ImportFailed e).
Proof.
  intros Hload. unfold import_skin_weights.
  destruct filepath as [|a filepath]; [by eexists; split; [|split]; eauto|].
  destruct context_object as [obj|]; cycle 1.
  { eexists. split; [done|]. split; [eauto|]. by intros _ (? & ? & _). }
  destruct (String.eqb_spec (type obj) "MESH") as [Htype|Htype]; cbn [negb].
  - rewrite Hload. eexists. split; [done|]. eauto.
  - eexists. split; [done|]. split; [eauto|]. intros _ (? & [= <-] & ?). done.
Qed.

Lemma import_empty_dataset (filepath mapping_mode : string) (context_object : option Object)
    (load : string → string + Document) (doc : Document) :
  load filepath = inr doc → d_vertices doc = None ∨ d_vertices doc = Some [] →
  ∃ m, import_skin_weights kd_find filepath mapping_mode context_object load
       = {| object_after := context_object; import_events := [print m];
            import_raised := None |} ∧
       (m = InvalidFilePath ∨ m = NoMeshSelected ∨ m = NoValidVertexData) ∧
       (filepath ≠ EmptyString →
        (∃ obj, context_object = Some obj ∧ type obj = "MESH") → m = NoValidVertexData).
Proof.
  intros Hload Hempty. unfold import_skin_weights.
  destruct filepath as [|a filepath]; [by eexists; split; [|split]; eauto|].
  destruct context_object as [obj|]; cycle 1.
  { eexists. split; [done|]. split; [eauto|]. by intros _ (? & ? & _). }
  destruct (String.eqb_spec (type obj) "MESH") as [Htype|Htype]; cbn [negb].
  - rewrite Hload. destruct Hempty as [->| ->]; eexists; (split; [done|]); eauto.
  - eexists. split; [done|]. split; [eauto|]. intros _ (? & [= <-] & ?). done.
Qed.

(** An import that passes the guards builds the tree in Position mode and
    runs the vertex loop. *)
Lemma import_skin_weights_run (filepath mapping_mode : string) (obj : Object)
    (load : string → string + Document) (doc : Document) (vertices_data : list VertexData) :
  filepath ≠ EmptyString → type obj = "MESH" → load filepath = inr doc →
  d_vertices doc = Some vertices_data → vertices_data ≠ [] →
  import_skin_weights kd_find filepath mapping_mode (Some obj) load =
    match (if String.eqb mapping_mode "POSITION"
           then kd_insert_all 0 vertices_data [] else Return []) with
    | Raise e => {| object_after := Some obj; import_events := [];
                    import_raised := Some e |}
    | Return old_tree =>
        match import_loop kd_find mapping_mode old_tree vertices_data
                (vertices (data obj)) obj with
        | (obj', Some e) => {| object_after := Some obj'; import_events := [];
                               import_raised := Some e |}
        | (obj', None) => {| object_after := Some obj';
                             import_events := [print ImportSuccessful];
                             import_raised := None |}
        end
    end.
Proof.
  intros Hpath Htype Hload Hdoc Hne. unfold import_skin_weights.
  destruct filepath as [|a filepath]; [done|]. rewrite Htype, Hload, Hdoc.
  by destruct vertices_data.
Qed.

End ImportGuards.

Lemma export_empty_mesh (filepath : string) (obj : Object)
    (files : gmap string node) :
  vertices (data obj) = [] →
  ∃ m, export_skin_weights filepath (Some obj) files
       = {| files_after := files; export_events := [print m]; export_raised := None |} ∧
       (m = InvalidFilePath ∨ m = NoMeshSelected ∨ m = NoVerticesFound) ∧
       (filepath ≠ EmptyString → type obj = "MESH" → m = NoVerticesFound).
Proof.
  intros Hverts. unfold export_skin_weights.
  destruct filepath as [|a filepath]; [by eexists; split; [|split]; eauto|].
  destruct (String.eqb_spec (type obj) "MESH") as [Htype|Htype]; cbn [negb].
  - rewrite Hverts. cbn. eexists. split; [done|]. eauto.
  - eexists. split; [done|]. split; [eauto|]. done.
Qed.

(** C6: an import whose file does not load, or whose dataset is missing or
    empty, and an export of a mesh without vertices, stop with one printed
    error message and change nothing: the context object comes back as it
    was given, with its groups and weights, no exception is raised, and the
    store of files after the export is the store before it. *)
Theorem failed_runs_change_nothing
    (kd_find : kd_points → Vector3 → option (Vector3 * nat))
    (filepath mapping_mode : string) (context_object : option Object)
    (load : string → string + Document) (files : gmap string node) :
  (∀ e, load filepath = inl e →
     ∃ m, import_skin_weights kd_find filepath mapping_mode context_object load
          = {| object_after := context_object; import_events := [print m];
               import_raised := None |} ∧
          (m = InvalidFilePath ∨ m = NoMeshSelected ∨ m = ImportFailed e) ∧
          (filepath ≠ EmptyString →
           (∃ obj, context_object = Some obj ∧ type obj = "MESH") → m = ImportFailed e)) ∧
  (∀ doc, load filepath = inr doc → d_vertices doc = None ∨ d_vertices doc = Some [] →
     ∃ m, import_skin_weights kd_find filepath mapping_mode context_object load
          = {| object_after := context_object; import_events := [print m];
               import_raised := None |} ∧
          (m = InvalidFilePath ∨ m = NoMeshSelected ∨ m = NoValidVertexData) ∧
          (filepath ≠ EmptyString →
           (∃ obj, context_object = Some obj ∧ type obj = "MESH") →
           m = NoValidVertexData)) ∧
  (∀ obj, vertices (data obj) = [] →
     ∃ m, export_skin_weights filepath (Some obj) files
          = {| files_after := files; export_events := [print m];
               export_raised := None |} ∧
          (m = InvalidFilePath ∨ m = NoMeshSelected ∨ m = NoVerticesFound) ∧
          (filepath ≠ EmptyString → type obj = "MESH" → m = NoVerticesFound)).
Proof.
  split; [|split].
  - intros e. apply import_load_failure.
  - intros doc. apply import_empty_dataset.
  - intros obj. apply export_empty_mesh.
Qed.

(** The three failures of C6 on concrete runs: a file that is not there, a
    document with an empty array, and a mesh without vertices. *)
Lemma failed_runs_change_nothing_witness :
  (∃ m, import_skin_weights kd_find_scan "w.json" "POSITION" (Some demo_object)
          (open_json_load ∅)
        = {| object_after := Some demo_object; import_events := [print m];
             import_raised := None |} ∧
        m = ImportFailed "FileNotFoundError") ∧
  (∃ m, import_skin_weights kd_find_scan "w.json" "POSITION" (Some demo_object)
          (fun _ => inr {| d_vertices := Some [] |})
        = {| object_after := Some demo_object; import_events := [print m];
             import_raised := None |} ∧
        m = NoValidVertexData) ∧
  (∃ m, export_skin_weights "w.json" (Some empty_object) ∅
        = {| files_after := ∅; export_events := [print m]; export_raised := None |} ∧
        m = NoVerticesFound).
Proof.
  pose (no_files := ∅ : gmap string node).
  split; [|split].
  - assert (Hload : open_json_load no_files "w.json" = inl "FileNotFoundError")
      by (vm_compute; reflexivity).
    destruct (proj1 (failed_runs_change_nothing kd_find_scan "w.json" "POSITION"
                       (Some demo_object) (open_json_load no_files) no_files)
                "FileNotFoundError" Hload) as (m & Hout & _ & Hm).
    exists m. split; [exact Hout|]. apply Hm; [done|]. by exists demo_object.
  - destruct (proj1 (proj2 (failed_runs_change_nothing kd_find_scan "w.json" "POSITION"
                       (Some demo_object) (fun _ => inr {| d_vertices := Some [] |})
                       no_files))
                {| d_vertices := Some [] |} eq_refl (or_intror eq_refl))
      as (m & Hout & _ & Hm).
    exists m. split; [exact Hout|]. apply Hm; [done|]. by exists demo_object.
  - destruct (proj2 (proj2 (failed_runs_change_nothing kd_find_scan "w.json" "POSITION"
                       None (fun _ => inl "unused") no_files))
                empty_object eq_refl) as (m & Hout & _ & Hm).
    exists m. split; [exact Hout|]. by apply Hm.
Defined.

(** ** [import_skin_weights]: the vertex loop *)

Section ImportLoop.

Variable kd_find : kd_points → Vector3 → option (Vector3 * nat).

Lemma import_vertex_unknown_mode (mapping_mode : string) (old_tree : kd_points)
    (vertices_data : list VertexData) (obj : Object) (vert : MeshVertex) :
  mapping_mode ≠ "POSITION" → mapping_mode ≠ "UV" →
  import_vertex kd_find mapping_mode old_tree vertices_data obj vert = Return obj.
Proof.
  intros Hpos%String.eqb_neq Huv%String.eqb_neq. unfold import_vertex.
  by rewrite Hpos, Huv.
Qed.

Lemma import_loop_unknown_mode (mapping_mode : string) (old_tree : kd_points)
    (vertices_data : list VertexData) (vs : list MeshVertex) (obj : Object) :
  mapping_mode ≠ "POSITION" → mapping_mode ≠ "UV" →
  import_loop kd_find mapping_mode old_tree vertices_data vs obj = (obj, None).
Proof.
  intros Hpos Huv. induction vs as [|vert rest IH]; [done|].
  cbn [import_loop]. by rewrite import_vertex_unknown_mode.
Qed.

End ImportLoop.

(** C7: with a mapping mode other than ['POSITION'] and ['UV'] every target
    vertex is skipped.  The body of the vertex loop returns the object it was
    given; the import raises no exception and hands back the context object
    unchanged, with no group created and no weight changed; a run that gets
    as far as the loop reports success like any other. *)
Theorem unknown_mode_skips
    (kd_find : kd_points → Vector3 → option (Vector3 * nat))
    (filepath mapping_mode : string) (context_object : option Object)
    (load : string → string + Document) :
  mapping_mode ≠ "POSITION" → mapping_mode ≠ "UV" →
  let out := import_skin_weights kd_find filepath mapping_mode context_object load in
  (∀ old_tree vertices_data obj vert,
     import_vertex kd_find mapping_mode old_tree vertices_data obj vert = Return obj) ∧
  object_after out = context_object ∧
  import_raised out = None ∧
  (∀ obj doc v vs,
     filepath ≠ EmptyString → context_object = Some obj → type obj = "MESH" →
     load filepath = inr doc → d_vertices doc = Some (v :: vs) →
     import_events out = [print ImportSuccessful]).
Proof.
  intros Hpos Huv out. split.
  { intros. by apply import_vertex_unknown_mode. }
  assert (Hrun : ∀ obj doc v vs,
             filepath ≠ EmptyString → context_object = Some obj → type obj = "MESH" →
             load filepath = inr doc → d_vertices doc = Some (v :: vs) →
             out = {| object_after := Some obj;
                      import_events := [print ImportSuccessful];
                      import_raised := None |}).
  { intros obj doc v vs Hpath -> Htype Hload Hdoc. subst out.
    rewrite (import_skin_weights_run kd_find _ _ _ _ doc (v :: vs)) by done.
    pose proof Hpos as ->%String.eqb_neq.
    by rewrite import_loop_unknown_mode. }
  assert (Hcases :
    (∃ m, out = {| object_after := context_object; import_events := [print m];
                   import_raised := None |}) ∨
    (∃ obj doc v vs, filepath ≠ EmptyString ∧ context_object = Some obj ∧
                     type obj = "MESH" ∧ load filepath = inr doc ∧
                     d_vertices doc = Some (v :: vs))).
  { destruct (load filepath) as [e|doc] eqn:Hload.
    { left. destruct (import_load_failure kd_find filepath mapping_mode context_object
                        load e Hload) as (m & Hm & _). eauto. }
    destruct (d_vertices doc) as [[|v vs]|] eqn:Hdoc.
    - left. destruct (import_empty_dataset kd_find filepath mapping_mode context_object
                        load doc Hload (or_intror Hdoc)) as (m & Hm & _). eauto.
    - destruct filepath as [|a filepath]; [left; by eexists|].
      destruct context_object as [obj|]; [|left; by eexists].
      destruct (String.eqb_spec (type obj) "MESH") as [Htype|Htype].
      + right. by exists obj, doc, v, vs.
      + left. subst out. unfold import_skin_weights.
        apply String.eqb_neq in Htype as ->. by eexists.
    - left. destruct (import_empty_dataset kd_find filepath mapping_mode context_object
                        load doc Hload (or_introl Hdoc)) as (m & Hm & _). eauto. }
  destruct Hcases as [[m ->]|(obj & doc & v & vs & Hpath & Hctx & Htype & Hload & Hdoc)].
  - repeat split; try done. intros obj doc v vs Hpath Hctx Htype Hload Hdoc.
    by rewrite (Hrun obj doc v vs).
  - rewrite (Hrun obj doc v vs) by done. repeat split; try done.
Qed.

(** The hypotheses of C7 hold of the mode ["NORMAL"]: the import of a
    dataset onto [demo_object] hands it back unchanged and prints success. *)
Lemma unknown_mode_skips_witness :
  let out := import_skin_weights kd_find_scan "w.json" "NORMAL" (Some demo_object)
               (fun _ => inr {| d_vertices := Some demo_dataset |}) in
  object_after out = Some demo_object ∧ import_raised out = None ∧
  import_events out = [print ImportSuccessful].
Proof.
  destruct (unknown_mode_skips kd_find_scan "w.json" "NORMAL" (Some demo_object)
              (fun _ => inr {| d_vertices := Some demo_dataset |}))
    as (_ & Hobj & Hraised & Hevents); [done|done|].
  cbv zeta. split; [exact Hobj|]. split; [exact Hraised|].
  by eapply Hevents.
Defined.

(** *** Applying the matched record *)

Lemma py_getitem_nat {A : Type} (xs : list A) (k : nat) (x : A) :
  xs !! k = Some x → py_getitem xs (Z.of_nat k) = Return x.
Proof.
  intros Hx. unfold py_getitem.
  replace (Z.of_nat k <? 0)%Z with false by (symmetry; apply Z.ltb_ge; lia).
  replace (Z.of_nat k <? 0)%Z with false by (symmetry; apply Z.ltb_ge; lia).
  by rewrite Nat2Z.id, Hx.
Qed.

Lemma set_vertex_groups_id (obj : Object) : set_vertex_groups obj (vertex_groups obj) = obj.
Proof. by destruct obj. Qed.

Lemma apply_closest_items (vertices_data : list VertexData) (obj : Object)
    (vert : MeshVertex) (i : Z) (r : VertexData) :
  py_getitem vertices_data i = Return r →
  apply_closest vertices_data obj vert i
  = Return (set_vertex_groups obj
              (fold_left (apply_weight (index vert)) (record_items r) (vertex_groups obj))).
Proof.
  intros Hr. unfold apply_closest, record_items. rewrite Hr. cbn [mbind result_bind].
  destruct (d_weights r) as [[|item items]|]; cbn [fold_left];
    by rewrite ?set_vertex_groups_id.
Qed.

Lemma apply_closest_no_weights (vertices_data : list VertexData) (obj : Object)
    (vert : MeshVertex) (i : Z) (r : VertexData) :
  py_getitem vertices_data i = Return r → no_weights r →
  apply_closest vertices_data obj vert i = Return obj.
Proof.
  intros Hr Hno. unfold apply_closest. rewrite Hr. cbn [mbind result_bind].
  by destruct Hno as [-> | ->].
Qed.

(** *** UV mode *)

Lemma uv_scan_same_uv (f : VertexData → VertexData) (t : list float)
    (vs : list VertexData) :
  (∀ r, get_uv (f r) = get_uv r) →
  ∀ i m b, uv_scan t i (f <$> vs) m b = uv_scan t i vs m b.
Proof.
  intros Hf. induction vs as [|v rest IH]; intros i m b; [done|].
  cbn [fmap list_fmap uv_scan]. rewrite Hf.
  destruct (uv_dist t (get_uv v)) as [dist|e]; [|done]. cbn [mbind result_bind].
  destruct (lt_ext dist m); apply IH.
Qed.

Lemma find_closest_uv_match_same_uv (f : VertexData → VertexData) (obj : Object)
    (vert : MeshVertex) (source_data : list VertexData) :
  (∀ r, get_uv (f r) = get_uv r) →
  find_closest_uv_match obj vert (f <$> source_data)
  = find_closest_uv_match obj vert source_data.
Proof.
  intros Hf. unfold find_closest_uv_match. destruct source_data as [|v rest]; [done|].
  cbn [fmap list_fmap]. destruct (get_uv_coords obj (index vert)) as [t|e]; [|done].
  cbn [mbind result_bind].
  apply (uv_scan_same_uv f (target_or_origin t) (v :: rest) Hf).
Qed.

Section ImportModes.

Variable kd_find : kd_points → Vector3 → option (Vector3 * nat).

(** In UV mode, on a dataset of finite UVs within range, the body of the
    loop applies the items of the first record at minimal squared distance
    from the UV of the vertex. *)
Lemma import_vertex_uv (old_tree : kd_points) (vertices_data : list VertexData)
    (obj : Object) (groups : list VertexGroup) (vert : MeshVertex) :
  loops_in_range (data obj) → vertices_data ≠ [] → uv_two_floats vertices_data →
  distances_in_range (vertex_uv obj (index vert)) vertices_data →
  ∃ k r, vertices_data !! k = Some r ∧
         (∀ j r', vertices_data !! j = Some r' → (j < k)%nat →
                  sq_dist_2d (vertex_uv obj (index vert)) (record_uv_2d r)
                  < sq_dist_2d (vertex_uv obj (index vert)) (record_uv_2d r')) ∧
         (∀ j r', vertices_data !! j = Some r' →
                  sq_dist_2d (vertex_uv obj (index vert)) (record_uv_2d r)
                  <= sq_dist_2d (vertex_uv obj (index vert)) (record_uv_2d r')) ∧
         find_closest_uv_match obj vert vertices_data = Return (Z.of_nat k) ∧
         import_vertex kd_find "UV" old_tree vertices_data
           (set_vertex_groups obj groups) vert
         = Return (set_vertex_groups obj
                     (fold_left (apply_weight (index vert)) (record_items r) groups)).
Proof.
  intros Hloops Hne Hwf Hrange.
  destruct (get_uv_coords_total obj (index vert) Hloops) as [t Ht].
  destruct (find_closest_uv_match_first_min obj vert vertices_data t Ht Hne Hwf Hrange)
    as (k & r & Hk & Hr & Hfirst & Hmin).
  exists k, r. split; [done|]. split; [done|]. split; [done|]. split; [done|].
  unfold import_vertex.
  replace (String.eqb "UV" "POSITION") with false by done.
  replace (String.eqb "UV" "UV") with true by done.
  change (find_closest_uv_match (set_vertex_groups obj groups) vert vertices_data)
    with (find_closest_uv_match obj vert vertices_data).
  rewrite Hk. cbn [mbind result_bind].
  replace (Z.of_nat k =? -1)%Z with false by (symmetry; apply Z.eqb_neq; lia).
  by rewrite (apply_closest_items _ _ _ _ r) by by apply py_getitem_nat.
Qed.

Lemma import_loop_uv (old_tree : kd_points) (vertices_data : list VertexData)
    (obj : Object) (vs : list MeshVertex) :
  loops_in_range (data obj) → vertices_data ≠ [] → uv_two_floats vertices_data →
  (∀ vert, vert ∈ vs → distances_in_range (vertex_uv obj (index vert)) vertices_data) →
  ∀ groups, ∃ groups',
    import_loop kd_find "UV" old_tree vertices_data vs (set_vertex_groups obj groups)
    = (set_vertex_groups obj groups', None).
Proof.
  intros Hloops Hne Hwf. induction vs as [|vert rest IH]; intros Hrange groups;
    cbn [import_loop]; [by exists groups|].
  destruct (import_vertex_uv old_tree vertices_data obj groups vert Hloops Hne Hwf)
    as (k & r & _ & _ & _ & _ & ->); [apply Hrange; left|].
  apply IH. intros v Hv. apply Hrange. by right.
Qed.

End ImportModes.

(** *** Position mode *)

Lemma kd_insert_all_positions (vs : list VertexData) :
  Forall has_position vs →
  ∀ i tree, kd_insert_all i vs tree
            = Return (tree ++ imap (fun k r => (record_position r, (i + k)%nat)) vs).
Proof.
  induction 1 as [|v rest (x & y & z & Hco) _ IH]; intros i tree.
  - cbn. by rewrite app_nil_r.
  - cbn [kd_insert_all]. rewrite Hco, IH, imap_cons, <- app_assoc. cbn [app].
    unfold record_position at 2. rewrite Hco, Nat.add_0_r. do 3 f_equal.
    apply imap_ext. intros k r _. cbn. f_equal. lia.
Qed.

Lemma elem_of_position_tree (rs : list VertexData) (p : Vector3) (j : nat) :
  (p, j) ∈ imap (fun k r => (record_position r, (0 + k)%nat)) rs ↔
  ∃ r, rs !! j = Some r ∧ p = record_position r.
Proof.
  rewrite elem_of_lookup_imap. split.
  - intros (k & r & [= -> ->] & Hr). eauto.
  - intros (r & Hr & ->). by exists j, r.
Qed.

Lemma dist3_self (q : Vector3) : dist3 q q == 0.
Proof. destruct q as [[x y] z]. cbn. ring. Qed.

Lemma dist3_zero (p q : Vector3) : dist3 p q <= 0 → same_point p q.
Proof.
  destruct p as [[x1 y1] z1], q as [[x2 y2] z2]. unfold dist3, same_point. cbn.
  remember (x1 - x2) as a eqn:Ha. remember (y1 - y2) as b eqn:Hb.
  remember (z1 - z2) as c eqn:Hc.
  pose proof (Qsquare_nonneg a) as Hx. pose proof (Qsquare_nonneg b) as Hy.
  pose proof (Qsquare_nonneg c) as Hz. intros Hsum.
  assert (a * a == 0 ∧ b * b == 0 ∧ c * c == 0) as (Ha0 & Hb0 & Hc0).
  { repeat split; lra. }
  apply Qmult_integral in Ha0, Hb0, Hc0.
  assert (a == 0) as Ha' by tauto. assert (b == 0) as Hb' by tauto.
  assert (c == 0) as Hc' by tauto.
  rewrite Ha in Ha'. rewrite Hb in Hb'. rewrite Hc in Hc'.
  repeat split; lra.
Qed.

Section PositionMode.

Variable kd_find : kd_points → Vector3 → option (Vector3 * nat).
Hypothesis kd_find_ok : kd_find_nearest kd_find.

(** In Position mode the body of the loop applies the items of a record
    whose position no other record's position is strictly closer to the
    vertex than. *)
Lemma import_vertex_position (vertices_data : list VertexData) (obj : Object)
    (vert : MeshVertex) :
  vertices_data ≠ [] →
  ∃ i r, vertices_data !! i = Some r ∧
         (∀ j r', vertices_data !! j = Some r' →
                  dist3 (co vert) (record_position r) <= dist3 (co vert) (record_position r')) ∧
         import_vertex kd_find "POSITION"
           (imap (fun k r => (record_position r, (0 + k)%nat)) vertices_data)
           vertices_data obj vert
         = Return (set_vertex_groups obj
                     (fold_left (apply_weight (index vert)) (record_items r)
                        (vertex_groups obj))).
Proof.
  intros Hne.
  destruct (kd_find_ok (imap (fun k r => (record_position r, (0 + k)%nat)) vertices_data)
              (co vert)) as (p & i & Hfind & Hin & Hmin).
  { by destruct vertices_data. }
  apply elem_of_position_tree in Hin as (r & Hr & ->).
  exists i, r. split; [done|]. split.
  - intros j r' Hj. apply (Hmin _ j). apply elem_of_position_tree. eauto.
  - unfold import_vertex. replace (String.eqb "POSITION" "POSITION") with true by done.
    rewrite Hfind. apply apply_closest_items. by apply py_getitem_nat.
Qed.

Lemma import_loop_position (vertices_data : list VertexData) (vs : list MeshVertex) :
  vertices_data ≠ [] →
  ∀ obj, ∃ groups,
    import_loop kd_find "POSITION"
      (imap (fun k r => (record_position r, (0 + k)%nat)) vertices_data)
      vertices_data vs obj
    = (set_vertex_groups obj groups, None).
Proof.
  intros Hne. induction vs as [|vert rest IH]; intros obj; cbn [import_loop].
  - exists (vertex_groups obj). by rewrite set_vertex_groups_id.
  - destruct (import_vertex_position vertices_data obj vert Hne) as (i & r & _ & _ & ->).
    destruct (IH (set_vertex_groups obj
                    (fold_left (apply_weight (index vert)) (record_items r)
                       (vertex_groups obj)))) as [groups' ->].
    by exists groups'.
Qed.

End PositionMode.

Lemma import_raised_guards
    (kd_find : kd_points → Vector3 → option (Vector3 * nat))
    (filepath mapping_mode : string) (context_object : option Object)
    (load : string → string + Document) :
  import_raised (import_skin_weights kd_find filepath mapping_mode context_object load)
    = None ∨
  ∃ obj doc vertices_data,
    filepath ≠ EmptyString ∧ context_object = Some obj ∧ type obj = "MESH" ∧
    load filepath = inr doc ∧ d_vertices doc = Some vertices_data ∧ vertices_data ≠ [].
Proof.
  destruct (load filepath) as [e|doc] eqn:Hload.
  { left. by destruct (import_load_failure kd_find filepath mapping_mode context_object
                         load e Hload) as (m & -> & _). }
  destruct (d_vertices doc) as [[|v vs]|] eqn:Hdoc.
  - left. by destruct (import_empty_dataset kd_find filepath mapping_mode context_object
                         load doc Hload (or_intror Hdoc)) as (m & -> & _).
  - destruct filepath as [|a filepath]; [by left|].
    destruct context_object as [obj|]; [|by left].
    destruct (String.eqb_spec (type obj) "MESH") as [Htype|Htype].
    + right. by exists obj, doc, (v :: vs).
    + left. unfold import_skin_weights. by apply String.eqb_neq in Htype as ->.
  - left. by destruct (import_empty_dataset kd_find filepath mapping_mode context_object
                         load doc Hload (or_introl Hdoc)) as (m & -> & _).
Qed.

(** *** The reference KD-tree meets the contract *)

Lemma kd_find_scan_nearest : kd_find_nearest kd_find_scan.
Proof.
  intros tree q. induction tree as [|[p i] rest IH]; [done|]. intros _.
  cbn [kd_find_scan]. destruct rest as [|pj rest'].
  { exists p, i. split; [done|]. split; [left|].
    intros p' j [[= -> ->]|Hnil%elem_of_nil]%elem_of_cons; [apply Qle_refl|done]. }
  destruct IH as (p' & j & -> & Hin & Hmin); [done|].
  destruct (QMicromega.Qlt_bool (dist3 q p') (dist3 q p)) eqn:Hlt.
  - apply Qlt_bool_true in Hlt. exists p', j. split; [done|]. split; [by right|].
    intros p'' k [[= -> ->]|Hk]%elem_of_cons; [by apply Qlt_le_weak|by apply (Hmin _ k)].
  - apply Qlt_bool_false in Hlt. exists p, i. split; [done|]. split; [left|].
    intros p'' k [[= -> ->]|Hk]%elem_of_cons; [apply Qle_refl|].
    apply Qle_trans with (dist3 q p'); [done|by apply (Hmin _ k)].
Qed.

(** ** Export followed by import in Position mode *)

Lemma vertex_record_position (obj : Object) (v : MeshVertex) (r : VertexData) :
  vertex_record obj v = Return r → has_position r ∧ record_position r = co v.
Proof.
  intros (t & ws & _ & _ & ->)%vertex_record_inv. unfold has_position, record_position.
  destruct (co v) as [[x y] z]. cbn. eauto.
Qed.

Lemma vertex_record_items (obj : Object) (v : MeshVertex) (r : VertexData) :
  NoDup (name <$> vertex_groups obj) → vertex_record obj v = Return r →
  record_items r = omap (group_entry (index v)) (vertex_groups obj).
Proof.
  intros Hnd (t & ws & _ & Hws & ->)%vertex_record_inv.
  rewrite collect_weights_omap in Hws; [|done|by intros g _ ?%elem_of_nil].
  by injection Hws as <-.
Qed.

Lemma group_entry_keys_NoDup (vi : nat) (groups : list VertexGroup) :
  NoDup (name <$> groups) → NoDup (omap (group_entry vi) groups).*1.
Proof.
  induction groups as [|g groups IH]; [constructor|].
  rewrite fmap_cons. intros [Hg Hnd]%NoDup_cons. cbn [omap list_omap].
  destruct (group_entry vi g) as [[nm w]|] eqn:He; [|by apply IH].
  rewrite fmap_cons. apply NoDup_cons. split; [|by apply IH].
  apply group_entry_Some in He as (<- & _). cbn.
  intros ([nm' w'] & Hnm & Hin)%list_elem_of_fmap_1. cbn in Hnm.
  apply list_elem_of_omap in Hin as (g' & Hg' & He').
  apply group_entry_Some in He' as (Hn' & _). apply Hg.
  rewrite Hnm, <- Hn'. by apply list_elem_of_fmap_2.
Qed.

Lemma names_unique (groups : list VertexGroup) (g g' : VertexGroup) :
  NoDup (name <$> groups) → g ∈ groups → g' ∈ groups → name g = name g' → g = g'.
Proof.
  intros Hnd [i Hi]%list_elem_of_lookup [j Hj]%list_elem_of_lookup Hname.
  assert (i = j) as ->; [|congruence].
  apply (NoDup_lookup _ i j (name g) Hnd); rewrite list_lookup_fmap.
  - by rewrite Hi.
  - by rewrite Hj, Hname.
Qed.

(** Writing back the weight a group already stores changes nothing. *)
Lemma apply_weight_same (vi : nat) (groups : list VertexGroup) (g : VertexGroup) (w : Q) :
  NoDup (name <$> groups) → g ∈ groups → members g !! vi = Some w →
  apply_weight vi groups (name g, w) = groups.
Proof.
  intros Hnd Hg Hw.
  destruct (vertex_groups_get groups (name g)) as [k|] eqn:Hget.
  - rewrite (apply_weight_found _ _ _ _ _ Hget).
    apply vertex_groups_get_Some in Hget as (g' & Hg' & Hn' & _).
    assert (g' = g) as ->.
    { apply (names_unique groups); [done| |done|done]. by eapply list_elem_of_lookup_2. }
    rewrite <- (list_alter_id id groups k) at 2 by done.
    apply list_alter_ext; [|done]. intros g'' Hg''.
    assert (g'' = g) as -> by congruence.
    destruct g as [nm ms]. cbn in *. by rewrite insert_id.
  - apply vertex_groups_get_None in Hget. rewrite Forall_forall in Hget.
    by destruct (Hget g Hg).
Qed.

Lemma import_groups_same (groups : list VertexGroup) (vs : list MeshVertex) :
  NoDup (name <$> groups) → import_groups groups vs groups = groups.
Proof.
  intros Hnd. unfold import_groups. induction vs as [|vert rest IH]; [done|].
  cbn [fold_left].
  assert (Hitems : ∀ items,
            (∀ kv, kv ∈ items → ∃ g, g ∈ groups ∧ group_entry (index vert) g = Some kv) →
            fold_left (apply_weight (index vert)) items groups = groups).
  { induction items as [|[nm w] items IHi]; intros Hfrom; [done|]. cbn [fold_left].
    destruct (Hfrom (nm, w)) as (g & Hg & (<- & Hw & _)%group_entry_Some); [left|].
    rewrite apply_weight_same by done. apply IHi. intros kv Hkv. apply Hfrom. by right. }
  rewrite Hitems; [done|].
  intros kv (g & Hg & He)%list_elem_of_omap. eauto.
Qed.

Lemma import_groups_other (source_groups : list VertexGroup) (vs : list MeshVertex)
    (groups : list VertexGroup) (nm : string) (vi : nat) :
  vi ∉ index <$> vs →
  weight_in (import_groups source_groups vs groups) nm vi = weight_in groups nm vi.
Proof.
  unfold import_groups. revert groups.
  induction vs as [|vert rest IH]; intros groups Hvi; [done|].
  rewrite fmap_cons in Hvi. apply not_elem_of_cons in Hvi as [Hne Hvi].
  cbn [fold_left]. rewrite IH by done. apply weight_in_fold_other. by right.
Qed.

(** After the import every positive weight of the source is the weight of
    the same vertex in the group of the same name. *)
Lemma import_groups_weight (source_groups : list VertexGroup) (vs : list MeshVertex)
    (groups : list VertexGroup) (g : VertexGroup) (vert : MeshVertex) (w : Q) :
  NoDup (name <$> source_groups) → NoDup (index <$> vs) →
  g ∈ source_groups → vert ∈ vs → members g !! index vert = Some w → 0 < w →
  weight_in (import_groups source_groups vs groups) (name g) (index vert) = Some w.
Proof.
  intros Hnames Hidx Hg Hvert Hw Hpos. revert groups Hidx Hvert.
  induction vs as [|v0 rest IH]; intros groups Hidx Hvert.
  { by apply elem_of_nil in Hvert. }
  rewrite fmap_cons in Hidx. apply NoDup_cons in Hidx as [Hv0 Hidx].
  change (import_groups source_groups (v0 :: rest) groups)
    with (import_groups source_groups rest
            (fold_left (apply_weight (index v0))
               (omap (group_entry (index v0)) source_groups) groups)).
  apply elem_of_cons in Hvert as [->|Hvert]; [|by apply IH].
  rewrite import_groups_other by done.
  apply weight_in_fold_item; [by apply group_entry_keys_NoDup|].
  apply list_elem_of_omap. exists g. split; [done|]. by apply group_entry_Some.
Qed.

Lemma weight_in_Some (groups : list VertexGroup) (nm : string) (vi : nat) (w : Q) :
  weight_in groups nm vi = Some w →
  ∃ g, g ∈ groups ∧ name g = nm ∧ members g !! vi = Some w.
Proof.
  unfold weight_in. destruct (vertex_groups_get groups nm) as [k|] eqn:Hget; [|done].
  apply vertex_groups_get_Some in Hget as (g & Hg & Hn & _). rewrite Hg. intros Hw.
  exists g. split; [by eapply list_elem_of_lookup_2|done].
Qed.

Section RoundTrip.

Variable kd_find : kd_points → Vector3 → option (Vector3 * nat).
Hypothesis kd_find_ok : kd_find_nearest kd_find.

Variable src : Object.
Variable rs : list VertexData.
Hypothesis names_distinct : NoDup (name <$> vertex_groups src).
Hypothesis positions_distinct : unique_positions (vertices (data src)).
Hypothesis exported :
  Forall2 (fun v r => vertex_record src v = Return r) (vertices (data src)) rs.

(** A vertex of the exported mesh is matched with its own record: that
    record is at distance zero, and no other position is. *)
Lemma import_vertex_own_record (obj : Object) (vert : MeshVertex) :
  vert ∈ vertices (data src) →
  import_vertex kd_find "POSITION"
    (imap (fun k r => (record_position r, (0 + k)%nat)) rs) rs obj vert
  = Return (set_vertex_groups obj
              (fold_left (apply_weight (index vert))
                 (omap (group_entry (index vert)) (vertex_groups src))
                 (vertex_groups obj))).
Proof.
  intros [k Hk]%list_elem_of_lookup.
  destruct (Forall2_lookup_l _ _ _ _ _ exported Hk) as (rk & Hrk & Hrec).
  destruct (import_vertex_position kd_find kd_find_ok rs obj vert)
    as (i & r & Hr & Hmin & ->).
  { intros ->. by rewrite lookup_nil in Hrk. }
  destruct (Forall2_lookup_r _ _ _ _ _ exported Hr) as (vi & Hvi & Hreci).
  pose proof (vertex_record_position _ _ _ Hrec) as [_ Hpk].
  pose proof (vertex_record_position _ _ _ Hreci) as [_ Hpi].
  specialize (Hmin k rk Hrk). rewrite Hpk, Hpi, dist3_self in Hmin.
  apply dist3_zero in Hmin.
  assert (k = i) as <- by (by eapply positions_distinct).
  assert (r = rk) as -> by congruence.
  by rewrite (vertex_record_items src vert rk).
Qed.

Lemma import_loop_own_records (vs : list MeshVertex) :
  (∀ v, v ∈ vs → v ∈ vertices (data src)) →
  ∀ obj, import_loop kd_find "POSITION"
           (imap (fun k r => (record_position r, (0 + k)%nat)) rs) rs vs obj
         = (set_vertex_groups obj
              (import_groups (vertex_groups src) vs (vertex_groups obj)), None).
Proof.
  induction vs as [|vert rest IH]; intros Hsub obj; cbn [import_loop].
  - by rewrite set_vertex_groups_id.
  - rewrite import_vertex_own_record by (apply Hsub; left).
    rewrite IH by (intros v Hv; apply Hsub; by right). done.
Qed.

End RoundTrip.

(** Where the source has no positive weight, the import leaves the weight
    of the target as it is. *)
Lemma import_groups_unchanged (source_groups : list VertexGroup) (vs : list MeshVertex)
    (groups : list VertexGroup) (nm : string) (vi : nat) :
  (∀ g w, g ∈ source_groups → name g = nm → members g !! vi = Some w → w <= 0) →
  weight_in (import_groups source_groups vs groups) nm vi = weight_in groups nm vi.
Proof.
  intros Hnone. unfold import_groups. revert groups.
  induction vs as [|vert rest IH]; intros groups; [done|].
  cbn [fold_left]. rewrite IH. apply weight_in_fold_other.
  destruct (decide (vi = index vert)) as [->|Hne]; [left|by right].
  intros ([nm' w] & Hnm & Hin)%list_elem_of_fmap_1. cbn in Hnm. subst nm'.
  apply list_elem_of_omap in Hin as (g & Hg & (Hn & Hw & Hpos)%group_entry_Some).
  specialize (Hnone g w Hg Hn Hw). lra.
Qed.

Lemma weight_in_unique (groups : list VertexGroup) (g : VertexGroup) (vi : nat) :
  NoDup (name <$> groups) → g ∈ groups →
  weight_in groups (name g) vi = members g !! vi.
Proof.
  intros Hnd Hg. unfold weight_in.
  destruct (vertex_groups_get groups (name g)) as [k|] eqn:Hget.
  - apply vertex_groups_get_Some in Hget as (g' & Hg' & Hn' & _). rewrite Hg'.
    by rewrite (names_unique groups g' g Hnd (list_elem_of_lookup_2 _ _ _ Hg') Hg Hn').
  - apply vertex_groups_get_None in Hget. rewrite Forall_forall in Hget.
    by destruct (Hget g Hg).
Qed.

(** C1: a mesh whose vertices have pairwise distinct positions is exported
    and the file is imported in Position mode, the KD-tree returning a
    nearest point as its contract says, onto an object with the same mesh
    data, whatever groups it has.  Every target vertex is matched with the
    record written for it, at distance zero, and the import makes every
    strictly positive weight of the source the weight of the same vertex in
    the group of the same name.  A weight of the source that is zero or
    negative is not reproduced: for such a vertex and group, as for one the
    source has no weight for, the target keeps what it had. *)
Theorem position_round_trip
    (kd_find : kd_points → Vector3 → option (Vector3 * nat))
    (filepath : string) (src tgt : Object) (files : gmap string node) :
  kd_find_nearest kd_find →
  NoDup (name <$> vertex_groups src) →
  NoDup (index <$> vertices (data src)) →
  unique_positions (vertices (data src)) →
  let out := export_skin_weights filepath (Some src) files in
  print ExportSuccessful ∈ export_events out →
  let load := open_json_load (files_after out) in
  type tgt = "MESH" → data tgt = data src →
  ∃ tgt',
    import_skin_weights kd_find filepath "POSITION" (Some tgt) load
    = {| object_after := Some tgt'; import_events := [print ImportSuccessful];
         import_raised := None |} ∧
    type tgt' = type tgt ∧ data tgt' = data tgt ∧
    (∀ group_name vert weight,
       vert ∈ vertices (data src) →
       weight_in (vertex_groups src) group_name (index vert) = Some weight →
       0 < weight →
       weight_in (vertex_groups tgt') group_name (index vert) = Some weight) ∧
    (∀ group_name vert,
       vert ∈ vertices (data src) →
       (∀ weight, weight_in (vertex_groups src) group_name (index vert) = Some weight →
                  weight <= 0) →
       weight_in (vertex_groups tgt') group_name (index vert)
       = weight_in (vertex_groups tgt) group_name (index vert)).
Proof.
  intros Hkd Hnames Hidx Hpos out Hok load Htgt Hdata.
  pose proof (export_successful_inv _ _ _ Hok) as (Hpath & Htype & Hverts & _).
  destruct (export_successful_records _ _ _ Hok) as (rs & Hrs & Hfiles).
  assert (Hne : rs ≠ []).
  { intros ->. apply Forall2_nil_inv_r in Hrs. done. }
  assert (Hload : load filepath = inr {| d_vertices := Some rs |}).
  { subst load out. unfold open_json_load. rewrite Hfiles, lookup_insert_eq.
    apply json_load_document_text. }
  assert (Hco : Forall has_position rs).
  { apply Forall_forall. intros r [k Hk]%list_elem_of_lookup.
    destruct (Forall2_lookup_r _ _ _ _ _ Hrs Hk) as (v & _ & Hrec).
    by apply vertex_record_position in Hrec as [? _]. }
  exists (set_vertex_groups tgt
            (import_groups (vertex_groups src) (vertices (data src)) (vertex_groups tgt))).
  split.
  { rewrite (import_skin_weights_run kd_find _ _ _ _ {| d_vertices := Some rs |} rs)
      by done.
    replace (String.eqb "POSITION" "POSITION") with true by done.
    rewrite (kd_insert_all_positions rs Hco). cbn [app]. rewrite Hdata.
    by rewrite (import_loop_own_records kd_find Hkd src rs Hnames Hpos Hrs). }
  split; [done|]. split; [done|]. cbn [vertex_groups set_vertex_groups]. split.
  - intros group_name vert weight Hvert Hw Hpositive.
    apply weight_in_Some in Hw as (g & Hg & <- & Hw).
    by apply import_groups_weight.
  - intros group_name vert Hvert Hnone. apply import_groups_unchanged.
    intros g w Hg Hn Hw. apply Hnone. by rewrite <- Hn, weight_in_unique.
Qed.

Lemma demo_positions_distinct : unique_positions (vertices (data demo_object)).
Proof.
  intros i j v w Hi Hj (Hx & Hy & Hz).
  destruct i as [|[|[|i]]], j as [|[|[|j]]]; cbn in Hi, Hj; try done;
    injection Hi as <-; injection Hj as <-; cbn in Hx, Hy, Hz; done.
Qed.

Lemma demo_names_distinct : NoDup (name <$> vertex_groups demo_object).
Proof. apply NoDup_ListNoDup. repeat constructor; cbn; intuition discriminate. Qed.

Lemma demo_indices_distinct : NoDup (index <$> vertices (data demo_object)).
Proof. apply NoDup_ListNoDup. repeat constructor; cbn; lia. Qed.

(** The hypotheses of C1 hold of [demo_object], the reference KD-tree and
    a copy of [demo_object] without any group: after the export and the
    import vertex 1 of the copy has its weight 0.7 in ["Leg"]. *)
Lemma position_round_trip_witness :
  let out := export_skin_weights "w.json" (Some demo_object) ∅ in
  let load := open_json_load (files_after out) in
  ∃ tgt',
    import_skin_weights kd_find_scan "w.json" "POSITION"
      (Some (set_vertex_groups demo_object [])) load
    = {| object_after := Some tgt'; import_events := [print ImportSuccessful];
         import_raised := None |} ∧
    weight_in (vertex_groups tgt') "Leg" 1 = Some (7 # 10).
Proof.
  destruct (position_round_trip kd_find_scan "w.json" demo_object
              (set_vertex_groups demo_object []) ∅)
    as (tgt' & Hrun & _ & _ & Hweights & _).
  - apply kd_find_scan_nearest.
  - apply demo_names_distinct.
  - apply demo_indices_distinct.
  - apply demo_positions_distinct.
  - apply export_succeeds; [done|done|done|apply demo_loops_in_range|done].
  - reflexivity.
  - reflexivity.
  - exists tgt'. split; [exact Hrun|].
    apply (Hweights "Leg" {| index := 1; co := (1, 0, 0) |}).
    + apply list_elem_of_further, list_elem_of_here.
    + reflexivity.
    + reflexivity.
Defined.

(** Vertex 1 of [demo_object] has the weight 0 in ["Arm"]; after the export
    and the import onto the copy without groups it has no weight there. *)
Lemma position_round_trip_zero_weight :
  let out := export_skin_weights "w.json" (Some demo_object) ∅ in
  let load := open_json_load (files_after out) in
  weight_in (vertex_groups demo_object) "Arm" 1 = Some 0 ∧
  ∃ tgt',
    import_skin_weights kd_find_scan "w.json" "POSITION"
      (Some (set_vertex_groups demo_object [])) load
    = {| object_after := Some tgt'; import_events := [print ImportSuccessful];
         import_raised := None |} ∧
    weight_in (vertex_groups tgt') "Arm" 1 = None.
Proof.
  split; [reflexivity|]. eexists. split; [vm_compute; reflexivity|].
  vm_compute. reflexivity.
Qed.

(** * Further properties of the code *)

(** ** The vertex loop of the importer as a function on the groups *)

Section LoopGroups.

Variable kd_find : kd_points → Vector3 → option (Vector3 * nat).

Lemma matched_record_groups (mapping_mode : string) (old_tree : kd_points)
    (vertices_data : list VertexData) (obj : Object) (groups : list VertexGroup)
    (vert : MeshVertex) :
  matched_record kd_find mapping_mode old_tree vertices_data
    (set_vertex_groups obj groups) vert
  = matched_record kd_find mapping_mode old_tree vertices_data obj vert.
Proof. done. Qed.

Lemma import_vertex_items (mapping_mode : string) (old_tree : kd_points)
    (vertices_data : list VertexData) (obj : Object) (vert : MeshVertex) :
  import_vertex kd_find mapping_mode old_tree vertices_data obj vert
  = match vertex_items kd_find mapping_mode old_tree vertices_data obj vert with
    | Return items =>
        Return (set_vertex_groups obj
                  (fold_left (apply_weight (index vert)) items (vertex_groups obj)))
    | Raise e => Raise e
    end.
Proof.
  assert (Hget : ∀ i,
    apply_closest vertices_data obj vert i
    = match py_getitem vertices_data i with
      | Return r =>
          Return (set_vertex_groups obj
                    (fold_left (apply_weight (index vert)) (record_items r)
                       (vertex_groups obj)))
      | Raise e => Raise e
      end).
  { intros i. destruct (py_getitem vertices_data i) as [r|e] eqn:Hr.
    - by apply apply_closest_items.
    - unfold apply_closest. by rewrite Hr. }
  unfold import_vertex, vertex_items, matched_record.
  destruct (String.eqb mapping_mode "POSITION").
  - destruct (kd_find old_tree (co vert)) as [[p i]|]; [|done].
    rewrite Hget. by destruct (py_getitem vertices_data (Z.of_nat i)).
  - destruct (String.eqb mapping_mode "UV"); cycle 1.
    { cbn. by rewrite set_vertex_groups_id. }
    destruct (find_closest_uv_match obj vert vertices_data) as [i|e]; [|done].
    cbn [mbind result_bind]. destruct (i =? -1)%Z.
    + cbn. by rewrite set_vertex_groups_id.
    + rewrite Hget. by destruct (py_getitem vertices_data i).
Qed.

Lemma import_loop_groups (mapping_mode : string) (old_tree : kd_points)
    (vertices_data : list VertexData) (obj : Object) (vs : list MeshVertex) :
  ∀ groups,
    import_loop kd_find mapping_mode old_tree vertices_data vs
      (set_vertex_groups obj groups)
    = (set_vertex_groups obj
         (loop_groups (vertex_items kd_find mapping_mode old_tree vertices_data obj)
            vs groups).1,
       (loop_groups (vertex_items kd_find mapping_mode old_tree vertices_data obj)
          vs groups).2).
Proof.
  induction vs as [|vert rest IH]; intros groups; cbn [import_loop loop_groups]; [done|].
  rewrite import_vertex_items.
  change (vertex_items kd_find mapping_mode old_tree vertices_data
            (set_vertex_groups obj groups) vert)
    with (vertex_items kd_find mapping_mode old_tree vertices_data obj vert).
  destruct (vertex_items kd_find mapping_mode old_tree vertices_data obj vert)
    as [items|e]; [|done].
  apply IH.
Qed.

(** Every outcome of an import on a mesh object hands back that object with
    its groups replaced by those the loop computes; nothing is printed but
    a guard's message or the final success message. *)
Lemma import_skin_weights_groups (filepath mapping_mode : string) (obj : Object)
    (load : string → string + Document) :
  object_after (import_skin_weights kd_find filepath mapping_mode (Some obj) load)
    = Some obj ∨
  ∃ doc vertices_data old_tree,
    filepath ≠ EmptyString ∧ type obj = "MESH" ∧ load filepath = inr doc ∧
    d_vertices doc = Some vertices_data ∧ vertices_data ≠ [] ∧
    (if String.eqb mapping_mode "POSITION"
     then kd_insert_all 0 vertices_data [] else Return []) = Return old_tree ∧
    let lg := loop_groups (vertex_items kd_find mapping_mode old_tree vertices_data obj)
                (vertices (data obj)) (vertex_groups obj) in
    import_skin_weights kd_find filepath mapping_mode (Some obj) load
    = {| object_after := Some (set_vertex_groups obj lg.1);
         import_events := match lg.2 with
                          | None => [print ImportSuccessful]
                          | Some _ => []
                          end;
         import_raised := lg.2 |}.
Proof.
  destruct (load filepath) as [e|doc] eqn:Hload.
  { left. by destruct (import_load_failure kd_find filepath mapping_mode (Some obj)
                         load e Hload) as (m & -> & _). }
  destruct (d_vertices doc) as [[|v vs]|] eqn:Hdoc.
  - left. by destruct (import_empty_dataset kd_find filepath mapping_mode (Some obj)
                         load doc Hload (or_intror Hdoc)) as (m & -> & _).
  - destruct (decide (filepath = EmptyString)) as [->|Hpath]; [by left|].
    destruct (String.eqb_spec (type obj) "MESH") as [Htype|Htype]; cycle 1.
    { left. unfold import_skin_weights. destruct filepath; [done|].
      by apply String.eqb_neq in Htype as ->. }
    rewrite (import_skin_weights_run kd_find _ _ _ _ doc (v :: vs)) by done.
    destruct (if String.eqb mapping_mode "POSITION"
              then kd_insert_all 0 (v :: vs) [] else Return []) as [old_tree|e] eqn:Htree;
      [|by left].
    right. exists doc, (v :: vs), old_tree. repeat split; try done.
    pose proof (import_loop_groups mapping_mode old_tree (v :: vs) obj
                  (vertices (data obj)) (vertex_groups obj)) as Hloop.
    rewrite set_vertex_groups_id in Hloop. rewrite Hloop.
    by destruct (loop_groups _ _ _) as [gs [e|]].
  - left. by destruct (import_empty_dataset kd_find filepath mapping_mode (Some obj)
                         load doc Hload (or_introl Hdoc)) as (m & -> & _).
Qed.

End LoopGroups.

(** ** What the importer keeps *)

Lemma groups_extend_refl (groups : list VertexGroup) : groups_extend groups groups.
Proof. intros k g Hg. eauto. Qed.

Lemma groups_extend_trans (g1 g2 g3 : list VertexGroup) :
  groups_extend g1 g2 → groups_extend g2 g3 → groups_extend g1 g3.
Proof.
  intros H12 H23 k g Hg.
  destruct (H12 k g Hg) as (g' & Hg' & Hn' & Hm').
  destruct (H23 k g' Hg') as (g'' & Hg'' & Hn'' & Hm'').
  exists g''. split; [done|]. split; [congruence|]. eauto.
Qed.

Lemma apply_weight_extend (vi : nat) (groups : list VertexGroup) (item : string * Q) :
  groups_extend groups (apply_weight vi groups item).
Proof.
  destruct item as [nm w]. intros k g Hg.
  destruct (vertex_groups_get groups nm) as [k0|] eqn:Hget.
  - rewrite (apply_weight_found _ _ _ _ _ Hget).
    destruct (decide (k0 = k)) as [->|Hne].
    + rewrite list_lookup_alter_eq, Hg. eexists. split; [done|]. split; [done|].
      intros vi' Hvi'. cbn. rewrite lookup_insert_is_Some'. by right.
    + rewrite list_lookup_alter_ne by done. eauto.
  - rewrite (apply_weight_new _ _ _ _ Hget). exists g.
    split; [by apply lookup_app_l_Some|]. eauto.
Qed.

Lemma fold_apply_weight_extend (vi : nat) (items : dict float) (groups : list VertexGroup) :
  groups_extend groups (fold_left (apply_weight vi) items groups).
Proof.
  revert groups. induction items as [|item items IH]; intros groups.
  - apply groups_extend_refl.
  - cbn [fold_left]. eapply groups_extend_trans; [apply apply_weight_extend|apply IH].
Qed.

Lemma loop_groups_extend (items_of : MeshVertex → result (dict float))
    (vs : list MeshVertex) (groups : list VertexGroup) :
  groups_extend groups (loop_groups items_of vs groups).1.
Proof.
  revert groups. induction vs as [|vert rest IH]; intros groups; cbn [loop_groups].
  - apply groups_extend_refl.
  - destruct (items_of vert) as [items|e]; [|apply groups_extend_refl].
    eapply groups_extend_trans; [apply fold_apply_weight_extend|apply IH].
Qed.

(** X1: whatever the mode, the file and the way the import ends (guard,
    success or exception), the object it leaves is the object it was given
    with the same type and mesh data, every group still at its position
    under its name, and every vertex that was assigned to a group still
    assigned to it: the import only adds. *)
Theorem import_only_adds
    (kd_find : kd_points → Vector3 → option (Vector3 * nat))
    (filepath mapping_mode : string) (obj : Object)
    (load : string → string + Document) :
  ∃ obj',
    object_after (import_skin_weights kd_find filepath mapping_mode (Some obj) load)
      = Some obj' ∧
    type obj' = type obj ∧ data obj' = data obj ∧
    (length (vertex_groups obj) <= length (vertex_groups obj'))%nat ∧
    groups_extend (vertex_groups obj) (vertex_groups obj').
Proof.
  destruct (import_skin_weights_groups kd_find filepath mapping_mode obj load)
    as [Hsame|(doc & vertices_data & old_tree & _ & _ & _ & _ & _ & _ & Hout)].
  - exists obj. split; [done|]. split; [done|]. split; [done|].
    split; [done|apply groups_extend_refl].
  - cbv zeta in Hout. rewrite Hout. eexists. split; [done|].
    split; [done|]. split; [done|]. cbn [vertex_groups set_vertex_groups].
    pose proof (loop_groups_extend
                  (vertex_items kd_find mapping_mode old_tree vertices_data obj)
                  (vertices (data obj)) (vertex_groups obj)) as Hext.
    split; [|done].
    destruct (vertex_groups obj) as [|g0 gs] eqn:Hgs using rev_ind; [cbn; lia|].
    destruct (Hext (length gs) g0) as (g' & Hg' & _).
    { by rewrite lookup_app_r, Nat.sub_diag. }
    apply lookup_lt_Some in Hg'. rewrite length_app. cbn. lia.
Qed.

(** ** Where the imported weights come from *)

Lemma py_getitem_elem_of {A : Type} (xs : list A) (i : Z) (x : A) :
  py_getitem xs i = Return x → x ∈ xs.
Proof.
  unfold py_getitem. destruct (_ <? 0)%Z; [done|].
  destruct (xs !! _) as [y|] eqn:Hy; [|done]. intros [= <-].
  by eapply list_elem_of_lookup_2.
Qed.

Lemma vertex_items_from_data
    (kd_find : kd_points → Vector3 → option (Vector3 * nat))
    (mapping_mode : string) (old_tree : kd_points) (vertices_data : list VertexData)
    (obj : Object) (vert : MeshVertex) (items : dict float) :
  vertex_items kd_find mapping_mode old_tree vertices_data obj vert = Return items →
  items = [] ∨ ∃ r, r ∈ vertices_data ∧ items = record_items r.
Proof.
  unfold vertex_items, matched_record.
  destruct (String.eqb mapping_mode "POSITION").
  - destruct (kd_find old_tree (co vert)) as [[p i]|]; [|done].
    destruct (py_getitem vertices_data (Z.of_nat i)) as [r|] eqn:Hr; [|done].
    cbn. intros [= <-]. right. exists r. split; [by eapply py_getitem_elem_of|done].
  - destruct (String.eqb mapping_mode "UV"); [|cbn; intros [= <-]; by left].
    destruct (find_closest_uv_match obj vert vertices_data) as [i|]; [|done].
    cbn [mbind result_bind]. destruct (i =? -1)%Z; [cbn; intros [= <-]; by left|].
    destruct (py_getitem vertices_data i) as [r|] eqn:Hr; [|done].
    cbn. intros [= <-]. right. exists r. split; [by eapply py_getitem_elem_of|done].
Qed.

Lemma weight_in_fold_cases (vi : nat) (items : dict float) (groups : list VertexGroup)
    (nm : string) (vi' : nat) :
  weight_in (fold_left (apply_weight vi) items groups) nm vi' = weight_in groups nm vi' ∨
  (vi' = vi ∧ ∃ w, (nm, w) ∈ items ∧
                  weight_in (fold_left (apply_weight vi) items groups) nm vi' = Some w).
Proof.
  revert groups. induction items as [|[k w] items IH]; intros groups; [by left|].
  cbn [fold_left].
  destruct (IH (apply_weight vi groups (k, w))) as [Hsame|(-> & w' & Hin & Hw')].
  - rewrite Hsame, weight_in_apply_weight. case_decide as Hkv; [|by left].
    destruct Hkv as [-> ->]. right. split; [done|]. exists w. split; [left|done].
  - right. split; [done|]. exists w'. split; [by right|done].
Qed.

Lemma weight_in_loop_cases (items_of : MeshVertex → result (dict float))
    (vs : list MeshVertex) (groups : list VertexGroup) (nm : string) (vi : nat) :
  weight_in (loop_groups items_of vs groups).1 nm vi = weight_in groups nm vi ∨
  ∃ vert items w, vert ∈ vs ∧ vi = index vert ∧ items_of vert = Return items ∧
                  (nm, w) ∈ items ∧
                  weight_in (loop_groups items_of vs groups).1 nm vi = Some w.
Proof.
  revert groups. induction vs as [|vert rest IH]; intros groups; cbn [loop_groups];
    [by left|].
  destruct (items_of vert) as [items|e] eqn:Hitems; [|by left].
  destruct (IH (fold_left (apply_weight (index vert)) items groups))
    as [Hsame|(v' & items' & w & Hv' & -> & Hi' & Hin & Hw)].
  - rewrite Hsame.
    destruct (weight_in_fold_cases (index vert) items groups nm vi)
      as [->|(-> & w & Hin & Hw)]; [by left|].
    right. exists vert, items, w. split; [left|]. by rewrite Hw.
  - right. exists v', items', w. split; [by right|done].
Qed.

(** X2: after an import, however it ends, the weight of a vertex in the
    group of a given name is what it was before, unless the vertex index is
    the index of a vertex of the mesh and the new weight is a value some
    record of the dataset gives under that name: the import writes no
    weight it has not read, and none outside the mesh's vertices. *)
Theorem import_writes_dataset_weights
    (kd_find : kd_points → Vector3 → option (Vector3 * nat))
    (filepath mapping_mode : string) (obj : Object)
    (load : string → string + Document) (group_name : string) (vert_index : nat) :
  ∃ obj',
    object_after (import_skin_weights kd_find filepath mapping_mode (Some obj) load)
      = Some obj' ∧
    (weight_in (vertex_groups obj') group_name vert_index
       = weight_in (vertex_groups obj) group_name vert_index ∨
     ∃ vert doc vertices_data r weight,
       vert ∈ vertices (data obj) ∧ vert_index = index vert ∧
       load filepath = inr doc ∧ d_vertices doc = Some vertices_data ∧
       r ∈ vertices_data ∧ (group_name, weight) ∈ record_items r ∧
       weight_in (vertex_groups obj') group_name vert_index = Some weight).
Proof.
  destruct (import_skin_weights_groups kd_find filepath mapping_mode obj load)
    as [Hsame|(doc & vertices_data & old_tree & _ & _ & Hload & Hdoc & _ & _ & Hout)].
  { exists obj. split; [done|by left]. }
  cbv zeta in Hout. rewrite Hout. eexists. split; [done|].
  cbn [vertex_groups set_vertex_groups].
  destruct (weight_in_loop_cases
              (vertex_items kd_find mapping_mode old_tree vertices_data obj)
              (vertices (data obj)) (vertex_groups obj) group_name vert_index)
    as [Hsame|(vert & items & w & Hvert & Hvi & Hitems & Hin & Hw)]; [by left|].
  right. exists vert, doc, vertices_data.
  destruct (vertex_items_from_data _ _ _ _ _ _ _ Hitems) as [->|(r & Hr & ->)].
  { by apply elem_of_nil in Hin. }
  by exists r, w.
Qed.

(** ** Importing twice *)

(** Writing a weight that is already the vertex's weight in the group of
    that name changes nothing. *)
Lemma apply_weight_noop (vi : nat) (groups : list VertexGroup) (nm : string) (w : Q) :
  weight_in groups nm vi = Some w → apply_weight vi groups (nm, w) = groups.
Proof.
  unfold weight_in. destruct (vertex_groups_get groups nm) as [k|] eqn:Hget; [|done].
  destruct (groups !! k) as [g|] eqn:Hg; [|done]. intros Hw.
  rewrite (apply_weight_found _ _ _ _ _ Hget).
  rewrite <- (list_alter_id id groups k) at 2 by done.
  apply list_alter_ext; [|done]. intros g' Hg'.
  assert (g' = g) as -> by congruence.
  destruct g as [n ms]. cbn in *. by rewrite insert_id.
Qed.

Lemma fold_apply_weight_noop (vi : nat) (items : dict float) (groups : list VertexGroup) :
  (∀ nm w, (nm, w) ∈ items → weight_in groups nm vi = Some w) →
  fold_left (apply_weight vi) items groups = groups.
Proof.
  induction items as [|[nm w] items IH]; intros Hall; [done|]. cbn [fold_left].
  rewrite apply_weight_noop by (apply Hall; left).
  apply IH. intros nm' w' Hin. apply Hall. by right.
Qed.

Lemma weight_in_loop_other (items_of : MeshVertex → result (dict float))
    (vs : list MeshVertex) (groups : list VertexGroup) (nm : string) (vi : nat) :
  vi ∉ index <$> vs →
  weight_in (loop_groups items_of vs groups).1 nm vi = weight_in groups nm vi.
Proof.
  intros Hvi.
  destruct (weight_in_loop_cases items_of vs groups nm vi)
    as [Hsame|(vert & _ & _ & Hvert & -> & _)]; [done|].
  destruct Hvi. by apply list_elem_of_fmap_2.
Qed.

Lemma loop_groups_items (items_of : MeshVertex → result (dict float))
    (vs : list MeshVertex) :
  ∀ groups, (loop_groups items_of vs groups).2 = None →
            ∀ v, v ∈ vs → ∃ items, items_of v = Return items.
Proof.
  induction vs as [|vert rest IH]; intros groups Hnone v Hv.
  { by apply elem_of_nil in Hv. }
  cbn [loop_groups] in Hnone. destruct (items_of vert) as [items|e] eqn:Hitems; [|done].
  apply elem_of_cons in Hv as [->|Hv]; [eauto|]. by eapply IH.
Qed.

(** After a loop that ran to its end, with distinct vertex indices and
    distinct keys in every applied dictionary, every applied item is the
    weight of its vertex in its group. *)
Lemma weight_in_loop_item (items_of : MeshVertex → result (dict float))
    (vs : list MeshVertex) :
  NoDup (index <$> vs) →
  (∀ v items, v ∈ vs → items_of v = Return items → NoDup items.*1) →
  ∀ groups v items nm w,
    v ∈ vs → items_of v = Return items → (nm, w) ∈ items →
    (loop_groups items_of vs groups).2 = None →
    weight_in (loop_groups items_of vs groups).1 nm (index v) = Some w.
Proof.
  induction vs as [|v0 rest IH]; intros Hidx Hkeys groups v items nm w Hv Hitems Hin Hnone.
  { by apply elem_of_nil in Hv. }
  rewrite fmap_cons in Hidx. apply NoDup_cons in Hidx as [Hv0 Hidx].
  cbn [loop_groups] in Hnone |- *.
  destruct (items_of v0) as [items0|e] eqn:Hitems0; [|done].
  apply elem_of_cons in Hv as [->|Hv].
  - rewrite weight_in_loop_other by done.
    assert (items0 = items) as -> by congruence.
    apply weight_in_fold_item; [|done]. apply (Hkeys v0); [left|done].
  - apply (IH Hidx) with items; try done.
    intros v' items' Hv'. apply Hkeys. by right.
Qed.

Lemma loop_groups_again (items_of : MeshVertex → result (dict float))
    (vs : list MeshVertex) (groups : list VertexGroup) :
  (∀ v items nm w, v ∈ vs → items_of v = Return items → (nm, w) ∈ items →
                   weight_in groups nm (index v) = Some w) →
  (∀ v, v ∈ vs → ∃ items, items_of v = Return items) →
  loop_groups items_of vs groups = (groups, None).
Proof.
  induction vs as [|v0 rest IH]; intros Hall Hret; [done|]. cbn [loop_groups].
  destruct (Hret v0) as [items Hitems]; [left|]. rewrite Hitems.
  rewrite fold_apply_weight_noop.
  - apply IH.
    + intros v items' nm w Hv. apply Hall. by right.
    + intros v Hv. apply Hret. by right.
  - intros nm w Hin. apply (Hall v0 items); [left|done|done].
Qed.

(** X3: an import that ended without an exception, on a mesh whose
    vertices have distinct indices and from a dataset whose weight
    dictionaries have distinct keys, can be repeated: importing the same
    file in the same mode onto the object it produced gives that object
    again, with the same messages. *)
Theorem import_twice
    (kd_find : kd_points → Vector3 → option (Vector3 * nat))
    (filepath mapping_mode : string) (obj obj' : Object)
    (load : string → string + Document) :
  let out := import_skin_weights kd_find filepath mapping_mode (Some obj) load in
  import_raised out = None → object_after out = Some obj' →
  NoDup (index <$> vertices (data obj)) →
  (∀ doc vertices_data, load filepath = inr doc →
     d_vertices doc = Some vertices_data → distinct_keys vertices_data) →
  import_skin_weights kd_find filepath mapping_mode (Some obj') load = out.
Proof.
  intros out Hraised Hobj' Hidx Hkeys. subst out.
  destruct (import_skin_weights_groups kd_find filepath mapping_mode obj load)
    as [Hsame|(doc & vertices_data & old_tree & Hpath & Htype & Hload & Hdoc & Hne
               & Htree & Hout)].
  { rewrite Hsame in Hobj'. by injection Hobj' as <-. }
  cbv zeta in Hout. rewrite Hout in Hraised, Hobj' |- *. cbn in Hraised, Hobj'.
  injection Hobj' as <-. rewrite Hraised.
  rewrite (import_skin_weights_run kd_find _ _ _ _ doc vertices_data) by done.
  rewrite Htree. cbn [data set_vertex_groups]. rewrite import_loop_groups.
  set (items_of := vertex_items kd_find mapping_mode old_tree vertices_data obj) in *.
  rewrite (loop_groups_again items_of (vertices (data obj))); [done| |].
  - intros v items nm w Hv Hitems Hin.
    apply weight_in_loop_item with items; try done.
    intros v' items' Hv' Hitems'.
    destruct (vertex_items_from_data _ _ _ _ _ _ _ Hitems') as [->|(r & Hr & ->)];
      [constructor|]. by apply (Hkeys doc vertices_data).
  - by apply (loop_groups_items items_of _ (vertex_groups obj)).
Qed.

(** The hypotheses of X3 hold of [demo_dataset] imported onto
    [demo_object] in Position mode. *)
Lemma import_twice_witness :
  let load := fun _ : string => inr {| d_vertices := Some demo_dataset |} in
  let out := import_skin_weights kd_find_scan "w.json" "POSITION" (Some demo_object) load in
  ∃ obj', object_after out = Some obj' ∧
          import_skin_weights kd_find_scan "w.json" "POSITION" (Some obj') load = out.
Proof.
  cbv zeta.
  destruct (object_after
              (import_skin_weights kd_find_scan "w.json" "POSITION" (Some demo_object)
                 (fun _ => inr {| d_vertices := Some demo_dataset |}))) as [obj'|] eqn:Hobj;
    [|vm_compute in Hobj; discriminate].
  exists obj'. split; [done|].
  apply (import_twice kd_find_scan "w.json" "POSITION" demo_object obj').
  - vm_compute. reflexivity.
  - exact Hobj.
  - apply NoDup_ListNoDup. repeat constructor; cbn; lia.
  - intros doc vertices_data [= <-] [= <-] r Hr.
    repeat (apply elem_of_cons in Hr as [->|Hr]); cbn;
      try (apply NoDup_ListNoDup; repeat constructor; cbn; tauto).
    by apply elem_of_nil in Hr.
Defined.

(** ** What each mode reads of a record *)

Lemma py_getitem_fmap {A B : Type} (f : A → B) (xs : list A) (i : Z) :
  py_getitem (f <$> xs) i
  = match py_getitem xs i with
    | Return x => Return (f x)
    | Raise e => Raise e
    end.
Proof.
  unfold py_getitem. rewrite length_fmap. destruct (_ <? 0)%Z; [done|].
  rewrite list_lookup_fmap. by destruct (xs !! _).
Qed.

Lemma kd_insert_all_same_co (f : VertexData → VertexData) (vs : list VertexData) :
  (∀ r, d_co (f r) = d_co r) →
  ∀ i tree, kd_insert_all i (f <$> vs) tree = kd_insert_all i vs tree.
Proof.
  intros Hf. induction vs as [|v rest IH]; intros i tree; [done|].
  cbn [fmap list_fmap kd_insert_all]. rewrite Hf.
  destruct (d_co v) as [[|x [|y [|z [|? ?]]]]|]; first [done|apply IH].
Qed.

Section ModeReads.

Variable kd_find : kd_points → Vector3 → option (Vector3 * nat).

Lemma vertex_items_fmap (f : VertexData → VertexData) (mapping_mode : string)
    (old_tree : kd_points) (vertices_data : list VertexData) (obj : Object)
    (vert : MeshVertex) :
  (∀ r, record_items (f r) = record_items r) →
  (mapping_mode = "UV" → ∀ r, get_uv (f r) = get_uv r) →
  vertex_items kd_find mapping_mode old_tree (f <$> vertices_data) obj vert
  = vertex_items kd_find mapping_mode old_tree vertices_data obj vert.
Proof.
  intros Hitems Huv. unfold vertex_items, matched_record.
  destruct (String.eqb mapping_mode "POSITION").
  - destruct (kd_find old_tree (co vert)) as [[p i]|]; [|done].
    rewrite py_getitem_fmap. destruct (py_getitem vertices_data _); [|done].
    cbn. by rewrite Hitems.
  - destruct (String.eqb_spec mapping_mode "UV") as [Hmode|_]; [|done].
    rewrite find_closest_uv_match_same_uv by auto.
    destruct (find_closest_uv_match obj vert vertices_data) as [i|]; [|done].
    cbn [mbind result_bind]. destruct (i =? -1)%Z; [done|].
    rewrite py_getitem_fmap. destruct (py_getitem vertices_data i); [|done].
    cbn. by rewrite Hitems.
Qed.

Lemma import_loop_fmap (f : VertexData → VertexData) (mapping_mode : string)
    (old_tree : kd_points) (vertices_data : list VertexData) (vs : list MeshVertex) :
  (∀ r, record_items (f r) = record_items r) →
  (mapping_mode = "UV" → ∀ r, get_uv (f r) = get_uv r) →
  ∀ obj, import_loop kd_find mapping_mode old_tree (f <$> vertices_data) vs obj
         = import_loop kd_find mapping_mode old_tree vertices_data vs obj.
Proof.
  intros Hw Huv. induction vs as [|vert rest IH]; intros obj; [done|].
  cbn [import_loop]. rewrite !import_vertex_items, vertex_items_fmap by done.
  destruct (vertex_items _ _ _ _ _ _); [apply IH|done].
Qed.

Lemma import_skin_weights_fmap (f : VertexData → VertexData)
    (filepath mapping_mode : string) (context_object : option Object)
    (load : string → string + Document) :
  (∀ r, record_items (f r) = record_items r) →
  (mapping_mode = "UV" → ∀ r, get_uv (f r) = get_uv r) →
  (mapping_mode = "POSITION" → ∀ r, d_co (f r) = d_co r) →
  import_skin_weights kd_find filepath mapping_mode context_object
    (fun p => map_records f (load p))
  = import_skin_weights kd_find filepath mapping_mode context_object load.
Proof.
  intros Hw Huv Hco. unfold import_skin_weights.
  destruct filepath as [|a filepath]; [done|].
  destruct context_object as [obj|]; [|done].
  destruct (negb _); [done|].
  destruct (load (String a filepath)) as [e|doc]; [done|]. cbn [map_records d_vertices].
  destruct (d_vertices doc) as [[|v vs]|]; [done| |done].
  cbn [fmap list_fmap]. change (f v :: (f <$> vs)) with (f <$> v :: vs).
  destruct (String.eqb_spec mapping_mode "POSITION") as [Hmode|_].
  - rewrite kd_insert_all_same_co by auto.
    destruct (kd_insert_all 0 (v :: vs) []) as [old_tree|]; [|done].
    by rewrite import_loop_fmap.
  - by rewrite import_loop_fmap.
Qed.

End ModeReads.

(** X4: an import in UV mode never reads the ["co"] of a record, and an
    import in Position mode never reads its ["uv"]: with that member
    removed from every record of the loaded document the import ends the
    same way, with the same object and the same messages. In particular a
    file without positions can be imported in UV mode. *)
Theorem import_reads_only_its_key
    (kd_find : kd_points → Vector3 → option (Vector3 * nat))
    (filepath : string) (context_object : option Object)
    (load : string → string + Document) :
  import_skin_weights kd_find filepath "UV" context_object
    (fun p => map_records erase_co (load p))
  = import_skin_weights kd_find filepath "UV" context_object load ∧
  import_skin_weights kd_find filepath "POSITION" context_object
    (fun p => map_records erase_uv (load p))
  = import_skin_weights kd_find filepath "POSITION" context_object load.
Proof.
  split; by apply import_skin_weights_fmap.
Qed.

(** ** Records that lack a member *)



(** ** A record without position in Position mode *)

Lemma kd_insert_all_missing_co (pre post : list VertexData) (r : VertexData) :
  Forall has_position pre → d_co r = None →
  ∀ i tree, kd_insert_all i (pre ++ r :: post) tree = Raise (KeyError "co").
Proof.
  intros Hpre Hr. induction Hpre as [|v pre (x & y & z & Hco) _ IH]; intros i tree.
  - cbn. by rewrite Hr.
  - cbn [app kd_insert_all]. rewrite Hco. apply IH.
Qed.

(** X5: in Position mode the tree is built from every record before any
    vertex is treated, so a dataset in which some record has no ["co"]
    (the records before it having theirs) makes the import raise
    [KeyError('co')] with the object untouched and nothing printed,
    however many of the other records could have been matched. *)
Theorem position_import_missing_co
    (kd_find : kd_points → Vector3 → option (Vector3 * nat))
    (filepath : string) (obj : Object) (load : string → string + Document)
    (doc : Document) (pre post : list VertexData) (r : VertexData) :
  filepath ≠ EmptyString → type obj = "MESH" →
  load filepath = inr doc → d_vertices doc = Some (pre ++ r :: post) →
  Forall has_position pre → d_co r = None →
  import_skin_weights kd_find filepath "POSITION" (Some obj) load
  = {| object_after := Some obj; import_events := [];
       import_raised := Some (KeyError "co") |}.
Proof.
  intros Hpath Htype Hload Hdoc Hpre Hr.
  rewrite (import_skin_weights_run kd_find _ _ _ _ doc (pre ++ r :: post)); try done.
  - replace (String.eqb "POSITION" "POSITION") with true by done.
    by rewrite kd_insert_all_missing_co.
  - by destruct pre.
Qed.

(** The hypotheses of X5 hold of [demo_dataset] with the position of its
    last record removed. *)
Lemma position_import_missing_co_witness :
  import_skin_weights kd_find_scan "w.json" "POSITION" (Some demo_object)
    (fun _ => inr {| d_vertices :=
                       Some (take 2 demo_dataset
                             ++ {| d_co := None; d_uv := None; d_weights := None |} :: []) |})
  = {| object_after := Some demo_object; import_events := [];
       import_raised := Some (KeyError "co") |}.
Proof.
  eapply (position_import_missing_co kd_find_scan "w.json" demo_object); try done.
  repeat constructor; by eexists _, _, _.
Defined.

(** ** Export followed by import in UV mode *)

Lemma get_uv_coords_data (obj obj' : Object) (k : nat) :
  data obj = data obj' → get_uv_coords obj k = get_uv_coords obj' k.
Proof. unfold get_uv_coords. by intros ->. Qed.

Lemma vertex_uv_data (obj obj' : Object) (k : nat) :
  data obj = data obj' → vertex_uv obj k = vertex_uv obj' k.
Proof. unfold vertex_uv. by intros ->. Qed.

Lemma float32_max_nonneg : 0 <= float32_max.
Proof. apply Qle_bool_imp_le. vm_compute. reflexivity. Qed.

Lemma float32_squares : 8 * float32_max * float32_max <= float_max.
Proof. apply Qle_bool_imp_le. vm_compute. reflexivity. Qed.

Lemma arithmetic_mean_between (lo hi : Q) (xs : list Q) :
  xs ≠ [] → Forall (fun x => lo <= x ∧ x <= hi) xs →
  lo <= arithmetic_mean xs ∧ arithmetic_mean xs <= hi.
Proof.
  intros Hne Hxs. destruct (mean_between lo hi xs xs Hne eq_refl Hxs) as [Hlo Hhi].
  rewrite py_sum_fold_right in Hlo, Hhi. by split.
Qed.

(** The UV of a vertex of a mesh with single-precision UVs is within their
    range. *)
Lemma vertex_uv_float32 (obj : Object) (k : nat) :
  float32_uvs (data obj) →
  (- float32_max <= (vertex_uv obj k).1 ∧ (vertex_uv obj k).1 <= float32_max) ∧
  (- float32_max <= (vertex_uv obj k).2 ∧ (vertex_uv obj k).2 <= float32_max).
Proof.
  pose proof float32_max_nonneg as Hmax. intros Hrange. unfold vertex_uv.
  destruct (uv_layers_active (data obj)) as [uv_data|] eqn:Hlayer; [|cbn; lra].
  destruct (matching_uvs uv_data (loops (data obj)) k) as [|uv uvs] eqn:Hm; [cbn; lra|].
  assert (Hin : ∀ p, p ∈ uv :: uvs → p ∈ uv_data).
  { intros p Hp. rewrite <- Hm in Hp. unfold matching_uvs in Hp.
    apply list_elem_of_omap in Hp as (l & _ & Hl). by eapply list_elem_of_lookup_2. }
  cbn [fst snd]. split.
  - apply arithmetic_mean_between; [done|]. apply Forall_forall. intros x Hx.
    apply list_elem_of_fmap in Hx as (p & -> & Hp).
    destruct (Hrange uv_data p Hlayer (Hin p Hp)) as [[? ?] _]. by split.
  - apply arithmetic_mean_between; [done|]. apply Forall_forall. intros x Hx.
    apply list_elem_of_fmap in Hx as (p & -> & Hp).
    destruct (Hrange uv_data p Hlayer (Hin p Hp)) as [_ [? ?]]. by split.
Qed.

Lemma sq_dist_2d_bound (bound : Q) (a b : Vector2) :
  (- bound <= a.1 ∧ a.1 <= bound) ∧ (- bound <= a.2 ∧ a.2 <= bound) →
  (- bound <= b.1 ∧ b.1 <= bound) ∧ (- bound <= b.2 ∧ b.2 <= bound) →
  sq_dist_2d a b <= 8 * bound * bound.
Proof.
  intros [[Ha1 Ha2] [Ha3 Ha4]] [[Hb1 Hb2] [Hb3 Hb4]]. unfold sq_dist_2d.
  assert (Hsq : ∀ z, - (2 * bound) <= z → z <= 2 * bound → z * z <= 4 * bound * bound).
  { intros z Hlo Hhi.
    assert (Hprod : 0 <= (2 * bound - z) * (2 * bound + z)).
    { apply Qmult_le_0_compat; lra. }
    assert (Heq : (2 * bound - z) * (2 * bound + z) == 4 * bound * bound - z * z) by ring.
    rewrite Heq in Hprod. lra. }
  pose proof (Hsq (a.1 - b.1) ltac:(lra) ltac:(lra)).
  pose proof (Hsq (a.2 - b.2) ltac:(lra) ltac:(lra)).
  lra.
Qed.

(** Between the UVs of two vertices of a mesh with single-precision UVs the
    squared distance is a double. *)
Lemma vertex_uv_distance (obj : Object) (k k' : nat) (uv : Vector2) :
  float32_uvs (data obj) → same_uv_2d uv (vertex_uv obj k') →
  sq_dist_2d (vertex_uv obj k) uv <= float_max.
Proof.
  intros Hrange [Hu Hv].
  pose proof (vertex_uv_float32 obj k Hrange) as Hk.
  pose proof (vertex_uv_float32 obj k' Hrange) as Hk'.
  apply Qle_trans with (8 * float32_max * float32_max); [|apply float32_squares].
  apply sq_dist_2d_bound; [done|]. rewrite Hu, Hv. done.
Qed.

Lemma import_loop_import_groups
    (kd_find : kd_points → Vector3 → option (Vector3 * nat))
    (mapping_mode : string) (old_tree : kd_points) (vertices_data : list VertexData)
    (src : Object) (vs : list MeshVertex) :
  (∀ obj vert, data obj = data src → vert ∈ vs →
     import_vertex kd_find mapping_mode old_tree vertices_data obj vert
     = Return (set_vertex_groups obj
                 (fold_left (apply_weight (index vert))
                    (omap (group_entry (index vert)) (vertex_groups src))
                    (vertex_groups obj)))) →
  ∀ obj, data obj = data src →
         import_loop kd_find mapping_mode old_tree vertices_data vs obj
         = (set_vertex_groups obj
              (import_groups (vertex_groups src) vs (vertex_groups obj)), None).
Proof.
  induction vs as [|vert rest IH]; intros Hbody obj Hdata; cbn [import_loop].
  - by rewrite set_vertex_groups_id.
  - rewrite Hbody by (done || left).
    rewrite IH; [done| |done].
    intros obj' vert' Hdata' Hvert'. apply Hbody; [done|by right].
Qed.

Section UVRoundTrip.

Variable kd_find : kd_points → Vector3 → option (Vector3 * nat).
Variable src : Object.
Variable rs : list VertexData.
Hypothesis names_distinct : NoDup (name <$> vertex_groups src).
Hypothesis uvs_distinct : unique_uvs src.
Hypothesis uvs_single : float32_uvs (data src).
Hypothesis exported :
  Forall2 (fun v r => vertex_record src v = Return r) (vertices (data src)) rs.

(** The UV of an exported record is the UV of its vertex. *)
Lemma exported_record_uv (i : nat) (v : MeshVertex) (r : VertexData) :
  vertices (data src) !! i = Some v → rs !! i = Some r →
  ∃ t a b, get_uv_coords src (index v) = Return t ∧ or_default t = [a; b] ∧
           d_uv r = Some [Fin a; Fin b] ∧ record_uv_2d r = (a, b) ∧
           same_uv_2d (a, b) (vertex_uv src (index v)).
Proof.
  intros Hv Hr.
  destruct (Forall2_lookup_l _ _ _ _ _ exported Hv) as (r' & Hr' & Hrec).
  assert (r' = r) as -> by congruence.
  pose proof (vertex_record_inv _ _ _ Hrec) as (t & ws & Ht & _ & ->).
  destruct (get_uv_coords_vertex_uv _ _ _ Ht) as (a & b & Hdef & _ & Hsame & _).
  exists t, a, b. unfold record_uv_2d. cbn [d_uv]. by rewrite Hdef.
Qed.

Lemma exported_two_floats : uv_two_floats rs.
Proof.
  intros r uv [i Hr]%list_elem_of_lookup Huv.
  destruct (Forall2_lookup_r _ _ _ _ _ exported Hr) as (v & Hv & _).
  destruct (exported_record_uv i v r Hv Hr) as (t & a & b & _ & _ & Hd & _).
  rewrite Hd in Huv. injection Huv as <-. eauto.
Qed.

Lemma exported_in_range (obj : Object) (k : nat) :
  data obj = data src → distances_in_range (vertex_uv obj k) rs.
Proof.
  intros Hdata r [i Hr]%list_elem_of_lookup.
  destruct (Forall2_lookup_r _ _ _ _ _ exported Hr) as (v & Hv & _).
  destruct (exported_record_uv i v r Hv Hr) as (t & a & b & _ & _ & _ & -> & Hsame).
  rewrite (vertex_uv_data obj src k Hdata).
  by apply (vertex_uv_distance src k (index v)).
Qed.

(** A vertex of the exported mesh is matched with its own record: that
    record is at distance zero, and no other UV is. *)
Lemma import_vertex_uv_own_record (old_tree : kd_points) (obj : Object)
    (vert : MeshVertex) :
  data obj = data src → vert ∈ vertices (data src) →
  import_vertex kd_find "UV" old_tree rs obj vert
  = Return (set_vertex_groups obj
              (fold_left (apply_weight (index vert))
                 (omap (group_entry (index vert)) (vertex_groups src))
                 (vertex_groups obj))).
Proof.
  intros Hdata [k Hk]%list_elem_of_lookup.
  destruct (Forall2_lookup_l _ _ _ _ _ exported Hk) as (rk & Hrk & Hrec).
  destruct (exported_record_uv k vert rk Hk Hrk)
    as (tk & a & b & Htk & Hab & _ & Huvk & Hsamek).
  assert (Hne : rs ≠ []) by (intros ->; by rewrite lookup_nil in Hrk).
  assert (Htk' : get_uv_coords obj (index vert) = Return tk)
    by (by rewrite (get_uv_coords_data obj src)).
  destruct (find_closest_uv_match_first_min obj vert rs tk Htk' Hne exported_two_floats
              (exported_in_range obj (index vert) Hdata))
    as (i & r & Hfind & Hr & _ & Hmin).
  unfold import_vertex.
  replace (String.eqb "UV" "POSITION") with false by done.
  replace (String.eqb "UV" "UV") with true by done.
  rewrite Hfind. cbn [mbind result_bind].
  replace (Z.of_nat i =? -1)%Z with false by (symmetry; apply Z.eqb_neq; lia).
  rewrite (apply_closest_items rs obj vert _ r) by (by apply py_getitem_nat).
  destruct (Forall2_lookup_r _ _ _ _ _ exported Hr) as (vi & Hvi & Hreci).
  destruct (exported_record_uv i vi r Hvi Hr)
    as (ti & c & d & Hti & Hcd & _ & Huvi & Hsamei).
  specialize (Hmin k rk Hrk).
  rewrite (vertex_uv_data obj src _ Hdata), Huvk, Huvi in Hmin.
  rewrite (sq_dist_2d_self (vertex_uv src (index vert)) (a, b)) in Hmin
    by (destruct Hsamek; by split).
  apply sq_dist_2d_zero in Hmin as [Hac Hbd]. destruct Hsamek as [Ha Hb].
  cbn [fst snd] in *.
  assert (k = i) as <-.
  { apply (uvs_distinct k i vert vi tk ti); try done.
    rewrite Hab, Hcd. repeat constructor; [by rewrite Ha|by rewrite Hb]. }
  assert (r = rk) as -> by congruence.
  by rewrite (vertex_record_items src vert rk).
Qed.

End UVRoundTrip.


Lemma demo_uvs_distinct : unique_uvs demo_object.
Proof.
  intros i j v w ti tj Hi Hj Hti Htj Hsame.
  destruct i as [|[|[|i]]], j as [|[|[|j]]]; cbn in Hi, Hj; try done;
    injection Hi as <-; injection Hj as <-;
    vm_compute in Hti, Htj; injection Hti as <-; injection Htj as <-;
    inversion Hsame as [|? ? ? ? Hq Hrest]; subst;
    inversion Hrest as [|? ? ? ? Hq' _]; subst;
    vm_compute in Hq, Hq'; discriminate.
Qed.

Lemma demo_uvs_single : float32_uvs (data demo_object).
Proof.
  intros uv_data uv [= <-] Huv.
  repeat (apply elem_of_cons in Huv as [->|Huv]); [..|by apply elem_of_nil in Huv];
    repeat split; apply Qle_bool_imp_le; vm_compute; reflexivity.
Qed.


(** ** UV mode on a mesh without UV layer *)

Lemma loop_groups_ext (items_of items_of' : MeshVertex → result (dict float))
    (vs : list MeshVertex) :
  (∀ v, v ∈ vs → items_of v = items_of' v) →
  ∀ groups, loop_groups items_of vs groups = loop_groups items_of' vs groups.
Proof.
  induction vs as [|vert rest IH]; intros Hext groups; [done|]. cbn [loop_groups].
  rewrite <- (Hext vert) by left. destruct (items_of vert); [|done].
  apply IH. intros v Hv. apply Hext. by right.
Qed.

Lemma loop_groups_const_ok (items : dict float) (vs : list MeshVertex) :
  ∀ groups, (loop_groups (fun _ => Return items) vs groups).2 = None.
Proof. induction vs as [|vert rest IH]; intros groups; [done|]. apply IH. Qed.


Lemma demo_dataset_keys : distinct_keys demo_dataset.
Proof.
  intros r Hr.
  repeat (apply elem_of_cons in Hr as [->|Hr]); cbn;
    try (apply NoDup_ListNoDup; repeat constructor; cbn; tauto).
  by apply elem_of_nil in Hr.
Qed.


(** ** What the exporter writes and what it leaves *)

(** X8: an export touches no file but the one at [filepath], and of the
    files that were there before only one thing matters to it, whether
    [filepath] can be opened for writing: run on another store that agrees
    on that, it shows the same events, raises the same exception if any,
    and either both runs leave their stores as they were or both leave the
    same content at [filepath]. *)
Theorem export_touches_one_file (filepath : string) (context_object : option Object)
    (files : gmap string node) :
  (∀ p, p ≠ filepath →
     files_after (export_skin_weights filepath context_object files) !! p = files !! p) ∧
  (∀ files',
     (files' !! filepath = Some Refused ↔ files !! filepath = Some Refused) →
     export_events (export_skin_weights filepath context_object files')
       = export_events (export_skin_weights filepath context_object files) ∧
     export_raised (export_skin_weights filepath context_object files')
       = export_raised (export_skin_weights filepath context_object files) ∧
     ((files_after (export_skin_weights filepath context_object files) = files ∧
       files_after (export_skin_weights filepath context_object files') = files') ∨
      (is_Some (files_after (export_skin_weights filepath context_object files)
                  !! filepath) ∧
       files_after (export_skin_weights filepath context_object files') !! filepath
       = files_after (export_skin_weights filepath context_object files) !! filepath))).
Proof.
  unfold export_skin_weights.
  destruct filepath as [|a filepath]; [by split; [|split; [|split; [|left]]]|].
  destruct context_object as [obj|]; [|by split; [|split; [|split; [|left]]]].
  destruct (negb _); [by split; [|split; [|split; [|left]]]|].
  destruct (length (vertices (data obj)) =? 0)%nat;
    [by split; [|split; [|split; [|left]]]|].
  split.
  - intros p Hp.
    destruct (files !! String a filepath) as [[content|]|]; [|done|];
      destruct (export_loop _ _ _ _ _ _ _) as [st [e|]]; cbn [files_after];
      by rewrite lookup_insert_ne.
  - intros files' Hopen.
    destruct (files !! String a filepath) as [[content|]|] eqn:Hnode,
             (files' !! String a filepath) as [[content'|]|] eqn:Hnode';
      try (destruct Hopen as [Hopen1 Hopen2];
           first [by specialize (Hopen1 eq_refl)|by specialize (Hopen2 eq_refl)]);
      try (by split; [|split; [|left]]);
      destruct (export_loop _ _ _ _ _ _ _) as [st [e|]];
      cbn [files_after export_events export_raised];
      (split; [done|]); (split; [done|]); right; rewrite !lookup_insert_eq; eauto.
Qed.

(** The file ["other.json"] is not the file ["w.json"] the export of
    [demo_object] writes. *)
Lemma export_touches_one_file_witness :
  files_after (export_skin_weights "w.json" (Some demo_object)
                 {[ "other.json" := File [Write "kept"] ]}) !! "other.json"
  = Some (File [Write "kept"]).
Proof.
  rewrite (proj1 (export_touches_one_file "w.json" (Some demo_object)
                    {[ "other.json" := File [Write "kept"] ]}) "other.json");
    [|done]. vm_compute. reflexivity.
Defined.

(** X9: in the document a successful export leaves, the record of a vertex
    has a ["weights"] dictionary with pairwise distinct keys that contains
    the name of every group in which the vertex has a strictly positive
    weight; when the groups have distinct names it lists exactly the
    positive weights of the vertex, in the order of the groups. *)
Theorem exported_weights_complete (filepath : string) (obj : Object)
    (files : gmap string node) (doc : Document) (records : list VertexData)
    (i : nat) (vert : MeshVertex) (r : VertexData) :
  let out := export_skin_weights filepath (Some obj) files in
  print ExportSuccessful ∈ export_events out →
  open_json_load (files_after out) filepath = inr doc →
  d_vertices doc = Some records →
  vertices (data obj) !! i = Some vert → records !! i = Some r →
  ∃ ws, d_weights r = Some ws ∧ NoDup ws.*1 ∧
        (∀ g w, g ∈ vertex_groups obj → members g !! index vert = Some w → 0 < w →
                name g ∈ ws.*1) ∧
        (NoDup (name <$> vertex_groups obj) →
         ws = omap (group_entry (index vert)) (vertex_groups obj)).
Proof.
  intros out Hok Hload Hdoc Hvert Hr.
  destruct (export_successful_records _ _ _ Hok) as (rs & Hrs & Hfiles).
  subst out. unfold open_json_load in Hload.
  rewrite Hfiles, lookup_insert_eq, json_load_document_text in Hload.
  injection Hload as <-. cbn in Hdoc. injection Hdoc as <-.
  destruct (Forall2_lookup_l _ _ _ _ _ Hrs Hvert) as (r' & Hr' & Hrec).
  assert (r' = r) as -> by congruence.
  pose proof (vertex_record_inv _ _ _ Hrec) as (t & ws & _ & Hws & ->).
  exists ws. split; [done|].
  destruct (collect_weights_keys _ _ _ _ Hws) as (Hnd & _ & Hall); [constructor|].
  split; [done|]. split; [done|].
  intros Hnames. rewrite collect_weights_omap in Hws; [|done|by intros g _ ?%elem_of_nil].
  by injection Hws.
Qed.

(** The hypotheses of X9 hold of the export of [demo_object] and its
    second vertex, whose zero weight in ["Arm"] is left out. *)
Lemma exported_weights_complete_witness :
  ∃ ws, d_weights {| d_co := Some [1; 0; 0]; d_uv := Some [Fin (1 # 3); Fin (1 # 4)];
                     d_weights := Some [("Leg", 7 # 10)] |} = Some ws ∧
        NoDup ws.*1 ∧
        (∀ g w, g ∈ vertex_groups demo_object → members g !! 1%nat = Some w → 0 < w →
                name g ∈ ws.*1) ∧
        (NoDup (name <$> vertex_groups demo_object) →
         ws = omap (group_entry 1) (vertex_groups demo_object)).
Proof.
  eapply (exported_weights_complete "w.json" demo_object ∅ _ _ 1%nat
            {| index := 1; co := (1, 0, 0) |}).
  - vm_compute. do 8 apply list_elem_of_further. apply list_elem_of_here.
  - vm_compute. reflexivity.
  - reflexivity.
  - reflexivity.
  - reflexivity.
Defined.

(** ** The averaged UV stays among the loops' UVs *)

Lemma collect_uvs_from (uv_data : list Vector2) (ls : list MeshLoop) (k : nat) :
  ∀ uvs, collect_uvs uv_data ls k = Return uvs →
         ∀ p, p ∈ uvs → ∃ l, l ∈ ls ∧ vertex_index l = k ∧
                             uv_data !! loop_index l = Some p.
Proof.
  induction ls as [|l ls IH]; intros uvs; cbn [collect_uvs].
  - intros [= <-] p Hp. by apply elem_of_nil in Hp.
  - destruct (Nat.eqb_spec (vertex_index l) k) as [Hk|Hk].
    + destruct (uv_data !! loop_index l) as [uv|] eqn:Huv; [|done].
      destruct (collect_uvs uv_data ls k) as [uvs'|] eqn:Hrest; [|done].
      cbn. intros [= <-] p [->|Hp]%elem_of_cons.
      * exists l. split; [left|done].
      * destruct (IH uvs' eq_refl p Hp) as (l' & Hl' & Hk' & Hp').
        exists l'. split; [by right|done].
    + intros Hrest p Hp. destruct (IH uvs Hrest p Hp) as (l' & Hl' & Hk' & Hp').
      exists l'. split; [by right|done].
Qed.

(** X10: the averaged UV of a vertex lies in every box that contains the
    UVs of all the loops of that vertex; in particular a vertex all of
    whose loops carry one and the same UV, as every vertex away from a seam
    does, gets that UV. *)
Theorem get_uv_coords_in_box (obj : Object) (vert_index : nat) (u v : Q)
    (uv_data : list Vector2) :
  get_uv_coords obj vert_index = Return (Some [u; v]) →
  uv_layers_active (data obj) = Some uv_data →
  (∀ lo1 hi1 lo2 hi2,
     (∀ l p, l ∈ loops (data obj) → vertex_index l = vert_index →
             uv_data !! loop_index l = Some p →
             (lo1 <= p.1 ∧ p.1 <= hi1) ∧ (lo2 <= p.2 ∧ p.2 <= hi2)) →
     (lo1 <= u ∧ u <= hi1) ∧ (lo2 <= v ∧ v <= hi2)) ∧
  (∀ a b,
     (∀ l p, l ∈ loops (data obj) → vertex_index l = vert_index →
             uv_data !! loop_index l = Some p → p.1 == a ∧ p.2 == b) →
     u == a ∧ v == b).
Proof.
  intros Hget Hlayer.
  assert (Hbox : ∀ lo1 hi1 lo2 hi2,
     (∀ l p, l ∈ loops (data obj) → vertex_index l = vert_index →
             uv_data !! loop_index l = Some p →
             (lo1 <= p.1 ∧ p.1 <= hi1) ∧ (lo2 <= p.2 ∧ p.2 <= hi2)) →
     (lo1 <= u ∧ u <= hi1) ∧ (lo2 <= v ∧ v <= hi2)).
  { intros lo1 hi1 lo2 hi2 Hin. unfold get_uv_coords in Hget. rewrite Hlayer in Hget.
    destruct (collect_uvs uv_data (loops (data obj)) vert_index) as [uvs|] eqn:Huvs;
      [|done].
    destruct uvs as [|p uvs]; [done|].
    cbn [mbind result_bind map zip_star] in Hget. injection Hget as <- <-.
    pose proof (collect_uvs_from _ _ _ _ Huvs) as Hfrom.
    split.
    - apply (mean_between lo1 hi1 (map fst (p :: uvs)) (p :: uvs));
        [done|by rewrite length_map|].
      apply Forall_forall. intros x Hx.
      apply list_elem_of_fmap in Hx as (q & -> & Hq).
      destruct (Hfrom q Hq) as (l & Hl & Hk & Hp). by apply (Hin l q).
    - apply (mean_between lo2 hi2 (map snd (p :: uvs)) (p :: uvs));
        [done|by rewrite length_map|].
      apply Forall_forall. intros x Hx.
      apply list_elem_of_fmap in Hx as (q & -> & Hq).
      destruct (Hfrom q Hq) as (l & Hl & Hk & Hp). by apply (Hin l q). }
  split; [exact Hbox|].
  intros a b Hsame. destruct (Hbox a a b b) as [[Hu1 Hu2] [Hv1 Hv2]].
  - intros l p Hl Hk Hp. destruct (Hsame l p Hl Hk Hp) as [Ha Hb].
    rewrite Ha, Hb. repeat split; apply Qle_refl.
  - split; by apply Qle_antisym.
Qed.

(** Vertex 0 of [demo_object] has the loop UVs (0,0) and (1,1): its
    averaged UV lies in the unit square. *)
Lemma get_uv_coords_in_box_witness :
  (0 <= 1 # 2 ∧ 1 # 2 <= 1) ∧ (0 <= 1 # 2 ∧ 1 # 2 <= 1).
Proof.
  apply (proj1 (get_uv_coords_in_box demo_object 0 (1 # 2) (1 # 2)
                  [(0, 0); (1 # 3, 1 # 4); (1, 1)] eq_refl eq_refl) 0 1 0 1).
  intros l p Hl Hk Hp.
  repeat (apply elem_of_cons in Hl as [->|Hl]); cbn in Hk, Hp; try done;
    try (injection Hp as <-; cbn; repeat split; done).
  by apply elem_of_nil in Hl.
Defined.

(** ** The operators *)

(** X11: the import operator reports success when nothing was imported.
    On a mesh object and a non-empty path, a file that does not load, or a
    document whose array of vertices is missing or empty, makes the core
    function print its error and return; the operator then returns
    [{'FINISHED'}] with the INFO report of a successful import, the object
    being unchanged. *)
Theorem import_operator_reports_success
    (kd_find : kd_points → Vector3 → option (Vector3 * nat))
    (filepath mapping_mode : string) (obj : Object)
    (load : string → string + Document) :
  filepath ≠ EmptyString → type obj = "MESH" →
  (∀ e, load filepath = inl e →
     ImportSkinWeights.execute kd_find filepath mapping_mode (Some obj) load
     = {| import_result := FINISHED;
          import_reports := [(INFO, ImportedSuccessfully)];
          import_object := Some obj;
          import_console := [print (ImportFailed e)] |}) ∧
  (∀ doc, load filepath = inr doc → d_vertices doc = None ∨ d_vertices doc = Some [] →
     ImportSkinWeights.execute kd_find filepath mapping_mode (Some obj) load
     = {| import_result := FINISHED;
          import_reports := [(INFO, ImportedSuccessfully)];
          import_object := Some obj;
          import_console := [print NoValidVertexData] |}).
Proof.
  intros Hpath Htype. split.
  - intros e Hload.
    destruct (import_load_failure kd_find filepath mapping_mode (Some obj) load e Hload)
      as (m & Hout & _ & Hm).
    rewrite (Hm Hpath ltac:(by exists obj)) in Hout.
    unfold ImportSkinWeights.execute. rewrite Htype, Hout.
    by destruct filepath.
  - intros doc Hload Hempty.
    destruct (import_empty_dataset kd_find filepath mapping_mode (Some obj) load doc
                Hload Hempty) as (m & Hout & _ & Hm).
    rewrite (Hm Hpath ltac:(by exists obj)) in Hout.
    unfold ImportSkinWeights.execute. rewrite Htype, Hout.
    by destruct filepath.
Qed.

(** The hypotheses of X11 hold of [demo_object] and a file that is not
    there. *)
Lemma import_operator_reports_success_witness :
  ImportSkinWeights.execute kd_find_scan "w.json" "POSITION" (Some demo_object)
    (fun _ => inl "FileNotFoundError")
  = {| import_result := FINISHED;
       import_reports := [(INFO, ImportedSuccessfully)];
       import_object := Some demo_object;
       import_console := [print (ImportFailed "FileNotFoundError")] |}.
Proof.
  by apply (proj1 (import_operator_reports_success kd_find_scan "w.json" "POSITION"
                     demo_object (fun _ => inl "FileNotFoundError")
                     ltac:(done) eq_refl)).
Defined.

(** X12: the export operator reports success when nothing was written.  On
    a mesh object without vertices and a non-empty path the core function
    prints that no vertices were found and returns; the operator then
    returns [{'FINISHED'}] with the INFO report of a successful export, and
    no file has been created or changed. *)
Theorem export_operator_reports_success (filepath : string) (obj : Object)
    (files : gmap string node) :
  filepath ≠ EmptyString → type obj = "MESH" → vertices (data obj) = [] →
  ExportSkinWeights.execute filepath (Some obj) files
  = {| export_result := FINISHED;
       export_reports := [(INFO, ExportedSuccessfully)];
       export_files := files;
       export_console := [print NoVerticesFound] |}.
Proof.
  intros Hpath Htype Hverts.
  destruct (export_empty_mesh filepath obj files Hverts) as (m & Hout & _ & Hm).
  rewrite (Hm Hpath Htype) in Hout.
  unfold ExportSkinWeights.execute. rewrite Htype, Hout. by destruct filepath.
Qed.

(** The hypotheses of X12 hold of [empty_object]. *)
Lemma export_operator_reports_success_witness :
  ExportSkinWeights.execute "w.json" (Some empty_object) ∅
  = {| export_result := FINISHED;
       export_reports := [(INFO, ExportedSuccessfully)];
       export_files := ∅;
       export_console := [print NoVerticesFound] |}.
Proof. by apply (export_operator_reports_success "w.json" empty_object ∅). Defined.

Lemma kd_insert_all_outcome (vs : list VertexData) :
  ∀ i tree,
    (Forall has_position vs ∧
     kd_insert_all i vs tree
     = Return (tree ++ imap (fun k r => (record_position r, (i + k)%nat)) vs)) ∨
    kd_insert_all i vs tree = Raise (KeyError "co") ∨
    kd_insert_all i vs tree = Raise ValueError.
Proof.
  induction vs as [|v rest IH]; intros i tree.
  { left. split; [constructor|]. cbn. by rewrite app_nil_r. }
  assert (Hcases : has_position v ∨ d_co v = None ∨
                   (∃ l, d_co v = Some l ∧ ∀ x y z, l ≠ [x; y; z])).
  { unfold has_position. destruct (d_co v) as [[|x [|y [|z [|? ?]]]]|]; eauto;
      right; right; eexists; (split; [done|]); done. }
  destruct Hcases as [Hv|[Hnone|(l & Hl & Hbad)]].
  - destruct (IH (S i) (tree ++ [(record_position v, i)])) as [[Hrest Hret]|Hraise].
    + left. split; [by constructor|].
      rewrite kd_insert_all_positions by (by constructor). done.
    + right. destruct Hv as (x & y & z & Hco). cbn [kd_insert_all]. rewrite Hco.
      unfold record_position in Hraise. by rewrite Hco in Hraise.
  - right. left. cbn [kd_insert_all]. by rewrite Hnone.
  - right. right. cbn [kd_insert_all]. rewrite Hl.
    destruct l as [|x [|y [|z [|? ?]]]]; try done. by destruct (Hbad x y z).
Qed.

(** On a mesh whose loops have their UV entries the only exception of an
    export is the [OSError] of [open], raised with the progress bar begun
    and nothing written. *)
Lemma export_raised_cases (filepath : string) (context_object : option Object)
    (files : gmap string node) :
  (∀ obj, context_object = Some obj → loops_in_range (data obj)) →
  (export_raised (export_skin_weights filepath context_object files) = None ∧
   (∀ obj, filepath ≠ EmptyString → context_object = Some obj → type obj = "MESH" →
           vertices (data obj) = [] ∨ files !! filepath ≠ Some Refused)) ∨
  (∃ obj, filepath ≠ EmptyString ∧ context_object = Some obj ∧ type obj = "MESH" ∧
          vertices (data obj) ≠ [] ∧ files !! filepath = Some Refused ∧
          export_skin_weights filepath context_object files
          = {| files_after := files;
               export_events := [progress_begin 0 (length (vertices (data obj)))];
               export_raised := Some OSError |}).
Proof.
  intros Hrange.
  destruct (decide (filepath = EmptyString)) as [->|Hpath]; [by left|].
  destruct context_object as [obj|]; cycle 1.
  { left. unfold export_skin_weights. by destruct filepath. }
  destruct (String.eqb_spec (type obj) "MESH") as [Htype|Htype]; cycle 1.
  { left. unfold export_skin_weights. destruct filepath; [done|].
    apply String.eqb_neq in Htype as Htype'. rewrite Htype'. split; [done|].
    intros obj' _ [= <-] ?. done. }
  destruct (decide (vertices (data obj) = [])) as [Hnil|Hverts].
  { left. destruct (export_empty_mesh filepath obj files Hnil) as (m & -> & _).
    split; [done|]. intros obj' _ [= <-] _. by left. }
  destruct (export_skin_weights_run filepath obj files Hpath Htype Hverts)
    as [[Hrefused Hout]|(Hopen & st & oe & Hloop & Hout)].
  - right. by exists obj.
  - left. rewrite Hout.
    destruct (export_loop_total obj (length (vertices (data obj)))
                (Nat.max 1 (length (vertices (data obj)) / 10))
                (Nat.max 1 (length (vertices (data obj)) / 1000))
                (vertices (data obj)) (Hrange obj eq_refl) 0%nat
                {| written := [Write doc_open];
                   shown := [progress_begin 0 (length (vertices (data obj)))] |})
      as [st' Hst'].
    rewrite Hst' in Hloop. injection Hloop as <- <-. split; [done|].
    intros obj' _ [= <-] _. by right.
Qed.

(** With a KD-tree that meets its contract, a mesh whose loops have their
    UV entries and, in UV mode, records with finite UVs within range, the
    only exceptions of an import are those of the tree's construction,
    raised before any vertex is treated. *)
Lemma import_raises_before_loop
    (kd_find : kd_points → Vector3 → option (Vector3 * nat))
    (filepath mapping_mode : string) (context_object : option Object)
    (load : string → string + Document) (e : exn) :
  kd_find_nearest kd_find →
  (∀ obj, context_object = Some obj → loops_in_range (data obj)) →
  (mapping_mode = "UV" →
   ∀ obj doc vertices_data,
     context_object = Some obj → load filepath = inr doc →
     d_vertices doc = Some vertices_data →
     uv_two_floats vertices_data ∧
     ∀ vert, vert ∈ vertices (data obj) →
             distances_in_range (vertex_uv obj (index vert)) vertices_data) →
  import_raised (import_skin_weights kd_find filepath mapping_mode context_object load)
    = Some e →
  object_after (import_skin_weights kd_find filepath mapping_mode context_object load)
    = context_object ∧
  import_events (import_skin_weights kd_find filepath mapping_mode context_object load)
    = [] ∧
  mapping_mode = "POSITION" ∧ (e = KeyError "co" ∨ e = ValueError).
Proof.
  intros Hkd Hrange Hdata Hraised.
  destruct (import_raised_guards kd_find filepath mapping_mode context_object load)
    as [Hnone|(obj & doc & vertices_data & Hpath & -> & Htype & Hload & Hdoc & Hne)].
  { congruence. }
  rewrite (import_skin_weights_run kd_find _ _ _ _ doc vertices_data) in Hraised |- * by done.
  destruct (String.eqb_spec mapping_mode "POSITION") as [->|Hpos].
  - destruct (kd_insert_all_outcome vertices_data 0 []) as [[Hco Hret]|[Hret|Hret]];
      rewrite Hret in Hraised |- *.
    + exfalso.
      destruct (import_loop_position kd_find Hkd vertices_data (vertices (data obj))
                  Hne obj) as [groups Hloop].
      cbn [app] in Hraised. by rewrite Hloop in Hraised.
    + cbn in Hraised. injection Hraised as <-. eauto.
    + cbn in Hraised. injection Hraised as <-. eauto.
  - exfalso. destruct (String.eqb_spec mapping_mode "UV") as [->|Huv].
    + destruct (Hdata eq_refl obj doc vertices_data eq_refl Hload Hdoc) as [Hwf Hin].
      destruct (import_loop_uv kd_find [] vertices_data obj (vertices (data obj))
                  (Hrange obj eq_refl) Hne Hwf Hin (vertex_groups obj)) as [groups Hloop].
      rewrite set_vertex_groups_id in Hloop. by rewrite Hloop in Hraised.
    + by rewrite import_loop_unknown_mode in Hraised.
Qed.

(** X13: a cancelled import has changed nothing.  With a KD-tree that meets
    its contract, a mesh whose loops have their UV entries and, in UV mode,
    records with finite UVs within range, the import operator returns
    [{'CANCELLED'}] only with one ERROR report, an empty console and the
    context object as it was: because no mesh is selected, because no file
    is selected, or because in Position mode a record lacks a position of
    three floats, which is found out before any vertex is treated. *)
Theorem cancelled_import_changes_nothing
    (kd_find : kd_points → Vector3 → option (Vector3 * nat))
    (filepath mapping_mode : string) (context_object : option Object)
    (load : string → string + Document) :
  kd_find_nearest kd_find →
  (∀ obj, context_object = Some obj → loops_in_range (data obj)) →
  (mapping_mode = "UV" →
   ∀ obj doc vertices_data,
     context_object = Some obj → load filepath = inr doc →
     d_vertices doc = Some vertices_data →
     uv_two_floats vertices_data ∧
     ∀ vert, vert ∈ vertices (data obj) →
             distances_in_range (vertex_uv obj (index vert)) vertices_data) →
  let out := ImportSkinWeights.execute kd_find filepath mapping_mode context_object load in
  import_result out = CANCELLED →
  import_object out = context_object ∧ import_console out = [] ∧
  ∃ m, import_reports out = [(ERROR, m)] ∧
       (m = NoValidMeshSelected ∨ m = NoFileSelected ∨
        (mapping_mode = "POSITION" ∧
         (m = ImportFailedWith (KeyError "co") ∨ m = ImportFailedWith ValueError))).
Proof.
  intros Hkd Hrange Hdata out. subst out. unfold ImportSkinWeights.execute.
  destruct context_object as [obj|]; [|by intros _; eauto 10].
  destruct (negb _); [by intros _; eauto 10|].
  destruct filepath as [|a filepath]; [by intros _; eauto 10|].
  destruct (import_raised _) as [e|] eqn:Hraised; [|done]. intros _.
  destruct (import_raises_before_loop kd_find _ _ _ _ e Hkd Hrange Hdata Hraised)
    as (Hobj & Hevents & Hmode & He).
  cbn. split; [done|]. split; [done|]. eexists. split; [done|].
  right. right. split; [done|]. by destruct He as [-> | ->]; [left|right].
Qed.

(** The hypotheses of X13 hold of a dataset whose records have no
    position, imported in Position mode onto [demo_object]. *)
Lemma cancelled_import_changes_nothing_witness :
  let out := ImportSkinWeights.execute kd_find_scan "w.json" "POSITION" (Some demo_object)
               (fun _ => inr {| d_vertices := Some (erase_co <$> demo_dataset) |}) in
  import_object out = Some demo_object ∧ import_console out = [] ∧
  ∃ m, import_reports out = [(ERROR, m)] ∧
       (m = NoValidMeshSelected ∨ m = NoFileSelected ∨
        ("POSITION" = "POSITION" ∧
         (m = ImportFailedWith (KeyError "co") ∨ m = ImportFailedWith ValueError))).
Proof.
  apply (cancelled_import_changes_nothing kd_find_scan "w.json" "POSITION"
           (Some demo_object)
           (fun _ => inr {| d_vertices := Some (erase_co <$> demo_dataset) |})).
  - apply kd_find_scan_nearest.
  - intros obj [= <-]. apply demo_loops_in_range.
  - done.
  - reflexivity.
Defined.

(** X14: a cancelled export has written nothing.  On a mesh whose loops
    have their UV entries the export operator returns [{'CANCELLED'}] only
    with one ERROR report and the files as they were: because no mesh or no
    file is selected, with an empty console, or because the file of a mesh
    with vertices cannot be opened for writing, with the progress bar begun
    and not ended.  In every other case it returns [{'FINISHED'}]. *)
Theorem cancelled_export_writes_nothing (filepath : string)
    (context_object : option Object) (files : gmap string node) :
  (∀ obj, context_object = Some obj → loops_in_range (data obj)) →
  let out := ExportSkinWeights.execute filepath context_object files in
  (export_result out = CANCELLED →
   export_files out = files ∧
   ∃ m, export_reports out = [(ERROR, m)] ∧
        (((m = NoValidMeshSelected ∨ m = NoFileSelected) ∧ export_console out = []) ∨
         (m = ExportFailed OSError ∧ files !! filepath = Some Refused ∧
          ∃ obj, context_object = Some obj ∧ vertices (data obj) ≠ [] ∧
                 export_console out
                 = [progress_begin 0 (length (vertices (data obj)))]))) ∧
  (export_result out = FINISHED ↔
   filepath ≠ EmptyString ∧
   ∃ obj, context_object = Some obj ∧ type obj = "MESH" ∧
          (vertices (data obj) = [] ∨ files !! filepath ≠ Some Refused)).
Proof.
  intros Hrange out. subst out. unfold ExportSkinWeights.execute.
  destruct context_object as [obj|]; cycle 1.
  { split; [by eauto 10|]. split; [done|]. by intros (_ & ? & ? & _). }
  destruct (String.eqb_spec (type obj) "MESH") as [Htype|Htype]; cbn [negb]; cycle 1.
  { split; [by eauto 10|]. split; [done|]. intros (_ & ? & [= <-] & ? & _). done. }
  destruct filepath as [|a filepath].
  { split; [by eauto 10|]. split; [done|]. by intros [? _]. }
  destruct (export_raised_cases (String a filepath) (Some obj) files Hrange)
    as [[Hnone Hopen]|(obj' & _ & [= <-] & _ & Hverts & Hrefused & Hout)].
  - rewrite Hnone. cbn. split; [done|]. split; [|done]. intros _. split; [done|].
    exists obj. split; [done|]. split; [done|]. by apply Hopen.
  - rewrite Hout. cbn. split.
    + intros _. split; [done|]. eexists. split; [done|]. right.
      split; [done|]. split; [done|]. by exists obj.
    + split; [done|]. intros (_ & obj' & [= <-] & _ & [Hnil|Hopen]); done.
Qed.

(** The hypotheses of X14 hold of an export of [demo_object] to a path
    that cannot be opened. *)
Lemma cancelled_export_writes_nothing_witness :
  let files : gmap string node := {[ "w.json" := Refused ]} in
  let out := ExportSkinWeights.execute "w.json" (Some demo_object) files in
  export_files out = files ∧
  ∃ m, export_reports out = [(ERROR, m)] ∧
       (((m = NoValidMeshSelected ∨ m = NoFileSelected) ∧ export_console out = []) ∨
        (m = ExportFailed OSError ∧ files !! "w.json" = Some Refused ∧
         ∃ obj, Some demo_object = Some obj ∧ vertices (data obj) ≠ [] ∧
                export_console out
                = [progress_begin 0 (length (vertices (data obj)))])).
Proof.
  apply (cancelled_export_writes_nothing "w.json" (Some demo_object)
           {[ "w.json" := Refused ]}).
  - intros obj [= <-]. apply demo_loops_in_range.
  - vm_compute. reflexivity.
Defined.

Lemma import_events_cases
    (kd_find : kd_points → Vector3 → option (Vector3 * nat))
    (filepath mapping_mode : string) (obj : Object)
    (load : string → string + Document) :
  filepath ≠ EmptyString → type obj = "MESH" →
  let events := import_events (import_skin_weights kd_find filepath mapping_mode
                                 (Some obj) load) in
  (∃ e, events = [print (ImportFailed e)]) ∨ events = [print NoValidVertexData] ∨
  events = [] ∨ events = [print ImportSuccessful].
Proof.
  intros Hpath Htype. cbv zeta. unfold import_skin_weights.
  destruct filepath as [|a filepath]; [done|]. rewrite Htype.
  replace (String.eqb "MESH" "MESH") with true by done. cbn [negb].
  destruct (load _) as [e|doc]; [by left; exists e|].
  destruct (d_vertices doc) as [[|v vs]|]; [by right; left| |by right; left].
  destruct (if String.eqb mapping_mode "POSITION" then _ else _) as [old_tree|e];
    [|by right; right; left].
  destruct (import_loop _ _ _ _ _ _) as [obj' [e|]];
    [by right; right; left|by right; right; right].
Qed.

Lemma export_events_cases (filepath : string) (obj : Object)
    (files : gmap string node) :
  filepath ≠ EmptyString → type obj = "MESH" →
  let events := export_events (export_skin_weights filepath (Some obj) files) in
  events = [print NoVerticesFound] ∨
  ∃ shown_in_loop, Forall loop_event shown_in_loop ∧
                   (events = shown_in_loop ∨
                    events = shown_in_loop ++ [progress_end; print ExportSuccessful]).
Proof.
  intros Hpath Htype. cbv zeta.
  destruct (decide (vertices (data obj) = [])) as [Hnil|Hverts].
  { left. destruct (export_empty_mesh filepath obj files Hnil) as (m & -> & _ & Hm).
    by rewrite (Hm Hpath Htype). }
  right.
  destruct (export_skin_weights_run filepath obj files Hpath Htype Hverts)
    as [[_ ->]|(_ & st & oe & Hloop & ->)].
  { eexists. split; [|by left]. by repeat constructor. }
  apply export_loop_inv in Hloop as (_ & _ & _ & _ & Hev).
  exists (shown st). split; [apply Hev; by repeat constructor|].
  destruct oe; [by left|by right].
Qed.

(** X15: run through the operators, the core functions never get to their
    own first two guards: whatever the arguments, the console shows neither
    "Invalid file path!" nor "No mesh selected!", because the operator has
    already turned those calls away with an ERROR report. *)
Theorem operators_bypass_core_guards
    (kd_find : kd_points → Vector3 → option (Vector3 * nat))
    (filepath mapping_mode : string) (context_object : option Object)
    (load : string → string + Document) (files : gmap string node) :
  let imported :=
    ImportSkinWeights.execute kd_find filepath mapping_mode context_object load in
  let exported := ExportSkinWeights.execute filepath context_object files in
  (print InvalidFilePath ∉ import_console imported) ∧
  (print NoMeshSelected ∉ import_console imported) ∧
  (print InvalidFilePath ∉ export_console exported) ∧
  (print NoMeshSelected ∉ export_console exported).
Proof.
  cbv zeta.
  assert (Himport : ∀ m, m = InvalidFilePath ∨ m = NoMeshSelected →
            print m ∉ import_console
              (ImportSkinWeights.execute kd_find filepath mapping_mode context_object load)).
  { intros m Hm. unfold ImportSkinWeights.execute.
    destruct context_object as [obj|]; [|by intros ?%elem_of_nil].
    destruct (String.eqb_spec (type obj) "MESH") as [Htype|_]; cbn [negb];
      [|by intros ?%elem_of_nil].
    destruct filepath as [|a filepath]; [by intros ?%elem_of_nil|].
    assert (Hin : print m ∉ import_events
                    (import_skin_weights kd_find (String a filepath) mapping_mode
                       (Some obj) load)).
    { destruct (import_events_cases kd_find (String a filepath) mapping_mode obj load
                  ltac:(done) Htype) as [[e ->]|[->|[->| ->]]];
        intros Hin; repeat (apply elem_of_cons in Hin as [Hin|Hin]);
        try (by apply elem_of_nil in Hin); destruct Hm; congruence. }
    by destruct (import_raised _). }
  assert (Hexport : ∀ m, m = InvalidFilePath ∨ m = NoMeshSelected →
            print m ∉ export_console
              (ExportSkinWeights.execute filepath context_object files)).
  { intros m Hm. unfold ExportSkinWeights.execute.
    destruct context_object as [obj|]; [|by intros ?%elem_of_nil].
    destruct (String.eqb_spec (type obj) "MESH") as [Htype|_]; cbn [negb];
      [|by intros ?%elem_of_nil].
    destruct filepath as [|a filepath]; [by intros ?%elem_of_nil|].
    assert (Hin : print m ∉ export_events
                    (export_skin_weights (String a filepath) (Some obj) files)).
    { destruct (export_events_cases (String a filepath) obj files ltac:(done) Htype)
        as [->|(evs & Hevs & [-> | ->])]; intros Hin.
      - apply list_elem_of_singleton in Hin. destruct Hm; congruence.
      - rewrite Forall_forall in Hevs. apply Hevs in Hin. by destruct Hm as [-> | ->].
      - apply elem_of_app in Hin as [Hin|Hin].
        + rewrite Forall_forall in Hevs. apply Hevs in Hin. by destruct Hm as [-> | ->].
        + repeat (apply elem_of_cons in Hin as [Hin|Hin]);
            try (by apply elem_of_nil in Hin); destruct Hm; congruence. }
    by destruct (export_raised _). }
  repeat split; (apply Himport || apply Hexport); eauto.
Qed.

(** ** Every vertex gets the weights of a nearest record *)

Lemma loop_groups_ok (items_of : MeshVertex → result (dict float))
    (vs : list MeshVertex) :
  (∀ v, v ∈ vs → ∃ items, items_of v = Return items) →
  ∀ groups, (loop_groups items_of vs groups).2 = None.
Proof.
  induction vs as [|vert rest IH]; intros Hret groups; [done|]. cbn [loop_groups].
  destruct (Hret vert) as [items ->]; [left|]. apply IH. intros v Hv. apply Hret.
  by right.
Qed.

(** An import whose loop finds items for every vertex ends with the
    success message, and every item found for a vertex is then that
    vertex's weight in the group of the item's name. *)
Lemma import_applies_items
    (kd_find : kd_points → Vector3 → option (Vector3 * nat))
    (filepath mapping_mode : string) (obj : Object) (load : string → string + Document)
    (doc : Document) (vertices_data : list VertexData) (old_tree : kd_points) :
  filepath ≠ EmptyString → type obj = "MESH" →
  load filepath = inr doc → d_vertices doc = Some vertices_data → vertices_data ≠ [] →
  (if String.eqb mapping_mode "POSITION"
   then kd_insert_all 0 vertices_data [] else Return []) = Return old_tree →
  (∀ vert, vert ∈ vertices (data obj) →
     ∃ items, vertex_items kd_find mapping_mode old_tree vertices_data obj vert
              = Return items) →
  NoDup (index <$> vertices (data obj)) → distinct_keys vertices_data →
  ∃ obj',
    import_skin_weights kd_find filepath mapping_mode (Some obj) load
    = {| object_after := Some obj'; import_events := [print ImportSuccessful];
         import_raised := None |} ∧
    ∀ vert items nm w,
      vert ∈ vertices (data obj) →
      vertex_items kd_find mapping_mode old_tree vertices_data obj vert = Return items →
      (nm, w) ∈ items →
      weight_in (vertex_groups obj') nm (index vert) = Some w.
Proof.
  intros Hpath Htype Hload Hdoc Hne Htree Hret Hidx Hkeys.
  rewrite (import_skin_weights_run kd_find _ _ _ _ doc vertices_data) by done.
  rewrite Htree.
  pose proof (import_loop_groups kd_find mapping_mode old_tree vertices_data obj
                (vertices (data obj)) (vertex_groups obj)) as Hloop.
  rewrite set_vertex_groups_id in Hloop. rewrite Hloop.
  rewrite (loop_groups_ok _ _ Hret). eexists. split; [done|].
  intros vert items nm w Hvert Hitems Hin. cbn [vertex_groups set_vertex_groups].
  apply weight_in_loop_item with items; try done; [|by apply loop_groups_ok].
  intros v' items' Hv' Hitems'.
  destruct (vertex_items_from_data _ _ _ _ _ _ _ Hitems') as [->|(r & Hr & ->)];
    [constructor|by apply Hkeys].
Qed.

(** X16: an import in Position mode applies to every vertex the weights of
    a nearest record.  The KD-tree meeting its contract, every record
    having its position, the vertex indices being distinct and the keys of
    every weights dictionary too, the import ends with the success message,
    and for every vertex of the mesh there is a record of the dataset, no
    other record being strictly closer to the vertex, all of whose weights
    are the vertex's weights in the groups of those names. *)
Theorem position_import_nearest
    (kd_find : kd_points → Vector3 → option (Vector3 * nat))
    (filepath : string) (obj : Object) (load : string → string + Document)
    (doc : Document) (vertices_data : list VertexData) :
  kd_find_nearest kd_find →
  filepath ≠ EmptyString → type obj = "MESH" →
  load filepath = inr doc → d_vertices doc = Some vertices_data → vertices_data ≠ [] →
  Forall has_position vertices_data →
  NoDup (index <$> vertices (data obj)) → distinct_keys vertices_data →
  ∃ obj',
    import_skin_weights kd_find filepath "POSITION" (Some obj) load
    = {| object_after := Some obj'; import_events := [print ImportSuccessful];
         import_raised := None |} ∧
    ∀ vert, vert ∈ vertices (data obj) →
      ∃ r, r ∈ vertices_data ∧
           (∀ r', r' ∈ vertices_data →
                  dist3 (co vert) (record_position r)
                  <= dist3 (co vert) (record_position r')) ∧
           ∀ group_name weight,
             (group_name, weight) ∈ record_items r →
             weight_in (vertex_groups obj') group_name (index vert) = Some weight.
Proof.
  intros Hkd Hpath Htype Hload Hdoc Hne Hco Hidx Hkeys.
  set (tree := imap (fun k r => (record_position r, (0 + k)%nat)) vertices_data).
  assert (Hitems : ∀ vert, ∃ r,
            r ∈ vertices_data ∧
            (∀ r', r' ∈ vertices_data →
                   dist3 (co vert) (record_position r)
                   <= dist3 (co vert) (record_position r')) ∧
            vertex_items kd_find "POSITION" tree vertices_data obj vert
            = Return (record_items r)).
  { intros vert.
    destruct (Hkd tree (co vert)) as (p & i & Hfind & Hin & Hmin).
    { subst tree. by destruct vertices_data. }
    apply elem_of_position_tree in Hin as (r & Hr & ->).
    exists r. split; [by eapply list_elem_of_lookup_2|]. split.
    - intros r' [j Hj]%list_elem_of_lookup. apply (Hmin _ j).
      apply elem_of_position_tree. eauto.
    - unfold vertex_items, matched_record.
      replace (String.eqb "POSITION" "POSITION") with true by done.
      by rewrite Hfind, (py_getitem_nat _ _ _ Hr). }
  destruct (import_applies_items kd_find filepath "POSITION" obj load doc vertices_data
              tree) as (obj' & Hout & Hweights); try done.
  { replace (String.eqb "POSITION" "POSITION") with true by done.
    by rewrite (kd_insert_all_positions vertices_data Hco). }
  { intros vert _. destruct (Hitems vert) as (r & _ & _ & Hr). eauto. }
  exists obj'. split; [done|]. intros vert Hvert.
  destruct (Hitems vert) as (r & Hr & Hmin & Hret).
  exists r. split; [done|]. split; [done|].
  intros group_name weight Hin. by apply (Hweights vert (record_items r)).
Qed.


(** The hypotheses of X16 hold of [demo_dataset] imported onto
    [demo_object] with the reference KD-tree. *)
Lemma position_import_nearest_witness :
  ∃ obj',
    import_skin_weights kd_find_scan "w.json" "POSITION" (Some demo_object)
      (fun _ => inr {| d_vertices := Some demo_dataset |})
    = {| object_after := Some obj'; import_events := [print ImportSuccessful];
         import_raised := None |} ∧
    ∀ vert, vert ∈ vertices (data demo_object) →
      ∃ r, r ∈ demo_dataset ∧
           (∀ r', r' ∈ demo_dataset →
                  dist3 (co vert) (record_position r)
                  <= dist3 (co vert) (record_position r')) ∧
           ∀ group_name weight,
             (group_name, weight) ∈ record_items r →
             weight_in (vertex_groups obj') group_name (index vert) = Some weight.
Proof.
  apply (position_import_nearest kd_find_scan "w.json" demo_object
           (fun _ => inr {| d_vertices := Some demo_dataset |})
           {| d_vertices := Some demo_dataset |} demo_dataset); try done.
  - apply kd_find_scan_nearest.
  - repeat constructor; by eexists _, _, _.
  - apply demo_indices_distinct.
  - apply demo_dataset_keys.
Defined.


(** ** How much the exporter shows *)

Local Close Scope Q_scope.

Lemma count_events_app (f : event → bool) (a b : list event) :
  count_events f (a ++ b) = (count_events f a + count_events f b)%nat.
Proof. induction a as [|e a IH]; cbn; [done|]. rewrite IH. lia. Qed.

Lemma count_events_emit (f : event → bool) (c : bool) (e : event) (out : list event) :
  count_events f (emit c e out)
  = (count_events f out + (if c && f e then 1 else 0))%nat.
Proof.
  unfold emit. destruct c; cbn; [|lia]. rewrite count_events_app. cbn.
  destruct (f e); lia.
Qed.

Lemma count_events_step (c1 c2 : bool) (i j total : nat) (out : list event) :
  count_events is_log_line
    (emit c1 (print (Exporting i total)) (emit c2 (progress_update j) out))
  = (count_events is_log_line out + (if c1 then 1 else 0))%nat ∧
  count_events is_progress_update
    (emit c1 (print (Exporting i total)) (emit c2 (progress_update j) out))
  = (count_events is_progress_update out + (if c2 then 1 else 0))%nat.
Proof.
  rewrite !count_events_emit. cbn [is_log_line is_progress_update].
  rewrite !andb_true_r, !andb_false_r. lia.
Qed.

Lemma export_loop_counts (obj : Object) (total li ui : nat) (vs : list MeshVertex) :
  ∀ i st st' oe,
    export_loop obj total li ui i vs st = (st', oe) →
    (count_events is_log_line (shown st')
       ≤ count_events is_log_line (shown st) + multiples li i (length vs))%nat ∧
    (count_events is_progress_update (shown st')
       ≤ count_events is_progress_update (shown st) + multiples ui i (length vs))%nat ∧
    (oe = None →
     count_events is_log_line (shown st')
       = (count_events is_log_line (shown st) + multiples li i (length vs))%nat ∧
     count_events is_progress_update (shown st')
       = (count_events is_progress_update (shown st) + multiples ui i (length vs))%nat).
Proof.
  induction vs as [|vert rest IH]; intros i st st' oe; cbn [export_loop].
  - intros [= <- <-]. cbn. lia.
  - destruct (vertex_record obj vert) as [v|e].
    + intros (Hlog & Hupd & Heq)%IH. cbn [shown length multiples] in *.
      pose proof (count_events_step (i mod li =? 0)%nat (i mod ui =? 0)%nat i i total
                    (shown st)) as [Hl Hu].
      rewrite Hl in Hlog, Heq. rewrite Hu in Hupd, Heq.
      destruct (i mod li =? 0)%nat, (i mod ui =? 0)%nat;
        (split; [lia|split; [lia|intros Hnone; specialize (Heq Hnone); lia]]).
    + intros [= <- <-]. cbn [length multiples]. split; [lia|]. split; [lia|done].
Qed.

Lemma multiples_app (k : nat) (n m : nat) :
  ∀ i, multiples k i (n + m) = (multiples k i n + multiples k (i + n) m)%nat.
Proof.
  induction n as [|n IH]; intros i; cbn [multiples Nat.add].
  - by rewrite Nat.add_0_r.
  - rewrite IH. replace (S i + n)%nat with (i + S n)%nat by lia. lia.
Qed.

Lemma multiples_succ (k n : nat) :
  multiples k 0 (S n) = (multiples k 0 n + (if (n mod k =? 0)%nat then 1 else 0))%nat.
Proof.
  replace (S n) with (n + 1)%nat by lia. rewrite multiples_app. cbn. lia.
Qed.

(** Below [n >= 1] there are [c] multiples of [k >= 1], the largest of
    them [(c - 1) * k]. *)
Lemma multiples_spec (k n : nat) :
  (1 ≤ k)%nat → (1 ≤ n)%nat →
  (1 ≤ multiples k 0 n ∧ (multiples k 0 n - 1) * k < n ∧ n ≤ multiples k 0 n * k)%nat.
Proof.
  intros Hk. induction n as [|n IH]; [lia|]. intros _.
  rewrite multiples_succ. destruct n as [|n].
  { cbn. rewrite Nat.Div0.mod_0_l. cbn. lia. }
  destruct IH as (Hc1 & Hlo & Hhi); [lia|].
  pose proof (Nat.div_mod (S n) k ltac:(lia)) as Hdiv.
  pose proof (Nat.mod_upper_bound (S n) k ltac:(lia)) as Hmod.
  destruct (Nat.eqb_spec (S n mod k) 0) as [H0|H0].
  - rewrite H0, Nat.add_0_r in Hdiv.
    assert (multiples k 0 (S n) = S n / k)%nat by nia. nia.
  - assert (multiples k 0 (S n) = S (S n / k))%nat by nia. nia.
Qed.

Lemma multiples_interval (n parts : nat) :
  (1 ≤ parts)%nat → (multiples (Nat.max 1 (n / parts)) 0 n ≤ 2 * parts - 1)%nat.
Proof.
  intros Hparts. destruct n as [|n]; [cbn; lia|].
  destruct (multiples_spec (Nat.max 1 (S n / parts)) (S n)) as (Hc & Hlo & _); [lia|lia|].
  pose proof (Nat.div_mod (S n) parts ltac:(lia)) as Hdiv.
  pose proof (Nat.mod_upper_bound (S n) parts ltac:(lia)) as Hmod.
  destruct (S n / parts)%nat as [|q] eqn:Hq.
  - change (Nat.max 1 0) with 1%nat in *. nia.
  - replace (Nat.max 1 (S q)) with (S q) in Hlo |- * by lia. nia.
Qed.

Lemma export_counts_run (filepath : string) (obj : Object)
    (files : gmap string node) :
  filepath ≠ EmptyString → type obj = "MESH" → vertices (data obj) ≠ [] →
  let out := export_skin_weights filepath (Some obj) files in
  let total_verts := length (vertices (data obj)) in
  (count_events is_log_line (export_events out)
     ≤ multiples (Nat.max 1 (total_verts / 10)) 0 total_verts)%nat ∧
  (count_events is_progress_update (export_events out)
     ≤ multiples (Nat.max 1 (total_verts / 1000)) 0 total_verts)%nat ∧
  (export_raised out = None →
   count_events is_log_line (export_events out)
     = multiples (Nat.max 1 (total_verts / 10)) 0 total_verts ∧
   count_events is_progress_update (export_events out)
     = multiples (Nat.max 1 (total_verts / 1000)) 0 total_verts).
Proof.
  intros Hpath Htype Hverts. cbv zeta.
  destruct (export_skin_weights_run filepath obj files Hpath Htype Hverts)
    as [[_ ->]|(_ & st & oe & Hloop & ->)].
  { cbn. split; [lia|]. split; [lia|done]. }
  apply export_loop_counts in Hloop as (Hlog & Hupd & Heq). cbn [shown] in *.
  cbn [count_events is_log_line is_progress_update] in Hlog, Hupd, Heq.
  destruct oe as [e|]; cbn [export_events export_raised].
  - split; [lia|]. split; [lia|done].
  - rewrite !count_events_app. cbn [count_events is_log_line is_progress_update].
    destruct (Heq eq_refl) as [-> ->]. split; [lia|]. split; [lia|]. intros _. lia.
Qed.

(** X18: however large the mesh and however the export ends, it prints at
    most 19 lines ["Exporting... x% done"] and calls [progress_update] at
    most 1999 times; an export that succeeds does each at least once. *)
Theorem export_progress_bounded (filepath : string) (context_object : option Object)
    (files : gmap string node) :
  let events := export_events (export_skin_weights filepath context_object files) in
  (count_events is_log_line events ≤ 19)%nat ∧
  (count_events is_progress_update events ≤ 1999)%nat ∧
  (print ExportSuccessful ∈ events →
   (1 ≤ count_events is_log_line events)%nat ∧
   (1 ≤ count_events is_progress_update events)%nat).
Proof.
  cbv zeta.
  assert (Hbounds :
    (count_events is_log_line
       (export_events (export_skin_weights filepath context_object files)) ≤ 19)%nat ∧
    (count_events is_progress_update
       (export_events (export_skin_weights filepath context_object files)) ≤ 1999)%nat).
  { assert (Hstop : ∀ m, is_log_line (print m) = false →
              export_events (export_skin_weights filepath context_object files)
              = [print m] →
              (count_events is_log_line
                 (export_events (export_skin_weights filepath context_object files))
               ≤ 19)%nat ∧
              (count_events is_progress_update
                 (export_events (export_skin_weights filepath context_object files))
               ≤ 1999)%nat).
    { intros m Hm ->. cbn [count_events]. rewrite Hm. cbn. lia. }
    destruct filepath as [|a filepath]; [by apply (Hstop InvalidFilePath)|].
    destruct context_object as [obj|]; [|by apply (Hstop NoMeshSelected)].
    destruct (String.eqb_spec (type obj) "MESH") as [Htype|Htype]; cycle 1.
    { apply (Hstop NoMeshSelected); [done|]. unfold export_skin_weights.
      by apply String.eqb_neq in Htype as ->. }
    destruct (vertices (data obj)) as [|v vs] eqn:Hverts.
    { apply (Hstop NoVerticesFound); [done|]. unfold export_skin_weights.
      by rewrite Htype, Hverts. }
    destruct (export_counts_run (String a filepath) obj files) as (Hlog & Hupd & _);
      [done|done|by rewrite Hverts|].
    pose proof (multiples_interval (length (vertices (data obj))) 10 ltac:(lia)).
    pose proof (multiples_interval (length (vertices (data obj))) 1000 ltac:(lia)).
    lia. }
  split; [apply Hbounds|]. split; [apply Hbounds|].
  intros Hin. destruct context_object as [obj|]; cycle 1.
  { unfold export_skin_weights in Hin. destruct filepath; cbn in Hin;
      by apply list_elem_of_singleton in Hin. }
  pose proof (export_successful_inv _ _ _ Hin) as (Hpath & Htype & Hverts & Hraised).
  destruct (export_counts_run filepath obj files Hpath Htype Hverts)
    as (_ & _ & Heq).
  destruct (Heq Hraised) as [-> ->].
  assert (Hlen : (1 ≤ length (vertices (data obj)))%nat).
  { destruct (vertices (data obj)); [done|cbn; lia]. }
  split.
  - by apply (multiples_spec (Nat.max 1 (length (vertices (data obj)) / 10))); [lia|].
  - by apply (multiples_spec (Nat.max 1 (length (vertices (data obj)) / 1000))); [lia|].
Qed.

Local Open Scope Q_scope.

(** The export of [demo_object] succeeds. *)
Lemma export_progress_bounded_witness :
  (1 ≤ count_events is_log_line
         (export_events (export_skin_weights "w.json" (Some demo_object) ∅)))%nat ∧
  (1 ≤ count_events is_progress_update
         (export_events (export_skin_weights "w.json" (Some demo_object) ∅)))%nat.
Proof.
  apply (export_progress_bounded "w.json" (Some demo_object) ∅).
  vm_compute. do 8 apply list_elem_of_further. apply list_elem_of_here.
Defined.
